(** * Data-dependency core of the DART tasking runtime

    A shallow embedding of
    [dart-impl/tasking/src/internal/dart_tasking_datadeps.c]:
    the dependency hash table, the matchers, the deferred handling of
    remote dependencies and the release engine, followed by the
    properties of these functions.

    Conventions of the embedding.
    - A pointer is an integer address, [NULL] is [0]; the task memory is a
      total map from addresses to task objects.
    - A singly linked list (hash bucket, free list, [remote_successor],
      [unhandled_remote_deps], task list) is a Rocq list, head first; the
      [next] field is the list structure.
    - The mutexes are not modelled: every function below is the
      sequential behaviour of one call.
    - Calls into the transport ([dart_tasking_remote_release],
      [dart_tasking_remote_direct_taskdep]) and into the worker pool
      ([dart__tasking__enqueue_runnable]) are recorded, in call order, in
      the traces [sent] and [runq] of the runtime state.
    - A failed [DART_ASSERT] aborts the program: functions that may
      assert return an [outcome]. *)

From Stdlib Require Import ZArith List Bool Lia.
Import ListNotations.
Open Scope Z_scope.

(** ** Types *)

Definition ptr := Z.
Definition NULL : ptr := 0.

Inductive dart_ret_t := DART_OK | DART_ERR_INVAL.

(** Modelled from the spec: the enumeration [dart_task_deptype_t] of
    [dart_tasking.h], with the dependency types the spec lists. *)
Inductive dart_task_deptype_t :=
| DART_DEP_IN
| DART_DEP_OUT
| DART_DEP_INOUT
| DART_DEP_DIRECT
| DART_DEP_COPYIN
| DART_DEP_DELAYED_IN
| DART_DEP_IGNORE.

(** Modelled from the spec: the enumeration of task states of
    [dart_tasking_priv.h], with the states the spec lists and the state
    [DART_TASK_ROOT] that [handle_task] tests. *)
Inductive dart_task_state_t :=
| DART_TASK_ROOT
| DART_TASK_CREATED
| DART_TASK_QUEUED
| DART_TASK_RUNNING
| DART_TASK_FINISHED
| DART_TASK_CANCELLED.

Definition deptype_eqb (a b : dart_task_deptype_t) : bool :=
  match a, b with
  | DART_DEP_IN, DART_DEP_IN | DART_DEP_OUT, DART_DEP_OUT
  | DART_DEP_INOUT, DART_DEP_INOUT | DART_DEP_DIRECT, DART_DEP_DIRECT
  | DART_DEP_COPYIN, DART_DEP_COPYIN
  | DART_DEP_DELAYED_IN, DART_DEP_DELAYED_IN
  | DART_DEP_IGNORE, DART_DEP_IGNORE => true
  | _, _ => false
  end.

Definition state_eqb (a b : dart_task_state_t) : bool :=
  match a, b with
  | DART_TASK_ROOT, DART_TASK_ROOT | DART_TASK_CREATED, DART_TASK_CREATED
  | DART_TASK_QUEUED, DART_TASK_QUEUED | DART_TASK_RUNNING, DART_TASK_RUNNING
  | DART_TASK_FINISHED, DART_TASK_FINISHED
  | DART_TASK_CANCELLED, DART_TASK_CANCELLED => true
  | _, _ => false
  end.

(** Modelled from the spec: [dart_gptr_t], the global pointer
    [{unitid, flags, segid, teamid, addr_or_offs}]; [addr_or_offs] is the
    union of [offset] and [addr]. *)
Record dart_gptr_t := mk_gptr {
  unitid : Z;
  flags : Z;
  segid : Z;
  teamid : Z;
  addr_or_offs : Z
}.

Definition DART_GPTR_NULL : dart_gptr_t := mk_gptr 0 0 0 0 0.

(** Modelled from the spec: [dart_task_dep_t] of [dart_tasking.h].  The
    members [gptr], [copyin] and [task] of its union are kept as separate
    fields; every function reads the member that goes with the type. *)
Record dart_task_dep_t := mk_dep {
  dep_type : dart_task_deptype_t;
  gptr : dart_gptr_t;
  copyin_dest : Z;
  copyin_gptr : dart_gptr_t;
  dep_task : ptr;
  dep_phase : Z
}.

(** [dart_dephash_elem_t] without its [next] pointer. *)
Record dart_dephash_elem_t := mk_elem {
  taskdep : dart_task_dep_t;
  task : ptr;
  origin : Z
}.

Definition bucket := list dart_dephash_elem_t.

(** Modelled from the spec: the fields of [dart_task_t]
    ([dart_tasking_priv.h]) used by the dependency code.  [local_deps] is
    [None] for a [NULL] table, otherwise the array of [DART_DEPHASH_SIZE]
    buckets indexed by slot. *)
Record dart_task_t := mk_task {
  parent : ptr;
  phase : Z;
  state : dart_task_state_t;
  unresolved_deps : Z;
  unresolved_remote_deps : Z;
  successor : list ptr;
  remote_successor : bucket;
  local_deps : option (Z -> bucket)
}.

(** Messages handed to the transport. *)
Inductive message :=
| Release (target : Z) (remote_task : ptr) (dep : dart_task_dep_t)
| DirectTaskdep (target : Z) (local_task : ptr) (remote_task : ptr)
| DepRequest (dep : dart_task_dep_t) (local_task : ptr).

(** The file-scope state of the compilation unit together with the task
    memory and the two traces. *)
Record runtime := mk_runtime {
  heap : ptr -> dart_task_t;
  freelist_head : bucket;
  unhandled_remote_deps : bucket;
  remote_blocked_tasks : list ptr;
  myguid : Z;
  current_task : ptr;
  sent : list message;
  runq : list ptr
}.

Inductive outcome (A : Type) :=
| Done (a : A)
| Aborted.
Arguments Done {A} a.
Arguments Aborted {A}.

Definition bind {A B} (m : outcome A) (k : A -> outcome B) : outcome B :=
  match m with
  | Done a => k a
  | Aborted => Aborted
  end.

Notation "x <- m ;; k" := (bind m (fun x => k))
  (at level 61, m at next level, right associativity).

(** The value a run returns, [d] for a run that aborts. *)
Definition result {A} (d : A) (m : outcome A) : A :=
  match m with
  | Done a => a
  | Aborted => d
  end.

(** Modelled from the spec: [DART_ASSERT(expr)] and
    [DART_ASSERT_MSG(expr, ...)] of [assert.h]; a violated assertion is
    fatal and aborts. *)
Definition DART_ASSERT (expr : bool) : outcome unit :=
  if expr then Done tt else Aborted.

(** ** Field updates *)

Definition set_unresolved_deps (v : Z) (t : dart_task_t) : dart_task_t :=
  mk_task (parent t) (phase t) (state t) v (unresolved_remote_deps t)
          (successor t) (remote_successor t) (local_deps t).

Definition set_unresolved_remote_deps (v : Z) (t : dart_task_t) : dart_task_t :=
  mk_task (parent t) (phase t) (state t) (unresolved_deps t) v
          (successor t) (remote_successor t) (local_deps t).

Definition set_successor (v : list ptr) (t : dart_task_t) : dart_task_t :=
  mk_task (parent t) (phase t) (state t) (unresolved_deps t)
          (unresolved_remote_deps t) v (remote_successor t) (local_deps t).

Definition set_remote_successor (v : bucket) (t : dart_task_t) : dart_task_t :=
  mk_task (parent t) (phase t) (state t) (unresolved_deps t)
          (unresolved_remote_deps t) (successor t) v (local_deps t).

Definition set_local_deps (v : option (Z -> bucket)) (t : dart_task_t)
  : dart_task_t :=
  mk_task (parent t) (phase t) (state t) (unresolved_deps t)
          (unresolved_remote_deps t) (successor t) (remote_successor t) v.

Definition set_heap (v : ptr -> dart_task_t) (rt : runtime) : runtime :=
  mk_runtime v (freelist_head rt) (unhandled_remote_deps rt)
             (remote_blocked_tasks rt) (myguid rt) (current_task rt)
             (sent rt) (runq rt).

Definition set_freelist_head (v : bucket) (rt : runtime) : runtime :=
  mk_runtime (heap rt) v (unhandled_remote_deps rt)
             (remote_blocked_tasks rt) (myguid rt) (current_task rt)
             (sent rt) (runq rt).

Definition set_unhandled_remote_deps (v : bucket) (rt : runtime) : runtime :=
  mk_runtime (heap rt) (freelist_head rt) v
             (remote_blocked_tasks rt) (myguid rt) (current_task rt)
             (sent rt) (runq rt).

Definition set_remote_blocked_tasks (v : list ptr) (rt : runtime) : runtime :=
  mk_runtime (heap rt) (freelist_head rt) (unhandled_remote_deps rt)
             v (myguid rt) (current_task rt) (sent rt) (runq rt).

Definition set_sent (v : list message) (rt : runtime) : runtime :=
  mk_runtime (heap rt) (freelist_head rt) (unhandled_remote_deps rt)
             (remote_blocked_tasks rt) (myguid rt) (current_task rt)
             v (runq rt).

Definition set_runq (v : list ptr) (rt : runtime) : runtime :=
  mk_runtime (heap rt) (freelist_head rt) (unhandled_remote_deps rt)
             (remote_blocked_tasks rt) (myguid rt) (current_task rt)
             (sent rt) v.

(** [p->field = ...]: the task at [p] is replaced by [f] of itself. *)
Definition modify_task (p : ptr) (f : dart_task_t -> dart_task_t)
           (rt : runtime) : runtime :=
  set_heap (fun q => if q =? p then f (heap rt p) else heap rt q) rt.

(** One array element of a hash table is replaced. *)
Definition set_slot (tbl : Z -> bucket) (slot : Z) (b : bucket) : Z -> bucket :=
  fun s => if s =? slot then b else tbl s.

(** ** Collaborators *)

(** Modelled from the spec: the sends of [dart_tasking_remote.h] and the
    enqueue of the worker pool, as entries of the traces. *)

Definition dart_tasking_remote_release
           (target : Z) (remote_task : ptr) (dep : dart_task_dep_t)
           (rt : runtime) : runtime :=
  set_sent (sent rt ++ [Release target remote_task dep]) rt.

Definition dart_tasking_remote_direct_taskdep
           (target : Z) (local_task remote_task : ptr)
           (rt : runtime) : runtime :=
  set_sent (sent rt ++ [DirectTaskdep target local_task remote_task]) rt.

Definition dart_tasking_remote_datadep
           (dep : dart_task_dep_t) (t : ptr) (rt : runtime) : runtime :=
  set_sent (sent rt ++ [DepRequest dep t]) rt.

Definition dart__tasking__enqueue_runnable (t : ptr) (rt : runtime) : runtime :=
  set_runq (runq rt ++ [t]) rt.

(** Modelled from the spec: the task lists of [dart_tasking_tasklist.h],
    lists of task pointers with prepend and membership; the pop of the
    head is the pattern match of [release_successors]. *)
Definition dart_tasking_tasklist_prepend (l : list ptr) (t : ptr) : list ptr :=
  t :: l.

Definition dart_tasking_tasklist_contains (l : list ptr) (t : ptr) : bool :=
  existsb (Z.eqb t) l.

(** ** 32-bit atomics *)

(** Modelled from the spec: the values of [DART_INC_AND_FETCH32],
    [DART_FETCH_AND_INC32] and [DART_DEC_AND_FETCH32] of [atomic.h] on
    an [int32_t] counter, with wrap-around. *)

Definition int32_wrap (z : Z) : Z := (z + 2 ^ 31) mod 2 ^ 32 - 2 ^ 31.

Definition inc32 (z : Z) : Z := int32_wrap (z + 1).
Definition dec32 (z : Z) : Z := int32_wrap (z - 1).

(** ** Macros of the file *)

Definition DART_DEPHASH_SIZE : Z := 1023.

Definition IS_OUT_DEP (d : dart_task_dep_t) : bool :=
  deptype_eqb (dep_type d) DART_DEP_OUT || deptype_eqb (dep_type d) DART_DEP_INOUT.

Definition DEP_ADDR (d : dart_task_dep_t) : Z := addr_or_offs (gptr d).

Definition DEP_ADDR_EQ (d1 d2 : dart_task_dep_t) : bool :=
  DEP_ADDR d1 =? DEP_ADDR d2.

(** [hash_gptr]: [segid] is widened to [uint32_t] and shifted in 32 bits,
    the offset and the unit are [uint64_t]. *)
Definition hash_gptr (g : dart_gptr_t) : Z :=
  let segid32 := segid g mod 2 ^ 32 in
  let hash := addr_or_offs g mod 2 ^ 64 in
  let unitid64 := unitid g mod 2 ^ 64 in
  let hash := Z.shiftr hash 2 in
  let hash := Z.lxor hash (Z.shiftl segid32 16 mod 2 ^ 32) in
  let hash := Z.lxor hash (Z.shiftl unitid64 32 mod 2 ^ 64) in
  hash mod DART_DEPHASH_SIZE.

Section Datadeps.

(** ** What the file takes from headers that are not part of it *)

(** [IS_ACTIVE_TASK(task)] tests [task->state]; the set of active states
    is left open. *)
Variable active_state : dart_task_state_t -> bool.

(** The enumerator of [dart_task_deptype_t] whose value is [0], which a
    zeroed record carries. *)
Variable deptype_zero : dart_task_deptype_t.

Variable DART_TASKING_DATADEPS_LOCAL_SEGID : Z.

(** [dart_tasking_copyin_create_task(dep, dest_gptr, tr)], the creation
    of a prefetch task by the copy-in module. *)
Variable dart_tasking_copyin_create_task :
  dart_task_dep_t -> dart_gptr_t -> ptr -> runtime -> runtime.

Definition IS_ACTIVE_TASK (rt : runtime) (p : ptr) : bool :=
  active_state (state (heap rt p)).

(** ** Element pool *)

(** A record after [memset(elem, 0, sizeof( *elem))] or [calloc]. *)
Definition zero_elem : dart_dephash_elem_t :=
  mk_elem (mk_dep deptype_zero DART_GPTR_NULL 0 DART_GPTR_NULL NULL 0) NULL 0.

Definition dephash_allocate_elem
           (dep : dart_task_dep_t) (tr : ptr) (org : Z) (rt : runtime)
  : outcome (dart_dephash_elem_t * runtime) :=
  let '(elem, rt1) :=
    match freelist_head rt with
    | e :: l => (e, set_freelist_head l rt)
    | [] => (zero_elem, rt)
    end in
  _ <- DART_ASSERT (negb (tr =? NULL)) ;;
  _ <- DART_ASSERT (task elem =? NULL) ;;
  Done (mk_elem dep tr org, rt1).

Definition dephash_recycle_elem (elem : dart_dephash_elem_t) (rt : runtime)
  : runtime :=
  set_freelist_head (zero_elem :: freelist_head rt) rt.

Definition free_dephash_list (l : bucket) (rt : runtime) : runtime :=
  fold_left (fun rt elem => dephash_recycle_elem elem rt) l rt.

Definition dephash_require_alloc (p : ptr) (rt : runtime) : runtime :=
  if negb (p =? NULL) then
    match local_deps (heap rt p) with
    | None => modify_task p (set_local_deps (Some (fun _ => []))) rt
    | Some _ => rt
    end
  else rt.

(** [dephash_add_local]; a [NULL] parent is dereferenced by the source,
    which ends the program. *)
Definition dephash_add_local (dep : dart_task_dep_t) (t : ptr) (rt : runtime)
  : outcome (dart_ret_t * runtime) :=
  r <- dephash_allocate_elem dep t (myguid rt) rt ;;
  let '(elem, rt1) := r in
  let par := parent (heap rt1 t) in
  let rt2 := dephash_require_alloc par rt1 in
  let slot := hash_gptr (gptr dep) in
  match local_deps (heap rt2 par) with
  | Some tbl =>
      Done (DART_OK,
            modify_task par
              (set_local_deps (Some (set_slot tbl slot (elem :: tbl slot)))) rt2)
  | None => Aborted
  end.

(** ** Counters *)

Definition release_local_dep_counter (t : ptr) (rt : runtime)
  : outcome (bool * runtime) :=
  let num_local_deps := dec32 (unresolved_deps (heap rt t)) in
  let rt1 := modify_task t (set_unresolved_deps num_local_deps) rt in
  let num_remote_deps := unresolved_remote_deps (heap rt1 t) in
  _ <- DART_ASSERT ((0 <=? num_remote_deps) && (0 <=? num_local_deps)) ;;
  Done ((num_local_deps =? 0) && (num_remote_deps =? 0), rt1).

(** ** Reset *)

Definition slots : list Z := map Z.of_nat (seq 0 (Z.to_nat DART_DEPHASH_SIZE)).

Definition dart_tasking_datadeps_reset (t : ptr) (rt : runtime)
  : dart_ret_t * runtime :=
  if t =? NULL then (DART_OK, rt) else
  match local_deps (heap rt t) with
  | None => (DART_OK, rt)
  | Some tbl =>
      let rt1 := fold_left (fun rt i => free_dephash_list (tbl i) rt) slots rt in
      let rt2 := modify_task t (set_local_deps None) rt1 in
      let rt3 := free_dephash_list (remote_successor (heap rt2 t)) rt2 in
      let rt4 := modify_task t (set_remote_successor []) rt3 in
      let rt5 := modify_task t (set_unresolved_deps 0) rt4 in
      let rt6 := modify_task t (set_unresolved_remote_deps 0) rt5 in
      (DART_OK, rt6)
  end.

(** ** Deferred handling of incoming remote dependencies *)

(** The [for] loop over one bucket.  No task is modified while it runs,
    and [candidate] is [NULL] until the loop is left, so the loop is a
    function of the bucket and of the direct-dependency candidate so
    far; it returns [(candidate, direct_dep_candidate)]. *)
Fixpoint remote_scan (rt : runtime) (rdep : dart_dephash_elem_t)
         (b : bucket) (direct_dep_candidate : ptr) : ptr * ptr :=
  match b with
  | [] => (NULL, direct_dep_candidate)
  | local :: rest =>
      let candidate := NULL in
      let local_task := task local in
      if negb (local_task =? candidate)
         && IS_OUT_DEP (taskdep local)
         && DEP_ADDR_EQ (taskdep local) (taskdep rdep) then
        if negb (IS_ACTIVE_TASK rt local_task) then
          (candidate, direct_dep_candidate)
        else if dep_phase (taskdep local) <? dep_phase (taskdep rdep) then
          (local_task, direct_dep_candidate)
        else if dep_phase (taskdep local) >=? dep_phase (taskdep rdep) then
          remote_scan rt rdep rest
            (if (direct_dep_candidate =? NULL)
                || (phase (heap rt direct_dep_candidate)
                    >? dep_phase (taskdep local))
             then local_task else direct_dep_candidate)
        else remote_scan rt rdep rest direct_dep_candidate
      else remote_scan rt rdep rest direct_dep_candidate
  end.

(** The body of the [while] loop for one pending record. *)
Definition handle_remote_dep (table : option (Z -> bucket))
           (rdep : dart_dephash_elem_t) (rt : runtime) : runtime :=
  let org := origin rdep in
  let '(candidate, direct_dep_candidate) :=
    match table with
    | Some tbl =>
        remote_scan rt rdep (tbl (hash_gptr (gptr (taskdep rdep)))) NULL
    | None => (NULL, NULL)
    end in
  let rt1 :=
    if negb (direct_dep_candidate =? NULL) then
      let rt_a :=
        dart_tasking_remote_direct_taskdep org direct_dep_candidate
                                           (task rdep) rt in
      let unresolved := unresolved_remote_deps (heap rt_a direct_dep_candidate) in
      let rt_b :=
        modify_task direct_dep_candidate
                    (set_unresolved_remote_deps (inc32 unresolved)) rt_a in
      if unresolved =? 0 then
        set_remote_blocked_tasks
          (dart_tasking_tasklist_prepend (remote_blocked_tasks rt_b)
                                         direct_dep_candidate) rt_b
      else rt_b
    else rt in
  if negb (candidate =? NULL) then
    modify_task candidate
      (fun c => set_remote_successor (rdep :: remote_successor c) c) rt1
  else
    dephash_recycle_elem rdep
      (dart_tasking_remote_release org (task rdep) (taskdep rdep) rt1).

Definition dart_tasking_datadeps_handle_defered_remote (rt : runtime)
  : dart_ret_t * runtime :=
  let table := local_deps (heap rt (current_task rt)) in
  let rt' :=
    fold_left (fun rt rdep => handle_remote_dep table rdep rt)
              (unhandled_remote_deps rt) rt in
  (DART_OK, set_unhandled_remote_deps [] rt').


(** ** Copy-in planner *)

(** The bucket walk of [handle_copyin]: the owner of the first record on
    [dest] that is an output of the dependency's phase; the walk gives up
    at a record on [dest] from an earlier phase. *)
Fixpoint copyin_scan (dep : dart_task_dep_t) (b : bucket) : option ptr :=
  match b with
  | [] => None
  | elem :: rest =>
      if addr_or_offs (gptr (taskdep elem)) =? copyin_dest dep then
        if dep_phase (taskdep elem) <? dep_phase dep then None
        else if IS_OUT_DEP (taskdep elem)
                && (dep_phase dep =? dep_phase (taskdep elem))
        then Some (task elem)
        else copyin_scan dep rest
      else copyin_scan dep rest
  end.

Inductive flow :=
| Return (r : dart_ret_t) (rt : runtime)
| Continue (rt : runtime).

Definition copyin_dest_gptr (dep : dart_task_dep_t) (rt : runtime) : dart_gptr_t :=
  mk_gptr (myguid rt) 0 DART_TASKING_DATADEPS_LOCAL_SEGID 0 (copyin_dest dep).

(** The body of the [do ... while] loop at the value [iter] of its
    counter.  The members of [in_dep] that the source leaves unset are
    never read and are zero here. *)
Definition copyin_pass (iter : Z) (dep : dart_task_dep_t) (t : ptr)
           (rt : runtime) : outcome flow :=
  let dest_gptr := copyin_dest_gptr dep rt in
  let slot := hash_gptr dest_gptr in
  let found :=
    match local_deps (heap rt (parent (heap rt t))) with
    | Some tbl => copyin_scan dep (tbl slot)
    | None => None
    end in
  match found with
  | Some elem_task =>
      let rt1 :=
        modify_task t
          (fun x => set_unresolved_deps (inc32 (unresolved_deps x)) x) rt in
      let rt2 :=
        modify_task elem_task
          (fun x => set_successor
                      (dart_tasking_tasklist_prepend (successor x) t) x) rt1 in
      let in_dep :=
        mk_dep DART_DEP_IN dest_gptr 0 DART_GPTR_NULL NULL (dep_phase dep) in
      r <- dephash_add_local in_dep t rt2 ;;
      Done (Return DART_OK (snd r))
  | None =>
      _ <- (if 0 <? iter then DART_ASSERT (negb (iter =? 0)) else Done tt) ;;
      Done (Continue
              (dart_tasking_copyin_create_task dep dest_gptr t rt))
  end.

(** [do { ... } while (0 == iter++)] with [iter] starting at [0]: the
    condition holds after the first pass and fails after the second. *)
Definition dart_tasking_datadeps_handle_copyin
           (dep : dart_task_dep_t) (t : ptr) (rt : runtime)
  : outcome (dart_ret_t * runtime) :=
  f0 <- copyin_pass 0 dep t rt ;;
  match f0 with
  | Return r rt' => Done (r, rt')
  | Continue rt1 =>
      f1 <- copyin_pass 1 dep t rt1 ;;
      match f1 with
      | Return r rt' => Done (r, rt')
      | Continue rt2 => Done (DART_OK, rt2)
      end
  end.

(** ** Local matcher *)

(** The [for] loop of [match_local_datadep] over the remaining records of
    the bucket; it returns the records, of which one may have been
    upgraded, and the runtime. *)
Fixpoint match_local_loop (dep : dart_task_dep_t) (t : ptr)
         (b : bucket) (rt : runtime) : bucket * runtime :=
  match b with
  | [] => ([], rt)
  | elem :: rest =>
      if DEP_ADDR_EQ (taskdep elem) dep then
        let elem_task := task elem in
        if elem_task =? t then
          let elem' :=
            if deptype_eqb (dep_type (taskdep elem)) DART_DEP_IN
               && IS_OUT_DEP dep
            then mk_elem (mk_dep DART_DEP_INOUT (gptr (taskdep elem))
                                 (copyin_dest (taskdep elem))
                                 (copyin_gptr (taskdep elem))
                                 (dep_task (taskdep elem))
                                 (dep_phase (taskdep elem)))
                         (task elem) (origin elem)
            else elem in
          (elem' :: rest, rt)
        else
          let rt1 :=
            if IS_OUT_DEP dep
               || (deptype_eqb (dep_type dep) DART_DEP_IN
                   && IS_OUT_DEP (taskdep elem)) then
              if IS_ACTIVE_TASK rt elem_task then
                if dart_tasking_tasklist_contains
                     (successor (heap rt elem_task)) t
                then rt
                else
                  let rt_a :=
                    modify_task t
                      (fun x => set_unresolved_deps
                                  (inc32 (unresolved_deps x)) x) rt in
                  modify_task elem_task
                    (fun x => set_successor
                                (dart_tasking_tasklist_prepend (successor x) t)
                                x) rt_a
              else rt
            else rt in
          if IS_OUT_DEP (taskdep elem) then (elem :: rest, rt1)
          else
            let '(rest', rt2) := match_local_loop dep t rest rt1 in
            (elem :: rest', rt2)
      else
        let '(rest', rt2) := match_local_loop dep t rest rt in
        (elem :: rest', rt2)
  end.

Definition dart_tasking_datadeps_match_local_datadep
           (dep : dart_task_dep_t) (t : ptr) (rt : runtime)
  : dart_ret_t * runtime :=
  let slot := hash_gptr (gptr dep) in
  let par := parent (heap rt t) in
  match local_deps (heap rt par) with
  | None => (DART_OK, rt)
  | Some tbl =>
      let '(b', rt1) := match_local_loop dep t (tbl slot) rt in
      (DART_OK,
       modify_task par
         (fun x => match local_deps x with
                   | Some tbl1 => set_local_deps (Some (set_slot tbl1 slot b')) x
                   | None => x
                   end) rt1)
  end.

(** ** Delayed local matcher *)

(** The walk of [match_delayed_local_datadep] up to its [return]: the
    records before the matched writer ([prev] is the last of them), the
    writer, the records behind it and [next_out_task]. *)
Fixpoint delayed_scan (dep : dart_task_dep_t) (t : ptr)
         (before b : bucket) (next_out_task : ptr)
  : outcome (option (bucket * dart_dephash_elem_t * bucket * ptr)) :=
  match b with
  | [] => Done None
  | elem :: rest =>
      if dep_phase (taskdep elem) >? dep_phase dep then
        delayed_scan dep t (before ++ [elem]) rest
          (if DEP_ADDR_EQ (taskdep elem) dep && IS_OUT_DEP (taskdep elem)
           then task elem else next_out_task)
      else if DEP_ADDR_EQ (taskdep elem) dep then
        _ <- DART_ASSERT (negb (task elem =? t)) ;;
        if IS_OUT_DEP (taskdep elem)
        then Done (Some (before, elem, rest, next_out_task))
        else delayed_scan dep t (before ++ [elem]) rest next_out_task
      else delayed_scan dep t (before ++ [elem]) rest next_out_task
  end.

(** The first half of the match: the new task becomes a successor of the
    writer's task when that task is active. *)
Definition delayed_link (elem_task t : ptr) (rt : runtime) : runtime :=
  if IS_ACTIVE_TASK rt elem_task then
    let rt_a :=
      modify_task t
        (fun x => set_unresolved_deps (inc32 (unresolved_deps x)) x) rt in
    modify_task elem_task
      (fun x => set_successor
                  (dart_tasking_tasklist_prepend (successor x) t) x) rt_a
  else rt.

Definition dart_tasking_datadeps_match_delayed_local_datadep
           (dep : dart_task_dep_t) (t : ptr) (rt : runtime)
  : outcome (dart_ret_t * runtime) :=
  let slot := hash_gptr (gptr dep) in
  match local_deps (heap rt (parent (heap rt t))) with
  | None => Done (DART_OK, rt)
  | Some tbl =>
      hit <- delayed_scan dep t [] (tbl slot) NULL ;;
      match hit with
      | None => Done (DART_OK, rt)
      | Some (before, elem, rest, next_out_task) =>
          let rt1 := delayed_link (task elem) t rt in
          if negb (next_out_task =? NULL) then
            _ <- DART_ASSERT (IS_ACTIVE_TASK rt1 next_out_task) ;;
            let rt2 :=
              modify_task next_out_task
                (fun x => set_unresolved_deps (inc32 (unresolved_deps x)) x)
                rt1 in
            Done (DART_OK,
                  modify_task t
                    (fun x =>
                       set_successor
                         (dart_tasking_tasklist_prepend (successor x)
                                                        next_out_task) x)
                    rt2)
          else
            r <- dephash_allocate_elem dep t (myguid rt1) rt1 ;;
            let '(new_elem, rt2) := r in
            let par := parent (heap rt2 t) in
            let rt3 := dephash_require_alloc par rt2 in
            match local_deps (heap rt3 par) with
            | Some tbl3 =>
                Done (DART_OK,
                      modify_task par
                        (set_local_deps
                           (Some (set_slot tbl3 slot
                                    (before ++ new_elem :: elem :: rest))))
                        rt3)
            | None => Aborted
            end
      end
  end.

(** ** Incoming requests *)

Definition dart_tasking_datadeps_handle_remote_task
           (rdep : dart_task_dep_t) (remote_task : ptr) (org : Z)
           (rt : runtime) : outcome (dart_ret_t * runtime) :=
  if negb (deptype_eqb (dep_type rdep) DART_DEP_IN) then
    Done (DART_ERR_INVAL, rt)
  else
    r <- dephash_allocate_elem rdep remote_task org rt ;;
    let '(rs, rt1) := r in
    Done (DART_OK,
          set_unhandled_remote_deps (rs :: unhandled_remote_deps rt1) rt1).

(** [handle_remote_direct].  Its dummy dependency sets [type] and [gptr]
    only: [uninit] stands for what the remaining members hold. *)
Definition dart_tasking_datadeps_handle_remote_direct
           (local_task remote_task : ptr) (org : Z)
           (uninit : dart_task_dep_t) (rt : runtime)
  : outcome (dart_ret_t * runtime) :=
  let enqueued := false in
  let dep :=
    mk_dep DART_DEP_DIRECT DART_GPTR_NULL (copyin_dest uninit)
           (copyin_gptr uninit) (dep_task uninit) (dep_phase uninit) in
  r <- (if IS_ACTIVE_TASK rt local_task then
          if IS_ACTIVE_TASK rt local_task then
            a <- dephash_allocate_elem dep remote_task org rt ;;
            let '(rs, rt1) := a in
            Done (true,
                  modify_task local_task
                    (fun x => set_remote_successor (rs :: remote_successor x) x)
                    rt1)
          else Done (enqueued, rt)
        else Done (enqueued, rt)) ;;
  let '(enqueued, rt2) := r in
  if negb enqueued then
    Done (DART_OK, dart_tasking_remote_release org remote_task dep rt2)
  else Done (DART_OK, rt2).

(** ** Release engine *)

Definition release_remote_dependencies (t : ptr) (rt : runtime) : runtime :=
  let rt1 :=
    fold_left
      (fun rt tmp =>
         dephash_recycle_elem tmp
           (dart_tasking_remote_release (origin tmp) (task tmp) (taskdep tmp) rt))
      (remote_successor (heap rt t)) rt in
  modify_task t (set_remote_successor []) rt1.

(** The [while] loop of [release_local_task].  Its body changes no
    successor list, so the loop runs down the list [succs] that
    [task->successor] holds on entry; every pop stores the tail, and a
    [NULL] entry ends the loop like the empty list. *)
Fixpoint release_successors (t : ptr) (succs : list ptr) (rt : runtime)
  : outcome runtime :=
  match succs with
  | [] => Done rt
  | succ :: rest =>
      let rt0 := modify_task t (set_successor rest) rt in
      if succ =? NULL then Done rt0
      else
        r <- release_local_dep_counter succ rt0 ;;
        let '(runnable, rt1) := r in
        let rt2 :=
          if state_eqb (state (heap rt1 succ)) DART_TASK_CREATED && runnable
          then dart__tasking__enqueue_runnable succ rt1
          else rt1 in
        release_successors t rest rt2
  end.

Definition dart_tasking_datadeps_release_local_task (t : ptr) (rt : runtime)
  : outcome (dart_ret_t * runtime) :=
  let rt1 :=
    if negb (state_eqb (state (heap rt t)) DART_TASK_CANCELLED)
    then release_remote_dependencies t rt
    else rt in
  rt2 <- release_successors t (successor (heap rt1 t)) rt1 ;;
  Done (DART_OK, rt2).


(** ** Submission of a task *)

Definition dart_tasking_datadeps_handle_local_direct
           (dep : dart_task_dep_t) (t : ptr) (rt : runtime)
  : dart_ret_t * runtime :=
  let deptask := dep_task dep in
  if negb (deptask =? NULL) then
    if IS_ACTIVE_TASK rt deptask then
      let rt1 :=
        modify_task deptask
          (fun x => set_successor
                      (dart_tasking_tasklist_prepend (successor x) t) x) rt in
      (DART_OK,
       modify_task t
         (fun x => set_unresolved_deps (inc32 (unresolved_deps x)) x) rt1)
    else (DART_OK, rt)
  else (DART_OK, rt).

Section Submission.

(** Constants and functions of the DART interface used by
    [dart_tasking_datadeps_handle_task]. *)
Variable DART_PHASE_TASK : Z.
Variable DART_TEAM_ALL : Z.
Variable dart_team_unit_l2g : Z -> Z -> Z.
Variable dart_tasking_datadeps_localize_gptr : dart_gptr_t -> dart_gptr_t.

Definition with_phase (ph : Z) (d : dart_task_dep_t) : dart_task_dep_t :=
  mk_dep (dep_type d) (gptr d) (copyin_dest d) (copyin_gptr d) (dep_task d) ph.

Definition with_gptr (g : dart_gptr_t) (d : dart_task_dep_t) : dart_task_dep_t :=
  mk_dep (dep_type d) g (copyin_dest d) (copyin_gptr d) (dep_task d)
         (dep_phase d).

(** The body of the loop of [handle_task] for one dependency; the status
    codes of the handlers are dropped as in the source. *)
Definition handle_dep (t : ptr) (dep0 : dart_task_dep_t) (rt : runtime)
  : outcome runtime :=
  let myid := myguid rt in
  if deptype_eqb (dep_type dep0) DART_DEP_IGNORE then Done rt
  else
    let dep :=
      if dep_phase dep0 =? DART_PHASE_TASK
      then with_phase (phase (heap rt t)) dep0 else dep0 in
    let guid :=
      if negb (teamid (gptr dep) =? DART_TEAM_ALL)
      then dart_team_unit_l2g (teamid (gptr dep)) (unitid (gptr dep))
      else unitid (gptr dep) in
    if deptype_eqb (dep_type dep) DART_DEP_DIRECT then
      Done (snd (dart_tasking_datadeps_handle_local_direct dep t rt))
    else if deptype_eqb (dep_type dep) DART_DEP_COPYIN then
      r <- dart_tasking_datadeps_handle_copyin dep t rt ;; Done (snd r)
    else if negb (guid =? myid) then
      if state_eqb (state (heap rt (parent (heap rt t)))) DART_TASK_ROOT then
        let rt1 := dart_tasking_remote_datadep dep t rt in
        let unresolved := inc32 (unresolved_remote_deps (heap rt1 t)) in
        let rt2 := modify_task t (set_unresolved_remote_deps unresolved) rt1 in
        Done (if unresolved =? 1 then
                set_remote_blocked_tasks
                  (dart_tasking_tasklist_prepend (remote_blocked_tasks rt2) t)
                  rt2
              else rt2)
      else Done rt
    else
      let dep := with_gptr (dart_tasking_datadeps_localize_gptr (gptr dep)) dep in
      if deptype_eqb (dep_type dep) DART_DEP_DELAYED_IN then
        r <- dart_tasking_datadeps_match_delayed_local_datadep dep t rt ;;
        Done (snd r)
      else
        let rt1 := snd (dart_tasking_datadeps_match_local_datadep dep t rt) in
        r <- dephash_add_local dep t rt1 ;; Done (snd r).

Fixpoint handle_deps (t : ptr) (deps : list dart_task_dep_t) (rt : runtime)
  : outcome runtime :=
  match deps with
  | [] => Done rt
  | dep :: rest => rt1 <- handle_dep t dep rt ;; handle_deps t rest rt1
  end.

Definition dart_tasking_datadeps_handle_task
           (t : ptr) (deps : list dart_task_dep_t) (rt : runtime)
  : outcome (dart_ret_t * runtime) :=
  rt' <- handle_deps t deps rt ;; Done (DART_OK, rt').

End Submission.

(** ** Release of a remote predecessor *)

Section RemoteRelease.

(** [dart_tasking_tasklist_remove(&list, task)] of
    [dart_tasking_tasklist.h], which takes a task out of a task list. *)
Variable dart_tasking_tasklist_remove : list ptr -> ptr -> list ptr.

Definition release_remote_dep_counter (t : ptr) (rt : runtime)
  : outcome (bool * runtime) :=
  let num_remote_deps := dec32 (unresolved_remote_deps (heap rt t)) in
  let rt1 := modify_task t (set_unresolved_remote_deps num_remote_deps) rt in
  let num_local_deps := unresolved_deps (heap rt1 t) in
  _ <- DART_ASSERT ((0 <=? num_remote_deps) && (0 <=? num_local_deps)) ;;
  let rt2 :=
    if num_remote_deps =? 0 then
      set_remote_blocked_tasks
        (dart_tasking_tasklist_remove (remote_blocked_tasks rt1) t) rt1
    else rt1 in
  Done ((num_local_deps =? 0) && (num_remote_deps =? 0), rt2).

Definition dart_tasking_datadeps_release_remote_dep
           (local_task : ptr) (rt : runtime)
  : outcome (dart_ret_t * runtime) :=
  r <- release_remote_dep_counter local_task rt ;;
  let '(runnable, rt1) := r in
  Done (DART_OK,
        if runnable then dart__tasking__enqueue_runnable local_task rt1
        else rt1).

End RemoteRelease.

(** ** Cancellation *)

(** The [while] loop of [cancel_remote_deps] over the list that
    [remote_blocked_tasks] holds on entry; every pop stores the tail, and
    a [NULL] entry ends the loop like the empty list. *)
Fixpoint cancel_blocked (blocked : list ptr) (rt : runtime) : runtime :=
  match blocked with
  | [] => rt
  | t :: rest =>
      let rt0 := set_remote_blocked_tasks rest rt in
      if t =? NULL then rt0
      else
        let rt1 := modify_task t (set_unresolved_remote_deps 0) rt0 in
        let unresolved := unresolved_deps (heap rt1 t) in
        cancel_blocked rest
          (if unresolved =? 0 then dart__tasking__enqueue_runnable t rt1
           else rt1)
  end.

Definition dart_tasking_datadeps_cancel_remote_deps (rt : runtime)
  : dart_ret_t * runtime :=
  (DART_OK, cancel_blocked (remote_blocked_tasks rt) rt).

(** * Scenarios *)

(** Modelled from the spec: one reading of [IS_ACTIVE_TASK] for the
    concrete scenarios, after the task lifecycle: a task counts as
    active until it has finished or was cancelled. *)
Definition lifecycle_active (s : dart_task_state_t) : bool :=
  match s with
  | DART_TASK_FINISHED | DART_TASK_CANCELLED => false
  | _ => true
  end.

Definition blank_task (par : ptr) (ph : Z) (st : dart_task_state_t)
  : dart_task_t :=
  mk_task par ph st 0 0 [] [] None.

(** The root task at address [1] owning the table [tbl]. *)
Definition root_task (tbl : option (Z -> bucket)) : dart_task_t :=
  mk_task NULL 0 DART_TASK_ROOT 0 0 [] [] tbl.

(** A runtime of unit [0] whose current task is the root at address [1];
    [h] gives the other tasks. *)
Definition runtime_of (h : ptr -> dart_task_t) (pending : bucket) : runtime :=
  mk_runtime h [] pending [] 0 1 [] [].

Definition local_gptr (seg addr : Z) : dart_gptr_t := mk_gptr 0 0 seg 0 addr.

Definition gptr_dep (ty : dart_task_deptype_t) (g : dart_gptr_t) (ph : Z)
  : dart_task_dep_t :=
  mk_dep ty g 0 DART_GPTR_NULL NULL ph.

Fixpoint heap_of (l : list (ptr * dart_task_t)) (p : ptr) : dart_task_t :=
  match l with
  | [] => blank_task NULL 0 DART_TASK_FINISHED
  | (q, t) :: l' => if p =? q then t else heap_of l' p
  end.

(** A table whose only filled bucket is [b] at [slot]. *)
Definition buckets_of (slot : Z) (b : bucket) : Z -> bucket :=
  fun s => if s =? slot then b else [].

Definition table_of (slot : Z) (b : bucket) : option (Z -> bucket) :=
  Some (buckets_of slot b).

(** The location [X]: segment [0], address [64] of unit [0], hashed to
    slot [16]. *)
Definition X : dart_gptr_t := local_gptr 0 64.

(** A record of the local task [t]. *)
Definition local_rec (ty : dart_task_deptype_t) (g : dart_gptr_t) (ph : Z)
           (t : ptr) : dart_dephash_elem_t :=
  mk_elem (gptr_dep ty g ph) t 0.

(** An incoming request of unit [1]: its task [77] reads [X] in phase
    [ph]. *)
Definition incoming (ph : Z) : dart_dephash_elem_t :=
  mk_elem (gptr_dep DART_DEP_IN X ph) 77 1.

(** WAR, reversed: the local task [2] writes [X] in phase [2], the
    incoming read is of phase [1]. *)
Definition war_reversed : runtime :=
  runtime_of
    (heap_of [(1, root_task (table_of 16 [local_rec DART_DEP_OUT X 2 2]));
              (2, blank_task 1 2 DART_TASK_CREATED)])
    [incoming 1].


(** Task [2] is finishing; its successor [3] waits for one local and one
    remote predecessor. *)
Definition one_local_one_remote : runtime :=
  runtime_of
    (heap_of [(2, mk_task 1 0 DART_TASK_RUNNING 0 0 [3] [] None);
              (3, mk_task 1 0 DART_TASK_CREATED 1 1 [] [] None)])
    [].

(** Task [2] is finishing; its successor [3] waits for it alone. *)
Definition one_local : runtime :=
  runtime_of
    (heap_of [(2, mk_task 1 0 DART_TASK_RUNNING 0 0 [3] [] None);
              (3, mk_task 1 0 DART_TASK_CREATED 1 0 [] [] None)])
    [].

(** Task [4] reads [X]; task [5] has registered an input dependency on
    [X] after it and now registers an output dependency on [X]. *)
Definition read_then_write : runtime :=
  runtime_of
    (heap_of [(1, root_task (table_of 16 [local_rec DART_DEP_IN X 0 5;
                                          local_rec DART_DEP_IN X 0 4]));
              (4, blank_task 1 0 DART_TASK_CREATED);
              (5, blank_task 1 0 DART_TASK_CREATED)])
    [].

(** Task [4] has registered its read of [X]; task [5] is about to be
    submitted. *)
Definition reader_registered : runtime :=
  runtime_of
    (heap_of [(1, root_task (table_of 16 [local_rec DART_DEP_IN X 0 4]));
              (4, blank_task 1 0 DART_TASK_CREATED);
              (5, blank_task 1 0 DART_TASK_CREATED)])
    [].

(** RAW on one unit: task [2] has written [X] in phase [0], task [3] is
    about to read it. *)
Definition raw_same_unit : runtime :=
  runtime_of
    (heap_of [(1, root_task (table_of 16 [local_rec DART_DEP_OUT X 0 2]));
              (2, blank_task 1 0 DART_TASK_CREATED);
              (3, blank_task 1 0 DART_TASK_CREATED)])
    [].

(** Delayed input: [W1] (task [2]) writes [X] in phase [3], [W2] (task
    [3]) writes [X] in phase [5]; [R] (task [4]) is about to read [X] in
    phase [4]. *)
Definition delayed_in : runtime :=
  runtime_of
    (heap_of [(1, root_task (table_of 16 [local_rec DART_DEP_OUT X 5 3;
                                          local_rec DART_DEP_OUT X 3 2]));
              (2, blank_task 1 3 DART_TASK_CREATED);
              (3, blank_task 1 5 DART_TASK_CREATED);
              (4, blank_task 1 4 DART_TASK_CREATED)])
    [].

(** A cancelled task [7] that owns no hash table but still holds a
    remote successor and both counters at [1]. *)
Definition cancelled_leaf : runtime :=
  runtime_of
    (heap_of [(7, mk_task 1 0 DART_TASK_CANCELLED 1 1 [] [incoming 1] None)])
    [].

(** A copy-in of [Y] at unit [7] into the local buffer at [4096] in
    phase [3], and a copy-in module that fails to create the prefetch
    task. *)
Definition copyin_dep : dart_task_dep_t :=
  mk_dep DART_DEP_COPYIN DART_GPTR_NULL 4096 (mk_gptr 7 0 0 0 128) NULL 3.

Definition no_prefetch_task
           (dep : dart_task_dep_t) (dest : dart_gptr_t) (t : ptr)
           (rt : runtime) : runtime := rt.

Definition copyin_start : runtime :=
  runtime_of
    (heap_of [(1, root_task None); (5, blank_task 1 3 DART_TASK_CREATED)])
    [].

(** The root task [1] without a table and two tasks [2] and [3] of it
    that have registered nothing yet. *)
Definition two_fresh_tasks : runtime :=
  runtime_of
    (heap_of [(1, root_task None);
              (2, blank_task 1 0 DART_TASK_CREATED);
              (3, blank_task 1 0 DART_TASK_CREATED)])
    [].

(** The request of unit [1] comes in before the root task has a table. *)
Definition request_before_table : runtime :=
  runtime_of (heap_of [(1, root_task None)]) [incoming 1].

(** Task [3] has no local predecessor left and waits for one remote
    release. *)
Definition waiting_for_remote : runtime :=
  set_remote_blocked_tasks [3]
    (runtime_of
       (heap_of [(3, mk_task 1 0 DART_TASK_CREATED 0 1 [] [] None)]) []).

(** Modelled from the spec: one reading of [dart_tasking_tasklist_remove]
    for the concrete scenarios, the list without the task. *)
Definition tasklist_without (l : list ptr) (t : ptr) : list ptr :=
  filter (fun x => negb (x =? t)) l.

(** Task [6] is a child of the running task [2], not of the root. *)
Definition nested_task : runtime :=
  runtime_of
    (heap_of [(1, root_task None);
              (2, blank_task 1 0 DART_TASK_RUNNING);
              (6, blank_task 2 0 DART_TASK_CREATED)])
    [].

(** The location [X] of unit [1]. *)
Definition remote_X : dart_gptr_t := mk_gptr 1 0 0 0 64.

(** The prefetch task [9] of phase [3] has registered its output on the
    buffer at [4096], which is hashed to slot [1]; task [5] is about to
    register its copy-in. *)
Definition prefetch_registered : runtime :=
  runtime_of
    (heap_of [(1, root_task
                    (table_of 1 [local_rec DART_DEP_OUT (local_gptr 0 4096) 3 9]));
              (9, blank_task 1 3 DART_TASK_CREATED);
              (5, blank_task 1 3 DART_TASK_CREATED)])
    [].

(** As [prefetch_registered], with the record of an output of task [8]
    on the buffer in phase [2] in front of the record of the prefetch
    task. *)
Definition prefetch_behind_earlier_phase : runtime :=
  runtime_of
    (heap_of [(1, root_task
                    (table_of 1 [local_rec DART_DEP_OUT (local_gptr 0 4096) 2 8;
                                 local_rec DART_DEP_OUT (local_gptr 0 4096) 3 9]));
              (8, blank_task 1 2 DART_TASK_CREATED);
              (9, blank_task 1 3 DART_TASK_CREATED);
              (5, blank_task 1 3 DART_TASK_CREATED)])
    [].

(** Modelled from the spec: a copy-in module that creates the prefetch
    task [9] as a child of the root task [1] and registers its output on
    the destination in the phase of the dependency. *)
Definition prefetch_task_9
           (dep : dart_task_dep_t) (dest : dart_gptr_t) (t : ptr)
           (rt : runtime) : runtime :=
  modify_task 9 (fun _ => blank_task 1 (dep_phase dep) DART_TASK_CREATED)
    (modify_task 1
       (set_local_deps
          (table_of (hash_gptr dest)
             [mk_elem (mk_dep DART_DEP_OUT dest 0 DART_GPTR_NULL NULL
                              (dep_phase dep)) 9 (myguid rt)]))
       rt).

(** * Vocabulary of the statements *)

(** The pool invariant kept by [dephash_recycle_elem]: every free record
    has a [NULL] task reference. *)
Definition pool_zeroed (rt : runtime) : Prop :=
  Forall (fun e => task e = NULL) (freelist_head rt).

(** A record of a bucket that the scan of
    [dart_tasking_datadeps_handle_defered_remote] takes into account for
    the pending record [rdep]: an OUT or INOUT dependency on the address
    of [rdep], owned by a task. *)
Definition remote_match (rdep e : dart_dephash_elem_t) : bool :=
  negb (task e =? NULL)
  && IS_OUT_DEP (taskdep e)
  && DEP_ADDR_EQ (taskdep e) (taskdep rdep).

(** Such a record whose task is active and whose phase is strictly
    earlier than the phase of [rdep]. *)
Definition satisfies (rt : runtime) (rdep e : dart_dephash_elem_t) : bool :=
  remote_match rdep e
  && IS_ACTIVE_TASK rt (task e)
  && (dep_phase (taskdep e) <? dep_phase (taskdep rdep)).

(** Such a record whose task is no longer active. *)
Definition finished_match (rt : runtime) (rdep e : dart_dephash_elem_t) : bool :=
  remote_match rdep e && negb (IS_ACTIVE_TASK rt (task e)).

(** The scan ends at [e]. *)
Definition halts (rt : runtime) (rdep e : dart_dephash_elem_t) : bool :=
  satisfies rt rdep e || finished_match rt rdep e.

(** The scan goes past [e]. *)
Definition passed (rt : runtime) (rdep e : dart_dephash_elem_t) : bool :=
  negb (halts rt rdep e).



(** The bucket of the pending record. *)
Definition remote_bucket (table : option (Z -> bucket))
           (rdep : dart_dephash_elem_t) : bucket :=
  match table with
  | Some tbl => tbl (hash_gptr (gptr (taskdep rdep)))
  | None => []
  end.

(** The pending record [rdep] was answered by a release and recycled;
    [directs] are the messages sent before the release. *)
Definition released (rt rt' : runtime) (rdep : dart_dephash_elem_t)
           (directs : list message) : Prop :=
  sent rt' = sent rt ++ directs
                     ++ [Release (origin rdep) (task rdep) (taskdep rdep)]
  /\ freelist_head rt' = zero_elem :: freelist_head rt
  /\ forall p, remote_successor (heap rt' p) = remote_successor (heap rt p).

(** The pending record [rdep] was pushed onto the [remote_successor] list
    of the task [c] and of no other task, and no release was sent. *)
Definition attached (rt rt' : runtime) (rdep : dart_dephash_elem_t)
           (directs : list message) (c : ptr) : Prop :=
  remote_successor (heap rt' c) = rdep :: remote_successor (heap rt c)
  /\ (forall p, p <> c ->
                remote_successor (heap rt' p) = remote_successor (heap rt p))
  /\ sent rt' = sent rt ++ directs
  /\ freelist_head rt' = freelist_head rt.

(** The update of [direct_dep_candidate] at a record the scan goes past. *)
Definition remember_direct (rt : runtime) (rdep : dart_dephash_elem_t)
           (d : ptr) (e : dart_dephash_elem_t) : ptr :=
  if remote_match rdep e then
    if (d =? NULL) || (phase (heap rt d) >? dep_phase (taskdep e))
    then task e else d
  else d.

(** The direct-taskdep message for the candidate [d], if there is one. *)
Definition direct_messages (rdep : dart_dephash_elem_t) (d : ptr)
  : list message :=
  if d =? NULL then [] else [DirectTaskdep (origin rdep) d (task rdep)].

(** The walk of [match_local_datadep] for the dependency [dep] of the
    task [t] ends at [e]: a record on the same address that belongs to
    [t] itself or holds an OUT or INOUT dependency. *)
Definition local_stop (dep : dart_task_dep_t) (t : ptr)
           (e : dart_dephash_elem_t) : bool :=
  DEP_ADDR_EQ (taskdep e) dep && ((task e =? t) || IS_OUT_DEP (taskdep e)).

(** The condition under which [t] becomes a successor of the task of [E]
    in the runtime [rt]. *)
Definition local_edge (rt : runtime) (dep : dart_task_dep_t) (t : ptr)
           (E : dart_dephash_elem_t) : bool :=
  (IS_OUT_DEP dep
   || (deptype_eqb (dep_type dep) DART_DEP_IN && IS_OUT_DEP (taskdep E)))
  && IS_ACTIVE_TASK rt (task E)
  && negb (dart_tasking_tasklist_contains (successor (heap rt (task E))) t).

(** The edge itself: the counter of [t] goes up and [t] is prepended to
    the successors of [owner]. *)
Definition local_link (owner t : ptr) (rt : runtime) : runtime :=
  modify_task owner
    (fun x => set_successor (dart_tasking_tasklist_prepend (successor x) t) x)
    (modify_task t
       (fun x => set_unresolved_deps (inc32 (unresolved_deps x)) x) rt).

Definition local_visit (dep : dart_task_dep_t) (t : ptr)
           (E : dart_dephash_elem_t) (rt : runtime) : runtime :=
  if local_edge rt dep t E then local_link (task E) t rt else rt.

(** The upgrade of a record of the task itself. *)
Definition upgraded (dep : dart_task_dep_t) (e : dart_dephash_elem_t)
  : dart_dephash_elem_t :=
  if deptype_eqb (dep_type (taskdep e)) DART_DEP_IN && IS_OUT_DEP dep
  then mk_elem (mk_dep DART_DEP_INOUT (gptr (taskdep e))
                       (copyin_dest (taskdep e)) (copyin_gptr (taskdep e))
                       (dep_task (taskdep e)) (dep_phase (taskdep e)))
               (task e) (origin e)
  else e.

(** A writer that a delayed input dependency [dep] can be matched to: an
    OUT or INOUT record on the same address whose phase is not later. *)
Definition delayed_hit (dep : dart_task_dep_t) (e : dart_dephash_elem_t)
  : bool :=
  (dep_phase (taskdep e) <=? dep_phase dep)
  && DEP_ADDR_EQ (taskdep e) dep
  && IS_OUT_DEP (taskdep e).

(** A later writer on the same address. *)
Definition later_writer (dep : dart_task_dep_t) (e : dart_dephash_elem_t)
  : bool :=
  (dep_phase (taskdep e) >? dep_phase dep)
  && DEP_ADDR_EQ (taskdep e) dep
  && IS_OUT_DEP (taskdep e).

(** The next writer: the task of the last later writer among the records
    [before] the match, [NULL] without one. *)
Definition next_writer (dep : dart_task_dep_t) (before : bucket) : ptr :=
  fold_left (fun n e => if later_writer dep e then task e else n) before NULL.

(** The bucket walk of [handle_copyin] for [dep] of the task [t] finds no
    prefetch record in the runtime [rt]. *)
Definition prefetch_absent (dep : dart_task_dep_t) (t : ptr) (rt : runtime)
  : Prop :=
  match local_deps (heap rt (parent (heap rt t))) with
  | Some tbl =>
      copyin_scan dep (tbl (hash_gptr (copyin_dest_gptr dep rt))) = None
  | None => True
  end.

(** The global pointer [g] moved to the address [a]. *)
Definition with_addr (a : Z) (g : dart_gptr_t) : dart_gptr_t :=
  mk_gptr (unitid g) (flags g) (segid g) (teamid g) a.

(** The successor [S] can run once its last local predecessor is
    released: one unresolved local dependency, no unresolved remote
    dependency, state [CREATED]. *)
Definition last_local_dep (rt : runtime) (S : ptr) : bool :=
  (unresolved_deps (heap rt S) =? 1)
  && (unresolved_remote_deps (heap rt S) =? 0)
  && state_eqb (state (heap rt S)) DART_TASK_CREATED.

(** The runtime after the turn of the loop of [release_local_task] for
    the successor [S] in front of [rest]. *)
Definition after_turn (t S : ptr) (rest : list ptr) (rt : runtime) : runtime :=
  let rt1 :=
    modify_task S (set_unresolved_deps (dec32 (unresolved_deps (heap rt S))))
                (modify_task t (set_successor rest) rt) in
  if state_eqb (state (heap rt S)) DART_TASK_CREATED
     && ((dec32 (unresolved_deps (heap rt S)) =? 0)
         && (unresolved_remote_deps (heap rt S) =? 0))
  then dart__tasking__enqueue_runnable S rt1 else rt1.


(** The bucket [s] of a table, empty for a table that is not allocated. *)
Definition bucket_at (table : option (Z -> bucket)) (s : Z) : bucket :=
  match table with
  | Some tbl => tbl s
  | None => []
  end.

(** The input dependency on the destination buffer that [handle_copyin]
    registers for a consumer of a prefetch. *)
Definition copyin_in_dep (dep : dart_task_dep_t) (rt : runtime)
  : dart_task_dep_t :=
  mk_dep DART_DEP_IN (copyin_dest_gptr dep rt) 0 DART_GPTR_NULL NULL
         (dep_phase dep).

(** The dependency as [handle_task] works on it: [DART_PHASE_TASK]
    stands for the phase of the task. *)
Definition in_task_phase (phase_task : Z) (rt : runtime) (t : ptr)
           (dep : dart_task_dep_t) : dart_task_dep_t :=
  if dep_phase dep =? phase_task
  then mk_dep (dep_type dep) (gptr dep) (copyin_dest dep) (copyin_gptr dep)
              (dep_task dep) (phase (heap rt t))
  else dep.

(** The global unit that the dependency refers to. *)
Definition dep_unit (team_all : Z) (l2g : Z -> Z -> Z)
           (dep : dart_task_dep_t) : Z :=
  if negb (teamid (gptr dep) =? team_all)
  then l2g (teamid (gptr dep)) (unitid (gptr dep))
  else unitid (gptr dep).

(** The order of a bucket that the scan of the deferred handling relies
    on when it stops at a record of a finished task ("if we got here
    without finding a candidate that is still active we will not find
    one"): behind an OUT or INOUT record on the address of [rdep] whose
    task is no longer active, no such record belongs to an active task.
    A writer that is registered while an earlier writer of the address
    is active becomes a successor of that writer in the local matcher,
    and its record is put in front. *)
Fixpoint finished_behind (rt : runtime) (rdep : dart_dephash_elem_t)
         (b : bucket) : bool :=
  match b with
  | [] => true
  | f :: rest =>
      (negb (finished_match rt rdep f)
       || forallb (fun e => negb (remote_match rdep e
                                  && IS_ACTIVE_TASK rt (task e))) rest)
      && finished_behind rt rdep rest
  end.


(** The records of a bucket in front of the first one that satisfies
    [rdep]; the whole bucket without one. *)
Fixpoint in_front_of_satisfier (rt : runtime) (rdep : dart_dephash_elem_t)
         (b : bucket) : bucket :=
  match b with
  | [] => []
  | e :: rest =>
      if satisfies rt rdep e then []
      else e :: in_front_of_satisfier rt rdep rest
  end.

(** An OUT or INOUT record on the address of [rdep] whose task is active
    and whose phase is not earlier than the phase of [rdep]. *)
Definition later_active_writer (rt : runtime) (rdep e : dart_dephash_elem_t)
  : bool :=
  remote_match rdep e
  && IS_ACTIVE_TASK rt (task e)
  && (dep_phase (taskdep rdep) <=? dep_phase (taskdep e)).







(** * Properties *)

(** Case analysis on the pointer comparisons of a goal. *)
Ltac pointer_cases :=
  repeat match goal with
         | |- context [?p =? ?q] => destruct (Z.eqb_spec p q); subst
         end;
  try reflexivity; try contradiction; try congruence;
  try (cbn; congruence).

Lemma heap_modify_task p f rt q :
  heap (modify_task p f rt) q = if q =? p then f (heap rt p) else heap rt q.
Proof. reflexivity. Qed.

(** The same over the nested updates of a task memory. *)
Ltac heap_cases :=
  repeat first
    [ rewrite heap_modify_task
    | match goal with
      | |- context [?p =? ?q] => destruct (Z.eqb_spec p q)
      end ];
  try reflexivity; try contradiction; try congruence;
  try (cbn; congruence).

Lemma heap_modify_same p f rt : heap (modify_task p f rt) p = f (heap rt p).
Proof. rewrite heap_modify_task, Z.eqb_refl. reflexivity. Qed.

Lemma heap_modify_other p f rt q :
  q <> p -> heap (modify_task p f rt) q = heap rt q.
Proof.
  intros H. rewrite heap_modify_task.
  destruct (Z.eqb_spec q p); [contradiction | reflexivity].
Qed.

Lemma inc32_in_range z :
  - 2 ^ 31 <= z < 2 ^ 31 - 1 -> inc32 z = z + 1.
Proof.
  intros H. unfold inc32, int32_wrap.
  rewrite Z.mod_small by lia. lia.
Qed.

Lemma dec32_in_range z :
  - 2 ^ 31 < z < 2 ^ 31 -> dec32 z = z - 1.
Proof.
  intros H. unfold dec32, int32_wrap.
  rewrite Z.mod_small by lia. lia.
Qed.

(** ** Reset *)

Lemma free_dephash_list_heap l rt : heap (free_dephash_list l rt) = heap rt.
Proof.
  unfold free_dephash_list. revert rt.
  induction l as [|e l IH]; intros rt; simpl; [reflexivity|].
  rewrite IH. reflexivity.
Qed.

Lemma free_dephash_list_freelist l rt :
  freelist_head (free_dephash_list l rt)
  = repeat zero_elem (length l) ++ freelist_head rt.
Proof.
  unfold free_dephash_list. revert rt.
  induction l as [|e l IH]; intros rt; simpl; [reflexivity|].
  rewrite IH. simpl.
  change (zero_elem :: freelist_head rt) with ([zero_elem] ++ freelist_head rt).
  rewrite app_assoc. f_equal.
  clear. induction (length l); simpl; [reflexivity | f_equal; assumption].
Qed.

Lemma free_buckets_heap (tbl : Z -> bucket) l rt :
  heap (fold_left (fun rt i => free_dephash_list (tbl i) rt) l rt) = heap rt.
Proof.
  revert rt. induction l as [|i l IH]; intros rt; simpl; [reflexivity|].
  rewrite IH. apply free_dephash_list_heap.
Qed.

Lemma free_buckets_freelist (tbl : Z -> bucket) l rt :
  length (freelist_head
            (fold_left (fun rt i => free_dephash_list (tbl i) rt) l rt))
  = (list_sum (map (fun i => length (tbl i)) l)
     + length (freelist_head rt))%nat.
Proof.
  revert rt. induction l as [|i l IH]; intros rt; cbn [fold_left map list_sum];
    [reflexivity|].
  rewrite IH, free_dephash_list_freelist, length_app, repeat_length.
  unfold list_sum. cbn [fold_right]. lia.
Qed.

(** C9, as the code has it.  [dart_tasking_datadeps_reset] always
    returns [DART_OK].  For a task that owns a hash table, every record of
    the table and of [remote_successor] is recycled to the element pool,
    the table and [remote_successor] are empty afterwards and both
    counters are zero.  For [NULL] and for a task without a table the
    call returns at once and changes nothing. *)
Theorem reset_drops_records_of_table_owner t rt :
  let rt' := snd (dart_tasking_datadeps_reset t rt) in
  fst (dart_tasking_datadeps_reset t rt) = DART_OK
  /\ (forall tbl,
         t <> NULL ->
         local_deps (heap rt t) = Some tbl ->
         local_deps (heap rt' t) = None
         /\ remote_successor (heap rt' t) = []
         /\ unresolved_deps (heap rt' t) = 0
         /\ unresolved_remote_deps (heap rt' t) = 0
         /\ length (freelist_head rt')
            = (list_sum (map (fun i => length (tbl i)) slots)
               + length (remote_successor (heap rt t))
               + length (freelist_head rt))%nat)
  /\ (t = NULL \/ local_deps (heap rt t) = None -> rt' = rt).
Proof.
  cbn zeta. unfold dart_tasking_datadeps_reset.
  destruct (Z.eqb_spec t NULL) as [Hn|Hn].
  { cbn [fst snd]. split; [reflexivity|]. split; [|reflexivity].
    intros tbl H. contradiction. }
  destruct (local_deps (heap rt t)) as [tbl|] eqn:Htbl; cbn [fst snd].
  2:{ split; [reflexivity|]. split; [|reflexivity]. intros tbl _ H.
      discriminate. }
  split; [reflexivity|]. split.
  - intros tbl' _ Heq. injection Heq as <-.
    repeat split; rewrite ?heap_modify_same; cbn;
      rewrite ?free_dephash_list_heap, ?heap_modify_same; try reflexivity.
    rewrite free_dephash_list_freelist, length_app, repeat_length.
    cbn [freelist_head modify_task set_heap].
    rewrite free_buckets_freelist, free_buckets_heap. unfold list_sum.
    generalize (fold_right Init.Nat.add 0%nat
                  (map (fun i => length (tbl i))
                       (map Z.of_nat (seq 0 (Pos.to_nat 1023))))).
    intros n. lia.
  - intros [H|H]; [contradiction | discriminate].
Qed.

(** ** Element pool *)

Lemma dephash_allocate_elem_ok dep tr org rt :
  tr <> NULL ->
  pool_zeroed rt ->
  dephash_allocate_elem dep tr org rt
  = Done (mk_elem dep tr org, set_freelist_head (tl (freelist_head rt)) rt).
Proof.
  intros Htr Hpool. unfold dephash_allocate_elem, pool_zeroed in *.
  destruct (Z.eqb_spec tr NULL) as [|_]; [contradiction|].
  destruct (freelist_head rt) as [|e l] eqn:Hfl; cbn.
  - rewrite <- Hfl. destruct rt; reflexivity.
  - inversion Hpool as [|? ? He _]; subst. rewrite He. reflexivity.
Qed.

(** ** Direct dependencies from remote tasks *)

(** C10. A call of [dart_tasking_datadeps_handle_remote_direct] with a
    remote task reference returns [DART_OK] after exactly one of two
    actions, chosen by whether [local_task] is active: a [DIRECT] record
    naming [remote_task] and [origin] is pushed onto
    [local_task->remote_successor] and nothing is sent, or a release for
    [remote_task] is sent to [origin] and no [remote_successor] list
    changes. *)
Theorem handle_remote_direct_outcome local_task remote_task org uninit rt :
  remote_task <> NULL ->
  pool_zeroed rt ->
  exists rt',
    dart_tasking_datadeps_handle_remote_direct
      local_task remote_task org uninit rt = Done (DART_OK, rt')
    /\ ((IS_ACTIVE_TASK rt local_task = true
         /\ (exists rs,
                dep_type (taskdep rs) = DART_DEP_DIRECT
                /\ task rs = remote_task /\ origin rs = org
                /\ remote_successor (heap rt' local_task)
                   = rs :: remote_successor (heap rt local_task))
         /\ (forall p, p <> local_task ->
                       remote_successor (heap rt' p)
                       = remote_successor (heap rt p))
         /\ sent rt' = sent rt)
        \/
        (IS_ACTIVE_TASK rt local_task = false
         /\ (exists dep,
                dep_type dep = DART_DEP_DIRECT
                /\ sent rt' = sent rt ++ [Release org remote_task dep])
         /\ (forall p, remote_successor (heap rt' p)
                       = remote_successor (heap rt p)))).
Proof.
  intros Hrem Hpool. unfold dart_tasking_datadeps_handle_remote_direct.
  destruct (IS_ACTIVE_TASK rt local_task) eqn:Hact.
  - rewrite dephash_allocate_elem_ok by assumption. cbn.
    eexists. split; [reflexivity|]. left. split; [reflexivity|].
    split; [|split].
    + rewrite heap_modify_same. cbn.
      eexists (mk_elem _ _ _). cbn. repeat split; reflexivity.
    + intros p Hp. rewrite heap_modify_other by assumption. reflexivity.
    + reflexivity.
  - cbn. eexists. split; [reflexivity|]. right. split; [reflexivity|].
    split.
    + eexists. split; [|reflexivity]. reflexivity.
    + intros p. reflexivity.
Qed.

(** ** Release of local successors *)

Lemma state_eqb_eq a b : state_eqb a b = true <-> a = b.
Proof. destruct a, b; simpl; split; intros H; congruence. Qed.

Lemma release_remote_dependencies_heap t rt p :
  heap (release_remote_dependencies t rt) p
  = if p =? t then set_remote_successor [] (heap rt t) else heap rt p.
Proof.
  unfold release_remote_dependencies. rewrite heap_modify_task.
  assert (H : forall l rt0,
             heap (fold_left
                     (fun rt tmp =>
                        dephash_recycle_elem tmp
                          (dart_tasking_remote_release
                             (origin tmp) (task tmp) (taskdep tmp) rt))
                     l rt0) = heap rt0).
  { induction l as [|e l IH]; intros rt0; cbn [fold_left];
      [reflexivity | rewrite IH; reflexivity]. }
  rewrite H. reflexivity.
Qed.

(** [dart_tasking_datadeps_release_local_task] runs the loop over the
    successors the task has on entry; the release of the remote
    successors before it touches no counter, state or successor list. *)
Lemma release_local_task_loop t rt :
  let rt1 :=
    if negb (state_eqb (state (heap rt t)) DART_TASK_CANCELLED)
    then release_remote_dependencies t rt else rt in
  dart_tasking_datadeps_release_local_task t rt
  = (rt2 <- release_successors t (successor (heap rt t)) rt1 ;;
     Done (DART_OK, rt2))
  /\ forall p,
      unresolved_deps (heap rt1 p) = unresolved_deps (heap rt p)
      /\ unresolved_remote_deps (heap rt1 p) = unresolved_remote_deps (heap rt p)
      /\ state (heap rt1 p) = state (heap rt p)
      /\ successor (heap rt1 p) = successor (heap rt p).
Proof.
  intros rt1.
  assert (H : forall p,
             unresolved_deps (heap rt1 p) = unresolved_deps (heap rt p)
             /\ unresolved_remote_deps (heap rt1 p)
                = unresolved_remote_deps (heap rt p)
             /\ state (heap rt1 p) = state (heap rt p)
             /\ successor (heap rt1 p) = successor (heap rt p)).
  { intros p. unfold rt1.
    destruct (negb (state_eqb (state (heap rt t)) DART_TASK_CANCELLED));
      [|repeat split].
    rewrite release_remote_dependencies_heap.
    destruct (Z.eqb_spec p t) as [->|]; repeat split. }
  split; [|exact H].
  unfold dart_tasking_datadeps_release_local_task. fold rt1.
  destruct (H t) as (_ & _ & _ & Hs). rewrite Hs. reflexivity.
Qed.

(** C5, as the code has it.  One turn of the loop of
    [dart_tasking_datadeps_release_local_task] pops the successor [S],
    stores the decremented [unresolved_deps], reads
    [unresolved_remote_deps] without changing it, and enqueues [S]
    exactly when the decremented local counter and the remote counter
    are both zero and [S] is in state [CREATED]; otherwise [S] is
    skipped. *)
Theorem release_successor_turn t S rest rt :
  S <> NULL ->
  0 <= dec32 (unresolved_deps (heap rt S)) ->
  0 <= unresolved_remote_deps (heap rt S) ->
  exists rt2,
    release_successors t (S :: rest) rt = release_successors t rest rt2
    /\ successor (heap rt2 t) = rest
    /\ unresolved_deps (heap rt2 S) = dec32 (unresolved_deps (heap rt S))
    /\ unresolved_remote_deps (heap rt2 S) = unresolved_remote_deps (heap rt S)
    /\ (dec32 (unresolved_deps (heap rt S)) = 0
        /\ unresolved_remote_deps (heap rt S) = 0
        /\ state (heap rt S) = DART_TASK_CREATED ->
        runq rt2 = runq rt ++ [S])
    /\ (~ (dec32 (unresolved_deps (heap rt S)) = 0
           /\ unresolved_remote_deps (heap rt S) = 0
           /\ state (heap rt S) = DART_TASK_CREATED) ->
        runq rt2 = runq rt).
Proof.
  intros HS Hn Hr.
  set (n := dec32 (unresolved_deps (heap rt S))) in *.
  set (r := unresolved_remote_deps (heap rt S)) in *.
  set (rt0 := modify_task t (set_successor rest) rt).
  set (rt1 := modify_task S (set_unresolved_deps n) rt0).
  set (b := state_eqb (state (heap rt S)) DART_TASK_CREATED
            && ((n =? 0) && (r =? 0))).
  assert (H0 : forall (A : Type) (f : dart_task_t -> A),
             (forall v x, f (set_successor v x) = f x) ->
             f (heap rt0 S) = f (heap rt S)).
  { intros A f Hf. unfold rt0. rewrite heap_modify_task.
    destruct (Z.eqb_spec S t) as [->|]; [apply Hf | reflexivity]. }
  assert (Hd : unresolved_deps (heap rt0 S) = unresolved_deps (heap rt S))
    by (apply H0; reflexivity).
  assert (Hq : unresolved_remote_deps (heap rt0 S) = r)
    by (apply (H0 _ unresolved_remote_deps); reflexivity).
  assert (Hs : state (heap rt0 S) = state (heap rt S))
    by (apply (H0 _ state); reflexivity).
  exists (if b then dart__tasking__enqueue_runnable S rt1 else rt1).
  split.
  { cbn [release_successors].
    destruct (Z.eqb_spec S NULL) as [|_]; [contradiction|].
    fold rt0. unfold release_local_dep_counter. rewrite Hd. fold n. fold rt1.
    replace (unresolved_remote_deps (heap rt1 S)) with r
      by (unfold rt1; rewrite heap_modify_same; symmetry; exact Hq).
    replace (0 <=? r) with true by (symmetry; apply Z.leb_le; assumption).
    replace (0 <=? n) with true by (symmetry; apply Z.leb_le; assumption).
    cbn [andb DART_ASSERT bind].
    replace (state (heap rt1 S)) with (state (heap rt S))
      by (unfold rt1; rewrite heap_modify_same; symmetry; exact Hs).
    reflexivity. }
  assert (Hh : heap (if b then dart__tasking__enqueue_runnable S rt1 else rt1)
               = heap rt1) by (destruct b; reflexivity).
  rewrite Hh.
  split.
  { unfold rt1. rewrite heap_modify_task.
    destruct (Z.eqb_spec t S) as [->|Hne]; unfold rt0;
      rewrite heap_modify_same; reflexivity. }
  split; [unfold rt1; rewrite heap_modify_same; reflexivity|].
  split; [unfold rt1; rewrite heap_modify_same; exact Hq|].
  assert (Hb : b = true <-> n = 0 /\ r = 0 /\ state (heap rt S) = DART_TASK_CREATED).
  { unfold b. rewrite !andb_true_iff, state_eqb_eq, !Z.eqb_eq. tauto. }
  split; intros H.
  - apply Hb in H. rewrite H. reflexivity.
  - destruct b; [exfalso; apply H, Hb; reflexivity | reflexivity].
Qed.


(** ** Deferred remote dependencies: the scan *)

Lemma remote_scan_passed rt rdep e rest d :
  passed rt rdep e = true ->
  remote_scan rt rdep (e :: rest) d
  = remote_scan rt rdep rest (remember_direct rt rdep d e).
Proof.
  unfold passed, halts, satisfies, finished_match, remember_direct,
    remote_match.
  intros H. cbn [remote_scan].
  destruct (negb (task e =? NULL) && IS_OUT_DEP (taskdep e)
            && DEP_ADDR_EQ (taskdep e) (taskdep rdep)) eqn:Hm;
    [|reflexivity].
  destruct (IS_ACTIVE_TASK rt (task e)); cbn [andb orb negb] in H;
    [|discriminate].
  cbn [negb].
  destruct (dep_phase (taskdep e) <? dep_phase (taskdep rdep)) eqn:Hlt;
    [discriminate|].
  apply Z.ltb_ge in Hlt.
  replace (dep_phase (taskdep e) >=? dep_phase (taskdep rdep)) with true
    by (symmetry; apply Z.geb_le; exact Hlt).
  reflexivity.
Qed.

Lemma remote_scan_satisfier rt rdep e rest d :
  satisfies rt rdep e = true ->
  remote_scan rt rdep (e :: rest) d = (task e, d).
Proof.
  unfold satisfies, remote_match. intros H.
  apply andb_true_iff in H as [H Hlt]. apply andb_true_iff in H as [Hm Ha].
  cbn [remote_scan]. rewrite Hm, Ha, Hlt. reflexivity.
Qed.

Lemma remote_scan_finished rt rdep e rest d :
  finished_match rt rdep e = true ->
  remote_scan rt rdep (e :: rest) d = (NULL, d).
Proof.
  unfold finished_match, remote_match. intros H.
  apply andb_true_iff in H as [Hm Ha].
  cbn [remote_scan]. rewrite Hm, Ha. reflexivity.
Qed.

Lemma remote_scan_prefix rt rdep before rest d :
  forallb (passed rt rdep) before = true ->
  remote_scan rt rdep (before ++ rest) d
  = remote_scan rt rdep rest (fold_left (remember_direct rt rdep) before d).
Proof.
  revert d. induction before as [|e l IH]; intros d H; [reflexivity|].
  cbn [forallb] in H. apply andb_true_iff in H as [He Hl].
  cbn [app fold_left]. rewrite remote_scan_passed by assumption.
  apply IH, Hl.
Qed.

Lemma satisfies_task_not_null rt rdep e :
  satisfies rt rdep e = true -> task e <> NULL.
Proof.
  unfold satisfies, remote_match. intros H.
  repeat (apply andb_true_iff in H as [H _]).
  apply negb_true_iff, Z.eqb_neq in H. exact H.
Qed.



(** ** Deferred remote dependencies: one pending record *)

(** What the body of the [while] loop does once the scan has returned
    the satisfier [c] and the direct-dependency candidate [d]. *)
Lemma handle_remote_dep_answer table rdep rt :
  let c := fst (remote_scan rt rdep (remote_bucket table rdep) NULL) in
  let d := snd (remote_scan rt rdep (remote_bucket table rdep) NULL) in
  let rt' := handle_remote_dep table rdep rt in
  (c = NULL /\ released rt rt' rdep (direct_messages rdep d))
  \/ (c <> NULL /\ attached rt rt' rdep (direct_messages rdep d) c).
Proof.
  intros c d rt'.
  assert (Hscan : match table with
                  | Some tbl =>
                      remote_scan rt rdep
                        (tbl (hash_gptr (gptr (taskdep rdep)))) NULL
                  | None => (NULL, NULL)
                  end = (c, d)).
  { unfold c, d, remote_bucket. destruct table as [tbl|].
    - destruct (remote_scan rt rdep _ NULL); reflexivity.
    - reflexivity. }
  unfold rt', handle_remote_dep. rewrite Hscan. clear Hscan.
  unfold direct_messages, released, attached.
  generalize c d. clear c d rt'. intros c d.
  destruct (Z.eqb_spec c NULL) as [Hc|Hc]; [left | right];
    (split; [assumption|]);
    destruct (Z.eqb_spec d NULL) as [Hd|Hd]; cbn [negb].
  - repeat split.
  - destruct (unresolved_remote_deps _ =? 0); repeat split;
      cbn; try (rewrite <- app_assoc; reflexivity);
      intros p; pointer_cases.
  - repeat split; try (rewrite heap_modify_same; reflexivity);
      try (cbn; rewrite app_nil_r; reflexivity).
    intros p Hp. rewrite heap_modify_other by assumption. reflexivity.
  - destruct (unresolved_remote_deps _ =? 0); repeat split; cbn;
      rewrite ?Z.eqb_refl; try reflexivity; try intros p Hp; pointer_cases.
Qed.


Lemma halts_cases rt rdep e :
  halts rt rdep e = true ->
  (satisfies rt rdep e = true /\ finished_match rt rdep e = false)
  \/ (satisfies rt rdep e = false /\ finished_match rt rdep e = true).
Proof.
  unfold halts, satisfies, finished_match.
  destruct (remote_match rdep e), (IS_ACTIVE_TASK rt (task e)),
    (dep_phase (taskdep e) <? dep_phase (taskdep rdep));
    cbn; intros H; try discriminate; auto.
Qed.

(** The satisfier named by the scan, read off the first record at which
    the scan ends. *)
Lemma remote_scan_first_halt rt rdep b d :
  fst (remote_scan rt rdep b d)
  = match find (halts rt rdep) b with
    | Some e => if satisfies rt rdep e then task e else NULL
    | None => NULL
    end.
Proof.
  revert d. induction b as [|e b IH]; intros d; [reflexivity|].
  cbn [find]. destruct (halts rt rdep e) eqn:Hh.
  - destruct (halts_cases _ _ _ Hh) as [[Hs Hf]|[Hs Hf]]; rewrite Hs.
    + rewrite remote_scan_satisfier by assumption. reflexivity.
    + rewrite remote_scan_finished by assumption. reflexivity.
  - rewrite remote_scan_passed by (unfold passed; rewrite Hh; reflexivity).
    apply IH.
Qed.






(** ** Deferred remote dependencies: the claims *)

Lemma released_not_attached rt rt' rdep directs c :
  released rt rt' rdep directs -> ~ attached rt rt' rdep directs c.
Proof.
  intros (Hs & _) (_ & _ & Hs' & _). rewrite Hs in Hs'.
  apply (f_equal (@length message)) in Hs'.
  rewrite !length_app in Hs'. cbn in Hs'. lia.
Qed.

(** C1, as the code has it.  Every record [rdep] pending in
    [unhandled_remote_deps] when
    [dart_tasking_datadeps_handle_defered_remote] runs gets exactly one
    of two answers in its turn of the loop: when the scan of its bucket
    has named no satisfier, a release is sent to its origin and the
    record is recycled; otherwise the record is pushed onto the
    [remote_successor] list of the satisfier and of no other task, and
    no release is sent.  Ahead of either answer a direct-taskdep for the
    direct-dependency candidate [d] of the scan is sent to the origin
    exactly when the scan has remembered one; these are all the messages
    of the turn. *)
Theorem deferred_remote_answers_each rt before rdep behind :
  unhandled_remote_deps rt = before ++ rdep :: behind ->
  let table := local_deps (heap rt (current_task rt)) in
  let turn := fun rt r => handle_remote_dep table r rt in
  let rt_b := fold_left turn before rt in
  let rt_a := handle_remote_dep table rdep rt_b in
  let c := fst (remote_scan rt_b rdep (remote_bucket table rdep) NULL) in
  let d := snd (remote_scan rt_b rdep (remote_bucket table rdep) NULL) in
  let directs := direct_messages rdep d in
  dart_tasking_datadeps_handle_defered_remote rt
  = (DART_OK, set_unhandled_remote_deps [] (fold_left turn behind rt_a))
  /\ (d = NULL -> directs = [])
  /\ (d <> NULL -> directs = [DirectTaskdep (origin rdep) d (task rdep)])
  /\ (c = NULL -> released rt_b rt_a rdep directs)
  /\ (c <> NULL -> attached rt_b rt_a rdep directs c)
  /\ ~ (released rt_b rt_a rdep directs
        /\ exists c', attached rt_b rt_a rdep directs c').
Proof.
  intros Hpending table turn rt_b rt_a c d directs.
  split; [|split; [|split; [|split; [|split]]]].
  - unfold dart_tasking_datadeps_handle_defered_remote.
    rewrite Hpending, fold_left_app. reflexivity.
  - intros Hd. unfold directs, direct_messages. rewrite Hd. reflexivity.
  - intros Hd. unfold directs, direct_messages.
    destruct (Z.eqb_spec d NULL) as [|_]; [contradiction | reflexivity].
  - intros Hc.
    destruct (handle_remote_dep_answer table rdep rt_b) as [[_ H]|[Hn _]];
      [exact H | contradiction].
  - intros Hc.
    destruct (handle_remote_dep_answer table rdep rt_b) as [[Hn _]|[_ H]];
      [contradiction | exact H].
  - intros [Hr [c' Ha]]. exact (released_not_attached _ _ _ _ _ Hr Ha).
Qed.











(** ** Local matcher *)

Lemma match_local_loop_other_address dep t e rest rt :
  DEP_ADDR_EQ (taskdep e) dep = false ->
  match_local_loop dep t (e :: rest) rt
  = (e :: fst (match_local_loop dep t rest rt),
     snd (match_local_loop dep t rest rt)).
Proof.
  intros H. cbn [match_local_loop]. rewrite H.
  destruct (match_local_loop dep t rest rt). reflexivity.
Qed.

Lemma match_local_loop_self dep t e rest rt :
  DEP_ADDR_EQ (taskdep e) dep = true ->
  task e = t ->
  match_local_loop dep t (e :: rest) rt = (upgraded dep e :: rest, rt).
Proof.
  intros H Ht. cbn [match_local_loop]. rewrite H.
  destruct (Z.eqb_spec (task e) t); [reflexivity | contradiction].
Qed.

Lemma match_local_loop_other dep t e rest rt :
  DEP_ADDR_EQ (taskdep e) dep = true ->
  task e <> t ->
  match_local_loop dep t (e :: rest) rt
  = if IS_OUT_DEP (taskdep e) then (e :: rest, local_visit dep t e rt)
    else (e :: fst (match_local_loop dep t rest (local_visit dep t e rt)),
          snd (match_local_loop dep t rest (local_visit dep t e rt))).
Proof.
  intros H Ht. cbn [match_local_loop]. rewrite H.
  destruct (Z.eqb_spec (task e) t) as [|_]; [contradiction|].
  assert (Hv : local_visit dep t e rt
               = if IS_OUT_DEP dep
                    || (deptype_eqb (dep_type dep) DART_DEP_IN
                        && IS_OUT_DEP (taskdep e)) then
                   if IS_ACTIVE_TASK rt (task e) then
                     if dart_tasking_tasklist_contains
                          (successor (heap rt (task e))) t
                     then rt
                     else local_link (task e) t rt
                   else rt
                 else rt).
  { unfold local_visit, local_edge.
    destruct (IS_OUT_DEP dep
              || (deptype_eqb (dep_type dep) DART_DEP_IN
                  && IS_OUT_DEP (taskdep e)));
      destruct (IS_ACTIVE_TASK rt (task e));
      destruct (dart_tasking_tasklist_contains _ t); reflexivity. }
  unfold local_link in Hv. rewrite <- Hv.
  destruct (IS_OUT_DEP (taskdep e)); [reflexivity|].
  destruct (match_local_loop dep t rest (local_visit dep t e rt)).
  reflexivity.
Qed.

(** Up to the record at which the walk ends, the loop only passes
    records on and leaves them as they are. *)
Lemma match_local_loop_prefix dep t before rest rt :
  (forall e, In e before -> local_stop dep t e = false) ->
  fst (match_local_loop dep t before rt) = before
  /\ match_local_loop dep t (before ++ rest) rt
     = (before
        ++ fst (match_local_loop dep t rest
                  (snd (match_local_loop dep t before rt))),
        snd (match_local_loop dep t rest
               (snd (match_local_loop dep t before rt)))).
Proof.
  revert rt. induction before as [|e l IH]; intros rt H.
  - cbn. split; [reflexivity|].
    destruct (match_local_loop dep t rest rt); reflexivity.
  - assert (He := H e (or_introl eq_refl)).
    assert (Hl : forall x, In x l -> local_stop dep t x = false)
      by (intros x Hx; apply H; right; exact Hx).
    unfold local_stop in He. cbn [app].
    destruct (DEP_ADDR_EQ (taskdep e) dep) eqn:Ha.
    + cbn [andb] in He. apply orb_false_iff in He as [Hself Hout].
      apply Z.eqb_neq in Hself.
      rewrite !match_local_loop_other by assumption. rewrite Hout.
      cbn [fst snd]. destruct (IH (local_visit dep t e rt) Hl) as [IH1 IH2].
      rewrite IH1, IH2. cbn [fst snd]. split; reflexivity.
    + rewrite !match_local_loop_other_address by assumption.
      cbn [fst snd]. destruct (IH rt Hl) as [IH1 IH2].
      rewrite IH1, IH2. cbn [fst snd]. split; reflexivity.
Qed.

Lemma local_link_effect owner t rt :
  owner <> t ->
  unresolved_deps (heap (local_link owner t rt) t)
  = inc32 (unresolved_deps (heap rt t))
  /\ successor (heap (local_link owner t rt) owner)
     = t :: successor (heap rt owner).
Proof.
  intros H. unfold local_link. split.
  - rewrite heap_modify_other by congruence. rewrite heap_modify_same.
    reflexivity.
  - rewrite heap_modify_same. cbv beta.
    unfold dart_tasking_tasklist_prepend. cbn [successor set_successor].
    rewrite heap_modify_other by assumption. reflexivity.
Qed.

(** C6, as the code has it.  The walk of [match_local_datadep] for the
    dependency [dep] of the new task [t] goes from the head of the bucket
    to the first record on the same address that either belongs to [t]
    itself or holds an OUT or INOUT dependency.  A record of [t] itself
    ends the walk with at most an upgrade of that record.  At every
    other record [E] on the same address that the walk reaches, if [dep]
    is an output or ([dep] is an input and [E] is an output), the task of
    [E] is active and [t] is not yet among its successors, then
    [unresolved_deps] of [t] is incremented and [t] is prepended to the
    successors of the task of [E]; otherwise nothing changes at [E].
    When [E] is an output the walk ends there, otherwise it goes on
    behind [E]. *)
Theorem match_local_walk dep t before E behind rt :
  (forall e, In e before -> local_stop dep t e = false) ->
  DEP_ADDR_EQ (taskdep E) dep = true ->
  let at_E := snd (match_local_loop dep t before rt) in
  let past_E := snd (match_local_loop dep t (before ++ [E]) rt) in
  (task E = t ->
   match_local_loop dep t (before ++ E :: behind) rt
   = (before ++ upgraded dep E :: behind, at_E))
  /\ (task E <> t ->
      (local_edge at_E dep t E = true ->
       unresolved_deps (heap past_E t) = inc32 (unresolved_deps (heap at_E t))
       /\ successor (heap past_E (task E))
          = t :: successor (heap at_E (task E)))
      /\ (local_edge at_E dep t E = false -> past_E = at_E)
      /\ (IS_OUT_DEP (taskdep E) = true ->
          match_local_loop dep t (before ++ E :: behind) rt
          = (before ++ E :: behind, past_E))
      /\ (IS_OUT_DEP (taskdep E) = false ->
          match_local_loop dep t (before ++ E :: behind) rt
          = (before ++ E :: fst (match_local_loop dep t behind past_E),
             snd (match_local_loop dep t behind past_E)))).
Proof.
  intros Hbefore HE at_E past_E.
  destruct (match_local_loop_prefix dep t before (E :: behind) rt Hbefore)
    as [_ Hfull].
  destruct (match_local_loop_prefix dep t before [E] rt Hbefore)
    as [_ Hone].
  fold at_E in Hfull, Hone.
  split.
  - intros Hself. rewrite Hfull, match_local_loop_self by assumption.
    reflexivity.
  - intros Hother.
    assert (Hpast : past_E = local_visit dep t E at_E).
    { unfold past_E. rewrite Hone, match_local_loop_other by assumption.
      destruct (IS_OUT_DEP (taskdep E)); reflexivity. }
    rewrite Hfull, match_local_loop_other by assumption. rewrite <- Hpast.
    split; [|split; [|split]].
    + intros Hedge. rewrite Hpast. unfold local_visit. rewrite Hedge.
      apply local_link_effect. exact Hother.
    + intros Hedge. rewrite Hpast. unfold local_visit. rewrite Hedge.
      reflexivity.
    + intros Hout. rewrite Hout. reflexivity.
    + intros Hout. rewrite Hout. reflexivity.
Qed.


(** ** Delayed local matcher *)

Lemma delayed_scan_hit dep t seen E rest n :
  delayed_hit dep E = true ->
  task E <> t ->
  delayed_scan dep t seen (E :: rest) n = Done (Some (seen, E, rest, n)).
Proof.
  unfold delayed_hit. intros H Ht.
  apply andb_true_iff in H as [H Hout]. apply andb_true_iff in H as [Hph Ha].
  apply Z.leb_le in Hph. cbn [delayed_scan].
  replace (dep_phase (taskdep E) >? dep_phase dep) with false
    by (symmetry; rewrite Z.gtb_ltb; apply Z.ltb_ge; exact Hph).
  rewrite Ha, Hout.
  destruct (Z.eqb_spec (task E) t); [contradiction | reflexivity].
Qed.

Lemma delayed_scan_prefix dep t seen before rest n :
  (forall e, In e before -> delayed_hit dep e = false) ->
  (forall e, In e before ->
             dep_phase (taskdep e) <= dep_phase dep ->
             DEP_ADDR_EQ (taskdep e) dep = true -> task e <> t) ->
  delayed_scan dep t seen (before ++ rest) n
  = delayed_scan dep t (seen ++ before) rest
      (fold_left (fun n e => if later_writer dep e then task e else n)
                 before n).
Proof.
  revert seen n. induction before as [|e l IH]; intros seen n Hhit Hself.
  - cbn. rewrite app_nil_r. reflexivity.
  - assert (He := Hhit e (or_introl eq_refl)).
    assert (Hs := Hself e (or_introl eq_refl)).
    assert (Hl : forall x, In x l -> delayed_hit dep x = false)
      by (intros x Hx; apply Hhit; right; exact Hx).
    assert (Hl' : forall x, In x l ->
                            dep_phase (taskdep x) <= dep_phase dep ->
                            DEP_ADDR_EQ (taskdep x) dep = true -> task x <> t)
      by (intros x Hx; apply Hself; right; exact Hx).
    cbn [app fold_left delayed_scan].
    replace (seen ++ e :: l) with ((seen ++ [e]) ++ l)
      by (rewrite <- app_assoc; reflexivity).
    unfold later_writer at 2. unfold delayed_hit in He.
    destruct (dep_phase (taskdep e) >? dep_phase dep) eqn:Hgt.
    + cbn [andb]. apply IH; assumption.
    + assert (Hle : dep_phase (taskdep e) <= dep_phase dep)
        by (rewrite Z.gtb_ltb in Hgt; apply Z.ltb_ge in Hgt; exact Hgt).
      replace (dep_phase (taskdep e) <=? dep_phase dep) with true in He
        by (symmetry; apply Z.leb_le; exact Hle).
      cbn [andb] in He |- *.
      destruct (DEP_ADDR_EQ (taskdep e) dep) eqn:Ha.
      * cbn [andb] in He. rewrite He.
        destruct (Z.eqb_spec (task e) t) as [Heq|_];
          [exfalso; exact (Hs Hle eq_refl Heq)|].
        cbn [negb DART_ASSERT bind]. apply IH; assumption.
      * apply IH; assumption.
Qed.

Lemma delayed_link_active owner t rt p :
  IS_ACTIVE_TASK (delayed_link owner t rt) p = IS_ACTIVE_TASK rt p.
Proof.
  unfold delayed_link, IS_ACTIVE_TASK.
  destruct (active_state (state (heap rt owner))); [|reflexivity].
  rewrite !heap_modify_task. pointer_cases.
Qed.

(** C7. When the walk of [match_delayed_local_datadep] for the delayed
    input dependency [dep] of the new task [t] matches the writer [E]
    (the first OUT or INOUT record on the address whose phase is at most
    the phase of [dep]) after it has seen a next writer [N] (a task with
    an OUT or INOUT record of a later phase on the address), the call
    returns [DART_OK], [unresolved_deps] of [N] is incremented, [N] is
    prepended to the successors of [t], and no record is inserted: every
    hash table and the element pool are as before.  The first half of
    the match makes [t] a successor of the task of [E], counted in
    [unresolved_deps] of [t], when that task is active.  The
    preconditions that [t] owns no record on the address and that [N] is
    active are the assertions of the function. *)
Theorem delayed_match_next_writer dep t rt tbl before E behind N :
  local_deps (heap rt (parent (heap rt t))) = Some tbl ->
  tbl (hash_gptr (gptr dep)) = before ++ E :: behind ->
  (forall e, In e before -> delayed_hit dep e = false) ->
  (forall e, In e before ->
             dep_phase (taskdep e) <= dep_phase dep ->
             DEP_ADDR_EQ (taskdep e) dep = true -> task e <> t) ->
  delayed_hit dep E = true ->
  task E <> t ->
  next_writer dep before = N ->
  N <> NULL ->
  IS_ACTIVE_TASK rt N = true ->
  let linked := delayed_link (task E) t rt in
  exists rt',
    dart_tasking_datadeps_match_delayed_local_datadep dep t rt
    = Done (DART_OK, rt')
    /\ unresolved_deps (heap rt' N) = inc32 (unresolved_deps (heap linked N))
    /\ (N <> t ->
        unresolved_deps (heap rt' N) = inc32 (unresolved_deps (heap rt N)))
    /\ successor (heap rt' t) = N :: successor (heap rt t)
    /\ (IS_ACTIVE_TASK rt (task E) = true ->
        successor (heap rt' (task E)) = t :: successor (heap rt (task E))
        /\ (N <> t ->
            unresolved_deps (heap rt' t) = inc32 (unresolved_deps (heap rt t))))
    /\ (forall p, local_deps (heap rt' p) = local_deps (heap rt p))
    /\ freelist_head rt' = freelist_head rt.
Proof.
  intros Htbl Hslot Hhit Hself HE HEt HN HNn HNa linked.
  unfold dart_tasking_datadeps_match_delayed_local_datadep.
  rewrite Htbl, Hslot.
  rewrite (delayed_scan_prefix dep t [] before (E :: behind) NULL Hhit Hself).
  fold (next_writer dep before). rewrite HN.
  rewrite delayed_scan_hit by assumption. cbn [bind app].
  destruct (Z.eqb_spec N NULL) as [|_]; [contradiction|]. cbn [negb].
  fold linked. unfold linked at 1. rewrite delayed_link_active, HNa.
  cbn [DART_ASSERT bind].
  eexists. split; [reflexivity|].
  assert (Hlt : successor (heap linked t) = successor (heap rt t)).
  { unfold linked, delayed_link.
    destruct (IS_ACTIVE_TASK rt (task E)); [|reflexivity].
    rewrite heap_modify_other by congruence. rewrite heap_modify_same.
    reflexivity. }
  assert (HlN : N <> t ->
                unresolved_deps (heap linked N) = unresolved_deps (heap rt N)).
  { intros Hne. unfold linked, delayed_link.
    destruct (IS_ACTIVE_TASK rt (task E)); [|reflexivity].
    rewrite !heap_modify_task. pointer_cases. }
  assert (HN' : unresolved_deps
                  (heap (modify_task t
                           (fun x => set_successor
                              (dart_tasking_tasklist_prepend (successor x) N) x)
                           (modify_task N
                              (fun x => set_unresolved_deps
                                          (inc32 (unresolved_deps x)) x)
                              linked)) N)
                = inc32 (unresolved_deps (heap linked N))).
  { rewrite !heap_modify_task. pointer_cases. }
  split; [exact HN'|].
  split; [intros Hne; rewrite HN', HlN by assumption; reflexivity|].
  split.
  { rewrite heap_modify_same. cbv beta.
    unfold dart_tasking_tasklist_prepend. cbn [successor set_successor].
    rewrite heap_modify_task. rewrite <- Hlt. pointer_cases. }
  split.
  { intros Hact. unfold linked, delayed_link. rewrite Hact.
    split; [|intros Hne]; heap_cases. }
  split.
  - intros p. rewrite !heap_modify_task. unfold linked, delayed_link.
    destruct (IS_ACTIVE_TASK rt (task E)); cbn; pointer_cases.
  - unfold linked, delayed_link.
    destruct (IS_ACTIVE_TASK rt (task E)); reflexivity.
Qed.


(** ** Address comparison *)

(** ** Addresses in the four walks *)










(** ** Copy-in planner *)

(** A pass of the loop of [handle_copyin] that finds no prefetch record
    creates a prefetch task and goes on, whatever the value of [iter]:
    the assertion guarded by [iter > 0] asserts [iter]. *)
Lemma copyin_pass_absent iter dep t rt :
  prefetch_absent dep t rt ->
  copyin_pass iter dep t rt
  = Done (Continue (dart_tasking_copyin_create_task
                      dep (copyin_dest_gptr dep rt) t rt)).
Proof.
  unfold prefetch_absent, copyin_pass. intros H.
  assert (Hfound : match local_deps (heap rt (parent (heap rt t))) with
                   | Some tbl =>
                       copyin_scan dep
                         (tbl (hash_gptr (copyin_dest_gptr dep rt)))
                   | None => None
                   end = None).
  { destruct (local_deps (heap rt (parent (heap rt t))));
      [exact H | reflexivity]. }
  rewrite Hfound.
  destruct (Z.ltb_spec 0 iter) as [Hpos|_]; [|reflexivity].
  destruct (Z.eqb_spec iter 0) as [Hz|_]; [lia | reflexivity].
Qed.

(** Two passes without a prefetch record: the planner has created two
    prefetch tasks and returns [DART_OK]. *)
Lemma handle_copyin_absent_twice dep t rt :
  prefetch_absent dep t rt ->
  prefetch_absent dep t
    (dart_tasking_copyin_create_task dep (copyin_dest_gptr dep rt) t rt) ->
  dart_tasking_datadeps_handle_copyin dep t rt
  = Done (DART_OK,
          let rt1 := dart_tasking_copyin_create_task
                       dep (copyin_dest_gptr dep rt) t rt in
          dart_tasking_copyin_create_task dep (copyin_dest_gptr dep rt1) t rt1).
Proof.
  intros H0 H1. unfold dart_tasking_datadeps_handle_copyin.
  rewrite copyin_pass_absent by assumption. cbn [bind].
  rewrite copyin_pass_absent by assumption. reflexivity.
Qed.


(** * Further properties of the file *)

(** ** The hash *)

(** X1. The slot computed by [hash_gptr] is an index of the table of
    [DART_DEPHASH_SIZE] buckets, whatever the global pointer; it is one
    of the slots that [dart_tasking_datadeps_reset] frees. *)
Theorem hash_gptr_in_table g :
  0 <= hash_gptr g < DART_DEPHASH_SIZE /\ In (hash_gptr g) slots.
Proof.
  assert (H : 0 <= hash_gptr g < DART_DEPHASH_SIZE).
  { unfold hash_gptr. apply Z.mod_pos_bound. reflexivity. }
  split; [exact H|].
  unfold slots. apply in_map_iff. exists (Z.to_nat (hash_gptr g)).
  split; [apply Z2Nat.id; lia|].
  apply in_seq. split; [lia|]. cbn [Nat.add].
  apply Z2Nat.inj_lt; lia.
Qed.

(** X2. [hash_gptr] cuts off the two low bits of the address: the four
    byte addresses of one aligned word are hashed to the same slot, for
    every unit and segment. *)
Theorem hash_gptr_word g k :
  addr_or_offs g mod 4 = 0 ->
  0 <= k < 4 ->
  hash_gptr (with_addr (addr_or_offs g + k) g) = hash_gptr g.
Proof.
  intros Hal Hk. unfold hash_gptr, with_addr.
  cbn [addr_or_offs segid unitid].
  set (a := addr_or_offs g) in *.
  assert (Hm : a mod 2 ^ 64 mod 4 = 0).
  { rewrite Z.mod_mod_divide; [exact Hal|].
    exists (2 ^ 62). reflexivity. }
  assert (Hb : 0 <= a mod 2 ^ 64 < 2 ^ 64) by (apply Z.mod_pos_bound; lia).
  assert (Hs : (a + k) mod 2 ^ 64 = a mod 2 ^ 64 + k).
  { assert (Hle : a mod 2 ^ 64 <= 2 ^ 64 - 4).
    { pose proof (Z.div_mod (a mod 2 ^ 64) 4 ltac:(lia)) as Hd.
      rewrite Hm in Hd.
      assert (a mod 2 ^ 64 / 4 < 2 ^ 62)
        by (apply Z.div_lt_upper_bound; lia).
      lia. }
    rewrite <- Zplus_mod_idemp_l. apply Z.mod_small. lia. }
  rewrite Hs, !Z.shiftr_div_pow2 by lia.
  change (2 ^ 2) with 4.
  replace ((a mod 2 ^ 64 + k) / 4) with (a mod 2 ^ 64 / 4); [reflexivity|].
  pose proof (Z.div_mod (a mod 2 ^ 64) 4 ltac:(lia)) as Hd.
  rewrite Hm in Hd.
  apply Z.div_unique with (r := k); lia.
Qed.

(** ** The element pool *)

(** X3. A recycled record is the next one handed out: allocation right
    after [dephash_recycle_elem] succeeds for every task reference other
    than [NULL], returns a record that carries exactly the dependency,
    the task and the origin asked for, and leaves the runtime as it was
    before the recycling. *)
Theorem recycle_then_allocate elem dep tr org rt :
  tr <> NULL ->
  dephash_allocate_elem dep tr org (dephash_recycle_elem elem rt)
  = Done (mk_elem dep tr org, rt).
Proof.
  intros Htr. unfold dephash_allocate_elem, dephash_recycle_elem.
  cbn [freelist_head set_freelist_head].
  destruct (Z.eqb_spec tr NULL) as [|_]; [contradiction|].
  destruct rt; reflexivity.
Qed.

(** X4. [dephash_allocate_elem] returns exactly when the task reference
    is not [NULL] and the record at the head of the free list, if there
    is one, has no task reference; otherwise an assertion fails.  When
    it returns, the record carries the dependency, the task and the
    origin asked for, the free list has lost its head and nothing else
    has changed. *)
Theorem dephash_allocate_elem_returns dep tr org rt :
  ((exists r, dephash_allocate_elem dep tr org rt = Done r)
   <-> tr <> NULL
       /\ forall e l, freelist_head rt = e :: l -> task e = NULL)
  /\ forall r,
      dephash_allocate_elem dep tr org rt = Done r ->
      r = (mk_elem dep tr org, set_freelist_head (tl (freelist_head rt)) rt).
Proof.
  unfold dephash_allocate_elem.
  destruct (Z.eqb_spec tr NULL) as [Htr|Htr].
  { cbn. split.
    - split; [intros [r H]; destruct (freelist_head rt); discriminate|].
      intros [H _]. contradiction.
    - intros r H. destruct (freelist_head rt); discriminate. }
  destruct (freelist_head rt) as [|e l] eqn:Hfl; cbn.
  - split.
    + split; [|intros _; eexists; reflexivity].
      intros _. split; [exact Htr | intros e l H; discriminate].
    + intros r H. injection H as <-. f_equal. rewrite <- Hfl.
      destruct rt; reflexivity.
  - destruct (Z.eqb_spec (task e) NULL) as [He|He]; cbn.
    + split.
      * split; [|intros _; eexists; reflexivity].
        intros _. split; [exact Htr|].
        intros e' l' H. injection H as <- <-. exact He.
      * intros r H. injection H as <-. reflexivity.
    + split.
      * split; [intros [r H]; discriminate|].
        intros [_ H]. exfalso. apply He. exact (H e l eq_refl).
      * intros r H. discriminate.
Qed.


Lemma pool_zeroed_pushed rt rt' n :
  pool_zeroed rt ->
  freelist_head rt' = repeat zero_elem n ++ freelist_head rt ->
  pool_zeroed rt'.
Proof.
  unfold pool_zeroed. intros H Heq. rewrite Heq.
  apply Forall_app. split; [|exact H].
  apply Forall_forall. intros e He. apply repeat_spec in He. subst e.
  reflexivity.
Qed.

Lemma repeat_snoc_zero n :
  repeat zero_elem n ++ [zero_elem] = zero_elem :: repeat zero_elem n.
Proof. induction n as [|n IH]; cbn; [reflexivity | rewrite IH; reflexivity]. Qed.

(** The fields that one turn of the deferred handling leaves alone. *)
Lemma handle_remote_dep_frame table rdep rt :
  let rt' := handle_remote_dep table rdep rt in
  runq rt' = runq rt
  /\ unhandled_remote_deps rt' = unhandled_remote_deps rt
  /\ current_task rt' = current_task rt
  /\ myguid rt' = myguid rt
  /\ forall p,
      unresolved_deps (heap rt' p) = unresolved_deps (heap rt p)
      /\ successor (heap rt' p) = successor (heap rt p)
      /\ state (heap rt' p) = state (heap rt p)
      /\ phase (heap rt' p) = phase (heap rt p)
      /\ parent (heap rt' p) = parent (heap rt p)
      /\ local_deps (heap rt' p) = local_deps (heap rt p).
Proof.
  cbn zeta. unfold handle_remote_dep.
  destruct (match table with
            | Some tbl =>
                remote_scan rt rdep (tbl (hash_gptr (gptr (taskdep rdep)))) NULL
            | None => (NULL, NULL)
            end) as [c d].
  destruct (negb (d =? NULL));
    [destruct (unresolved_remote_deps _ =? 0)|];
    destruct (negb (c =? NULL));
    (repeat split; try reflexivity; cbn; heap_cases).
Qed.

Lemma handle_remote_deps_frame table pending rt :
  let rt' := fold_left (fun rt r => handle_remote_dep table r rt) pending rt in
  runq rt' = runq rt
  /\ unhandled_remote_deps rt' = unhandled_remote_deps rt
  /\ current_task rt' = current_task rt
  /\ myguid rt' = myguid rt
  /\ forall p,
      unresolved_deps (heap rt' p) = unresolved_deps (heap rt p)
      /\ successor (heap rt' p) = successor (heap rt p)
      /\ state (heap rt' p) = state (heap rt p)
      /\ phase (heap rt' p) = phase (heap rt p)
      /\ parent (heap rt' p) = parent (heap rt p)
      /\ local_deps (heap rt' p) = local_deps (heap rt p).
Proof.
  revert rt. induction pending as [|r l IH]; intros rt; cbn [fold_left].
  - repeat split.
  - cbn zeta in IH.
    destruct (IH (handle_remote_dep table r rt)) as (A & B & C & D & E).
    destruct (handle_remote_dep_frame table r rt) as (A' & B' & C' & D' & E').
    split; [congruence|]. split; [congruence|]. split; [congruence|].
    split; [congruence|].
    intros p. destruct (E p) as (E1 & E2 & E3 & E4 & E5 & E6).
    destruct (E' p) as (F1 & F2 & F3 & F4 & F5 & F6).
    repeat split; congruence.
Qed.

Lemma handle_remote_deps_pool table pending rt :
  exists n,
    (n <= length pending)%nat
    /\ freelist_head
         (fold_left (fun rt r => handle_remote_dep table r rt) pending rt)
       = repeat zero_elem n ++ freelist_head rt.
Proof.
  revert rt. induction pending as [|r l IH]; intros rt; cbn [fold_left].
  - exists 0%nat. split; [cbn; lia | reflexivity].
  - destruct (IH (handle_remote_dep table r rt)) as (n & Hn & Heq).
    destruct (handle_remote_dep_answer table r rt)
      as [[_ (_ & Hf & _)]|[_ (_ & _ & _ & Hf)]]; rewrite Heq, Hf.
    + exists (S n). split; [cbn; lia|].
      change (zero_elem :: freelist_head rt)
        with ([zero_elem] ++ freelist_head rt).
      rewrite app_assoc, repeat_snoc_zero. reflexivity.
    + exists n. split; [cbn; lia | reflexivity].
Qed.

Lemma release_remote_dependencies_fold l rt0 :
  let rt1 :=
    fold_left
      (fun rt tmp =>
         dephash_recycle_elem tmp
           (dart_tasking_remote_release (origin tmp) (task tmp) (taskdep tmp) rt))
      l rt0 in
  sent rt1
  = sent rt0 ++ map (fun r => Release (origin r) (task r) (taskdep r)) l
  /\ freelist_head rt1 = repeat zero_elem (length l) ++ freelist_head rt0
  /\ heap rt1 = heap rt0
  /\ runq rt1 = runq rt0
  /\ remote_blocked_tasks rt1 = remote_blocked_tasks rt0
  /\ unhandled_remote_deps rt1 = unhandled_remote_deps rt0.
Proof.
  revert rt0. induction l as [|e l IH]; intros rt0; cbn [fold_left map length].
  - cbn. rewrite app_nil_r. repeat split.
  - cbn zeta in IH.
    destruct (IH (dephash_recycle_elem e
                    (dart_tasking_remote_release (origin e) (task e)
                                                 (taskdep e) rt0)))
      as (A & B & C & D & E & F).
    rewrite A, B, C, D, E, F. cbn.
    rewrite <- app_assoc. cbn.
    change (zero_elem :: freelist_head rt0)
      with ([zero_elem] ++ freelist_head rt0).
    rewrite app_assoc, repeat_snoc_zero. repeat split.
Qed.

(** What the loop over the successors leaves alone, and what it does to
    the counters: only local counters of popped successors change. *)
Lemma release_successors_frame t succs rt rt' :
  release_successors t succs rt = Done rt' ->
  sent rt' = sent rt
  /\ freelist_head rt' = freelist_head rt
  /\ remote_blocked_tasks rt' = remote_blocked_tasks rt
  /\ unhandled_remote_deps rt' = unhandled_remote_deps rt
  /\ forall p,
      unresolved_remote_deps (heap rt' p) = unresolved_remote_deps (heap rt p)
      /\ state (heap rt' p) = state (heap rt p)
      /\ remote_successor (heap rt' p) = remote_successor (heap rt p)
      /\ local_deps (heap rt' p) = local_deps (heap rt p)
      /\ (~ In p succs ->
          unresolved_deps (heap rt' p) = unresolved_deps (heap rt p)).
Proof.
  revert rt. induction succs as [|S rest IH]; intros rt H.
  - cbn in H. injection H as <-. repeat split.
  - cbn [release_successors] in H.
    destruct (Z.eqb_spec S NULL) as [HS|HS].
    { injection H as <-. repeat split; cbn; heap_cases. }
    unfold release_local_dep_counter in H.
    destruct (DART_ASSERT _) as [[]|]; [|discriminate].
    cbn [bind] in H.
    apply IH in H. destruct H as (A & B & C & D & E).
    assert (Hx : forall (b : bool) (x : runtime),
               (if b then dart__tasking__enqueue_runnable S x else x)
               = set_runq (if b then runq x ++ [S] else runq x) x).
    { intros [] x; [reflexivity | destruct x; reflexivity]. }
    rewrite Hx in A, B, C, D, E.
    split; [exact A|]. split; [exact B|]. split; [exact C|].
    split; [exact D|].
    intros p. destruct (E p) as (E1 & E2 & E3 & E4 & E5).
    rewrite E1, E2, E3, E4.
    split; [cbn; heap_cases|]. split; [cbn; heap_cases|].
    split; [cbn; heap_cases|]. split; [cbn; heap_cases|].
    intros Hp. rewrite E5 by (intros Hin; apply Hp; right; exact Hin).
    assert (p <> S) by (intros ->; apply Hp; left; reflexivity).
    cbn. heap_cases.
Qed.


Lemma free_buckets_pool (tbl : Z -> bucket) l rt :
  exists n,
    freelist_head (fold_left (fun rt i => free_dephash_list (tbl i) rt) l rt)
    = repeat zero_elem n ++ freelist_head rt.
Proof.
  revert rt. induction l as [|i l IH]; intros rt; cbn [fold_left].
  - exists 0%nat. reflexivity.
  - destruct (IH (free_dephash_list (tbl i) rt)) as [n Hn].
    exists (n + length (tbl i))%nat.
    rewrite Hn, free_dephash_list_freelist, app_assoc, repeat_app.
    reflexivity.
Qed.

Lemma reset_pool t rt :
  exists n,
    freelist_head (snd (dart_tasking_datadeps_reset t rt))
    = repeat zero_elem n ++ freelist_head rt.
Proof.
  unfold dart_tasking_datadeps_reset.
  destruct (t =? NULL); [exists 0%nat; reflexivity|].
  destruct (local_deps (heap rt t)) as [tbl|]; [|exists 0%nat; reflexivity].
  cbn [snd modify_task set_heap freelist_head].
  destruct (free_buckets_pool tbl slots rt) as [n Hn].
  eexists (_ + n)%nat.
  rewrite free_dephash_list_freelist. cbn [freelist_head modify_task set_heap].
  rewrite Hn, app_assoc, repeat_app. reflexivity.
Qed.

(** X5. The element pool stays zeroed: when every free record has a
    [NULL] task reference, this still holds after a record is recycled,
    after an allocation, after [dart_tasking_datadeps_reset], after
    [dart_tasking_datadeps_handle_defered_remote] and after
    [dart_tasking_datadeps_release_local_task], so that the assertion
    of [dephash_allocate_elem] on the record it reuses cannot fail. *)
Theorem pool_stays_zeroed rt :
  pool_zeroed rt ->
  (forall elem, pool_zeroed (dephash_recycle_elem elem rt))
  /\ (forall dep tr org r,
         dephash_allocate_elem dep tr org rt = Done r -> pool_zeroed (snd r))
  /\ (forall t, pool_zeroed (snd (dart_tasking_datadeps_reset t rt)))
  /\ pool_zeroed (snd (dart_tasking_datadeps_handle_defered_remote rt))
  /\ (forall t r,
         dart_tasking_datadeps_release_local_task t rt = Done r ->
         pool_zeroed (snd r)).
Proof.
  intros Hpool. split; [|split; [|split; [|split]]].
  - intros elem. apply (pool_zeroed_pushed rt _ 1 Hpool). reflexivity.
  - intros dep tr org r H. unfold dephash_allocate_elem in H.
    unfold pool_zeroed in *.
    destruct (freelist_head rt) as [|e l] eqn:Hfl;
      destruct (DART_ASSERT (negb (tr =? NULL))) as [[]|]; cbn in H;
      try discriminate.
    + injection H as <-. cbn. rewrite Hfl. constructor.
    + destruct (task e =? NULL); cbn in H; [|discriminate].
      injection H as <-. cbn. inversion Hpool; assumption.
  - intros t. destruct (reset_pool t rt) as [n Hn].
    exact (pool_zeroed_pushed _ _ _ Hpool Hn).
  - unfold dart_tasking_datadeps_handle_defered_remote. cbn [snd].
    destruct (handle_remote_deps_pool
                (local_deps (heap rt (current_task rt)))
                (unhandled_remote_deps rt) rt) as (n & _ & Hn).
    apply (pool_zeroed_pushed rt _ n Hpool). exact Hn.
  - intros t r H. unfold dart_tasking_datadeps_release_local_task in H.
    destruct (release_successors t _ _) as [rt2|] eqn:Hloop; [|discriminate].
    cbn in H. injection H as <-. cbn [snd].
    apply release_successors_frame in Hloop. destruct Hloop as (_ & Hf & _).
    destruct (negb (state_eqb (state (heap rt t)) DART_TASK_CANCELLED)).
    + unfold release_remote_dependencies in Hf.
      cbn [freelist_head modify_task set_heap] in Hf.
      destruct (release_remote_dependencies_fold
                  (remote_successor (heap rt t)) rt) as (_ & Hg & _).
      rewrite Hg in Hf.
      exact (pool_zeroed_pushed _ _ _ Hpool Hf).
    + apply (pool_zeroed_pushed rt _ 0 Hpool). exact Hf.
Qed.

(** ** Incoming requests *)

(** X6. [dart_tasking_datadeps_handle_remote_task] rejects a request
    whose dependency type is not [IN] with [DART_ERR_INVAL] and leaves
    the runtime as it is.  An [IN] request of a remote task is put at
    the head of [unhandled_remote_deps] with its origin and returns
    [DART_OK]; nothing is matched or sent at that point. *)
Theorem handle_remote_task_queues rdep remote_task org rt :
  (dep_type rdep <> DART_DEP_IN ->
   dart_tasking_datadeps_handle_remote_task rdep remote_task org rt
   = Done (DART_ERR_INVAL, rt))
  /\ (dep_type rdep = DART_DEP_IN ->
      remote_task <> NULL ->
      pool_zeroed rt ->
      exists rt',
        dart_tasking_datadeps_handle_remote_task rdep remote_task org rt
        = Done (DART_OK, rt')
        /\ unhandled_remote_deps rt'
           = mk_elem rdep remote_task org :: unhandled_remote_deps rt
        /\ heap rt' = heap rt
        /\ sent rt' = sent rt
        /\ remote_blocked_tasks rt' = remote_blocked_tasks rt
        /\ freelist_head rt' = tl (freelist_head rt)).
Proof.
  unfold dart_tasking_datadeps_handle_remote_task. split.
  - intros H. destruct (dep_type rdep); try reflexivity. contradiction.
  - intros H Hrem Hpool. rewrite H. cbn [deptype_eqb negb].
    rewrite dephash_allocate_elem_ok by assumption. cbn [bind].
    eexists. split; [reflexivity|]. repeat split.
Qed.

(** ** Release of remote successors *)

(** X7. [release_remote_dependencies] sends one release per record of
    the task's [remote_successor] list, in list order, each to the
    origin and for the remote task of its record; it recycles every
    record, leaves the list empty and changes no other task. *)
Theorem release_remote_dependencies_sends t rt :
  let rt' := release_remote_dependencies t rt in
  sent rt'
  = sent rt ++ map (fun r => Release (origin r) (task r) (taskdep r))
                   (remote_successor (heap rt t))
  /\ remote_successor (heap rt' t) = []
  /\ freelist_head rt'
     = repeat zero_elem (length (remote_successor (heap rt t)))
       ++ freelist_head rt
  /\ (forall p, p <> t -> heap rt' p = heap rt p)
  /\ successor (heap rt' t) = successor (heap rt t)
  /\ unresolved_deps (heap rt' t) = unresolved_deps (heap rt t)
  /\ unresolved_remote_deps (heap rt' t) = unresolved_remote_deps (heap rt t).
Proof.
  cbn zeta.
  destruct (release_remote_dependencies_fold (remote_successor (heap rt t)) rt)
    as (A & B & C & _).
  unfold release_remote_dependencies.
  cbn [sent freelist_head modify_task set_heap heap].
  rewrite A, B, C, Z.eqb_refl. repeat split.
  intros p Hp. destruct (Z.eqb_spec p t); [contradiction | reflexivity].
Qed.

(** ** Reset *)

(** X8. [dart_tasking_datadeps_reset] is idempotent: a second reset of
    the same task returns [DART_OK] and changes nothing. *)
Theorem reset_idempotent t rt :
  dart_tasking_datadeps_reset t (snd (dart_tasking_datadeps_reset t rt))
  = (DART_OK, snd (dart_tasking_datadeps_reset t rt)).
Proof.
  destruct (Z.eqb_spec t NULL) as [->|Hn]; [reflexivity|].
  assert (H : local_deps (heap (snd (dart_tasking_datadeps_reset t rt)) t)
              = None).
  { unfold dart_tasking_datadeps_reset.
    destruct (Z.eqb_spec t NULL) as [|_]; [contradiction|].
    destruct (local_deps (heap rt t)) as [tbl|] eqn:Htbl;
      [|cbn [snd]; exact Htbl].
    cbn [snd]. rewrite !heap_modify_same. cbn.
    rewrite free_dephash_list_heap, heap_modify_same. reflexivity. }
  unfold dart_tasking_datadeps_reset at 1.
  destruct (Z.eqb_spec t NULL) as [|_]; [contradiction|].
  rewrite H. reflexivity.
Qed.


Lemma release_remote_dependencies_sends_aux t rt :
  sent (release_remote_dependencies t rt)
  = sent rt ++ map (fun r => Release (origin r) (task r) (taskdep r))
                   (remote_successor (heap rt t))
  /\ remote_successor (heap (release_remote_dependencies t rt) t) = [].
Proof.
  destruct (release_remote_dependencies_fold (remote_successor (heap rt t)) rt)
    as (A & _).
  unfold release_remote_dependencies.
  cbn [sent modify_task set_heap heap]. rewrite A, Z.eqb_refl.
  split; reflexivity.
Qed.

(** ** Deferred handling as a whole *)

(** X9. [dart_tasking_datadeps_handle_defered_remote] returns [DART_OK]
    and leaves [unhandled_remote_deps] empty.  It never enqueues a task
    and never changes a local counter, a successor list, a task state or
    a hash table; it recycles at most one record per pending record. *)
Theorem handle_defered_remote_frame rt :
  let r := dart_tasking_datadeps_handle_defered_remote rt in
  fst r = DART_OK
  /\ unhandled_remote_deps (snd r) = []
  /\ runq (snd r) = runq rt
  /\ (exists n, (n <= length (unhandled_remote_deps rt))%nat
                /\ freelist_head (snd r)
                   = repeat zero_elem n ++ freelist_head rt)
  /\ forall p,
      unresolved_deps (heap (snd r) p) = unresolved_deps (heap rt p)
      /\ successor (heap (snd r) p) = successor (heap rt p)
      /\ state (heap (snd r) p) = state (heap rt p)
      /\ local_deps (heap (snd r) p) = local_deps (heap rt p).
Proof.
  cbn zeta. unfold dart_tasking_datadeps_handle_defered_remote.
  cbn [fst snd].
  destruct (handle_remote_deps_frame
              (local_deps (heap rt (current_task rt)))
              (unhandled_remote_deps rt) rt) as (A & _ & _ & _ & E).
  split; [reflexivity|]. split; [reflexivity|]. split; [exact A|].
  split; [apply handle_remote_deps_pool|].
  intros p. destruct (E p) as (E1 & E2 & E3 & _ & _ & E6).
  repeat split; assumption.
Qed.

(** X10. When the current task owns no hash table, every pending record
    is answered by a release to its origin, in the order of the list,
    and recycled; no direct-taskdep is sent and no task is touched. *)
Theorem handle_defered_remote_without_table rt :
  local_deps (heap rt (current_task rt)) = None ->
  let rt' := snd (dart_tasking_datadeps_handle_defered_remote rt) in
  sent rt'
  = sent rt ++ map (fun r => Release (origin r) (task r) (taskdep r))
                   (unhandled_remote_deps rt)
  /\ freelist_head rt'
     = repeat zero_elem (length (unhandled_remote_deps rt))
       ++ freelist_head rt
  /\ heap rt' = heap rt
  /\ remote_blocked_tasks rt' = remote_blocked_tasks rt.
Proof.
  intros Htbl. cbn zeta.
  unfold dart_tasking_datadeps_handle_defered_remote. rewrite Htbl.
  cbn [snd sent freelist_head heap remote_blocked_tasks
       set_unhandled_remote_deps].
  destruct (release_remote_dependencies_fold (unhandled_remote_deps rt) rt)
    as (A & B & C & _ & E & _).
  repeat split; assumption.
Qed.

(** ** Completion of a task *)

(** X11. [dart_tasking_datadeps_release_local_task] on a task that is
    not cancelled sends the releases of all its remote successors and
    empties the list; on a cancelled task it sends nothing and keeps the
    list.  The loop over the local successors sends nothing. *)
Theorem release_local_task_remote_part t rt r :
  dart_tasking_datadeps_release_local_task t rt = Done r ->
  fst r = DART_OK
  /\ (state (heap rt t) <> DART_TASK_CANCELLED ->
      sent (snd r)
      = sent rt ++ map (fun e => Release (origin e) (task e) (taskdep e))
                       (remote_successor (heap rt t))
      /\ remote_successor (heap (snd r) t) = [])
  /\ (state (heap rt t) = DART_TASK_CANCELLED ->
      sent (snd r) = sent rt
      /\ remote_successor (heap (snd r) t) = remote_successor (heap rt t)
      /\ freelist_head (snd r) = freelist_head rt).
Proof.
  intros H. unfold dart_tasking_datadeps_release_local_task in H.
  destruct (release_successors t _ _) as [rt2|] eqn:Hloop; [|discriminate].
  cbn in H. injection H as <-. cbn [fst snd].
  apply release_successors_frame in Hloop.
  destruct Hloop as (Hs & Hf & _ & _ & Hh).
  destruct (Hh t) as (_ & _ & Hrs & _).
  split; [reflexivity|].
  destruct (state_eqb (state (heap rt t)) DART_TASK_CANCELLED) eqn:Hst;
    cbn [negb] in *.
  - apply state_eqb_eq in Hst. split; [intros Hc; contradiction|].
    intros _. repeat split; assumption.
  - split.
    + intros _.
      destruct (release_remote_dependencies_sends_aux t rt) as (A & B).
      rewrite Hs, Hrs, A, B. split; reflexivity.
    + intros Hc. apply state_eqb_eq in Hc. congruence.
Qed.


(** ** The loop over the local successors *)

Lemma popped_fields t S rest rt :
  unresolved_deps (heap (modify_task t (set_successor rest) rt) S)
  = unresolved_deps (heap rt S)
  /\ unresolved_remote_deps (heap (modify_task t (set_successor rest) rt) S)
     = unresolved_remote_deps (heap rt S)
  /\ state (heap (modify_task t (set_successor rest) rt) S)
     = state (heap rt S).
Proof.
  rewrite heap_modify_task.
  destruct (Z.eqb_spec S t) as [->|]; repeat split.
Qed.

Lemma release_successors_turn_ok t S rest rt :
  S <> NULL ->
  0 <= dec32 (unresolved_deps (heap rt S)) ->
  0 <= unresolved_remote_deps (heap rt S) ->
  release_successors t (S :: rest) rt
  = release_successors t rest (after_turn t S rest rt).
Proof.
  intros HS Hn Hr. cbn [release_successors].
  destruct (Z.eqb_spec S NULL) as [|_]; [contradiction|].
  unfold release_local_dep_counter, after_turn.
  destruct (popped_fields t S rest rt) as (Hd & Hq & Hs).
  rewrite Hd, !heap_modify_same.
  cbn [unresolved_remote_deps state set_unresolved_deps]. rewrite Hq.
  replace (0 <=? unresolved_remote_deps (heap rt S)) with true
    by (symmetry; apply Z.leb_le; assumption).
  replace (0 <=? dec32 (unresolved_deps (heap rt S))) with true
    by (symmetry; apply Z.leb_le; assumption).
  cbn [andb DART_ASSERT bind]. rewrite heap_modify_same.
  cbn [state set_unresolved_deps]. rewrite Hs. reflexivity.
Qed.

Lemma release_successors_turn_abort t S rest rt :
  S <> NULL ->
  dec32 (unresolved_deps (heap rt S)) < 0
  \/ unresolved_remote_deps (heap rt S) < 0 ->
  release_successors t (S :: rest) rt = Aborted.
Proof.
  intros HS H. cbn [release_successors].
  destruct (Z.eqb_spec S NULL) as [|_]; [contradiction|].
  unfold release_local_dep_counter.
  destruct (popped_fields t S rest rt) as (Hd & Hq & Hs).
  rewrite Hd, !heap_modify_same.
  cbn [unresolved_remote_deps set_unresolved_deps]. rewrite Hq.
  replace ((0 <=? unresolved_remote_deps (heap rt S))
           && (0 <=? dec32 (unresolved_deps (heap rt S)))) with false;
    [reflexivity|].
  symmetry. apply andb_false_iff.
  destruct H as [H|H]; [right | left]; apply Z.leb_gt; exact H.
Qed.

Lemma after_turn_fields t S rest rt :
  runq (after_turn t S rest rt)
  = runq rt
    ++ (if state_eqb (state (heap rt S)) DART_TASK_CREATED
           && ((dec32 (unresolved_deps (heap rt S)) =? 0)
               && (unresolved_remote_deps (heap rt S) =? 0))
        then [S] else [])
  /\ unresolved_deps (heap (after_turn t S rest rt) S)
     = dec32 (unresolved_deps (heap rt S))
  /\ successor (heap (after_turn t S rest rt) t) = rest
  /\ forall p,
      unresolved_remote_deps (heap (after_turn t S rest rt) p)
      = unresolved_remote_deps (heap rt p)
      /\ state (heap (after_turn t S rest rt) p) = state (heap rt p)
      /\ (p <> S ->
          unresolved_deps (heap (after_turn t S rest rt) p)
          = unresolved_deps (heap rt p)).
Proof.
  unfold after_turn.
  destruct (state_eqb (state (heap rt S)) DART_TASK_CREATED
            && ((dec32 (unresolved_deps (heap rt S)) =? 0)
                && (unresolved_remote_deps (heap rt S) =? 0)));
    cbn [runq heap dart__tasking__enqueue_runnable set_runq modify_task
         set_heap];
    rewrite ?app_nil_r, ?Z.eqb_refl;
    (split; [reflexivity|]); (split; [reflexivity|]);
    (split; [heap_cases|]); intros p; repeat split; try intros Hp;
    heap_cases.
Qed.

(** X12. With pairwise distinct successors that each wait for at least
    one local predecessor and have no negative counter,
    [dart_tasking_datadeps_release_local_task] returns [DART_OK]: every
    successor's local counter has gone down by one, the successor list
    of the task is empty, and the tasks enqueued are, in list order,
    exactly the successors that waited for this task alone (one local
    dependency, no remote dependency, state [CREATED]). *)
Theorem release_local_task_distinct t rt :
  NoDup (successor (heap rt t)) ->
  ~ In NULL (successor (heap rt t)) ->
  (forall S, In S (successor (heap rt t)) ->
             0 < unresolved_deps (heap rt S) < 2 ^ 31
             /\ 0 <= unresolved_remote_deps (heap rt S)) ->
  exists rt',
    dart_tasking_datadeps_release_local_task t rt = Done (DART_OK, rt')
    /\ runq rt' = runq rt ++ filter (last_local_dep rt) (successor (heap rt t))
    /\ (forall S, In S (successor (heap rt t)) ->
                  unresolved_deps (heap rt' S) = unresolved_deps (heap rt S) - 1)
    /\ successor (heap rt' t) = [].
Proof.
  intros Hnd Hnn Hc.
  assert (Hgen : forall succs rt0,
    NoDup succs -> ~ In NULL succs ->
    (forall S, In S succs ->
               0 < unresolved_deps (heap rt0 S) < 2 ^ 31
               /\ 0 <= unresolved_remote_deps (heap rt0 S)) ->
    exists rt',
      release_successors t succs rt0 = Done rt'
      /\ runq rt' = runq rt0 ++ filter (last_local_dep rt0) succs
      /\ (forall S, In S succs ->
                    unresolved_deps (heap rt' S)
                    = unresolved_deps (heap rt0 S) - 1)
      /\ (forall p, ~ In p succs ->
                    unresolved_deps (heap rt' p) = unresolved_deps (heap rt0 p))
      /\ (succs <> [] -> successor (heap rt' t) = [])
      /\ (succs = [] -> rt' = rt0)).
  { induction succs as [|S rest IH]; intros rt0 Hnd0 Hnn0 Hc0.
    - exists rt0. cbn [release_successors filter]. rewrite app_nil_r.
      split; [reflexivity|]. split; [reflexivity|].
      split; [intros S []|]. split; [reflexivity|].
      split; [intros H; contradiction | reflexivity].
    - inversion Hnd0 as [|? ? HSrest Hndrest]; subst.
      assert (HS : S <> NULL) by (intros ->; apply Hnn0; left; reflexivity).
      destruct (Hc0 S (or_introl eq_refl)) as (Hd & Hr).
      assert (Hdec : dec32 (unresolved_deps (heap rt0 S))
                     = unresolved_deps (heap rt0 S) - 1)
        by (apply dec32_in_range; lia).
      rewrite release_successors_turn_ok by (try assumption; lia).
      destruct (after_turn_fields t S rest rt0) as (Aq & Ad & As & Ap).
      destruct (IH (after_turn t S rest rt0)) as (rt' & Hrun & Hq & Hin & Hout & Hne & He).
      { exact Hndrest. }
      { intros H. apply Hnn0. right. exact H. }
      { intros S' HS'. destruct (Ap S') as (Ar & _ & Adp).
        rewrite Ar, Adp by (intros ->; contradiction).
        apply Hc0. right. exact HS'. }
      exists rt'. split; [exact Hrun|].
      assert (Hfil : filter (last_local_dep (after_turn t S rest rt0)) rest
                     = filter (last_local_dep rt0) rest).
      { apply filter_ext_in. intros S' HS'. unfold last_local_dep.
        destruct (Ap S') as (Ar & Ast & Adp).
        rewrite Ar, Ast, Adp by (intros ->; contradiction). reflexivity. }
      split.
      { assert (Hl : state_eqb (state (heap rt0 S)) DART_TASK_CREATED
                     && ((dec32 (unresolved_deps (heap rt0 S)) =? 0)
                         && (unresolved_remote_deps (heap rt0 S) =? 0))
                     = last_local_dep rt0 S).
        { unfold last_local_dep. rewrite Hdec.
          replace (unresolved_deps (heap rt0 S) - 1 =? 0)
            with (unresolved_deps (heap rt0 S) =? 1)
            by (destruct (Z.eqb_spec (unresolved_deps (heap rt0 S)) 1);
                symmetry; [apply Z.eqb_eq | apply Z.eqb_neq]; lia).
          destruct (unresolved_deps (heap rt0 S) =? 1),
            (unresolved_remote_deps (heap rt0 S) =? 0),
            (state_eqb (state (heap rt0 S)) DART_TASK_CREATED);
            reflexivity. }
        rewrite Hl in Aq.
        rewrite Hq, Aq, Hfil, <- app_assoc. f_equal. cbn [filter].
        destruct (last_local_dep rt0 S); reflexivity. }
      split.
      { intros S' [<-|HS'].
        - rewrite Hout by assumption. rewrite Ad. exact Hdec.
        - rewrite Hin by assumption. destruct (Ap S') as (_ & _ & Adp).
          rewrite Adp by (intros ->; contradiction). reflexivity. }
      split.
      { intros p Hp. rewrite Hout by (intros H; apply Hp; right; exact H).
        destruct (Ap p) as (_ & _ & Adp). apply Adp.
        intros ->. apply Hp. left. reflexivity. }
      split; [|intros H; discriminate].
      intros _. destruct rest as [|S' rest'].
      + rewrite (He eq_refl). exact As.
      + apply Hne. discriminate. }
  destruct (release_local_task_loop t rt) as (Hloop & Hsame).
  cbn zeta in Hloop, Hsame.
  set (rt1 := if negb (state_eqb (state (heap rt t)) DART_TASK_CANCELLED)
              then release_remote_dependencies t rt else rt) in *.
  assert (Hq1 : runq rt1 = runq rt).
  { unfold rt1. destruct (negb _); [|reflexivity].
    unfold release_remote_dependencies. cbn [runq modify_task set_heap].
    destruct (release_remote_dependencies_fold
                (remote_successor (heap rt t)) rt) as (_ & _ & _ & D & _).
    exact D. }
  destruct (Hgen (successor (heap rt t)) rt1 Hnd Hnn)
    as (rt' & Hrun & Hq & Hin & _ & Hne & He).
  { intros S HS. destruct (Hsame S) as (A & B & _). rewrite A, B.
    apply Hc. exact HS. }
  exists rt'. rewrite Hloop, Hrun. cbn [bind].
  split; [reflexivity|]. split.
  { rewrite Hq, Hq1. f_equal. apply filter_ext. intros S.
    unfold last_local_dep. destruct (Hsame S) as (A & B & C & _).
    rewrite A, B, C. reflexivity. }
  split.
  { intros S HS. rewrite Hin by assumption. destruct (Hsame S) as (A & _).
    rewrite A. reflexivity. }
  destruct (successor (heap rt t)) as [|S l] eqn:Hsucc.
  - rewrite (He eq_refl). destruct (Hsame t) as (_ & _ & _ & D).
    rewrite D. exact Hsucc.
  - apply Hne. discriminate.
Qed.


Lemma release_successors_turn_cases t S rest rt rt' :
  S <> NULL ->
  release_successors t (S :: rest) rt = Done rt' ->
  0 <= dec32 (unresolved_deps (heap rt S))
  /\ 0 <= unresolved_remote_deps (heap rt S)
  /\ release_successors t rest (after_turn t S rest rt) = Done rt'.
Proof.
  intros HS H.
  destruct (Z.lt_ge_cases (dec32 (unresolved_deps (heap rt S))) 0) as [Hn|Hn].
  { rewrite release_successors_turn_abort in H by (try assumption; left; exact Hn).
    discriminate. }
  destruct (Z.lt_ge_cases (unresolved_remote_deps (heap rt S)) 0) as [Hr|Hr].
  { rewrite release_successors_turn_abort in H
      by (try assumption; right; exact Hr).
    discriminate. }
  rewrite release_successors_turn_ok in H by assumption.
  repeat split; assumption.
Qed.

(** A task without unresolved local dependency is not popped in a run
    that completes: its counter would underflow. *)
Lemma release_successors_spares_ready t succs rt rt' S :
  ~ In NULL succs ->
  release_successors t succs rt = Done rt' ->
  unresolved_deps (heap rt S) = 0 ->
  ~ In S succs /\ unresolved_deps (heap rt' S) = 0.
Proof.
  revert rt. induction succs as [|S0 rest IH]; intros rt Hnn H Hz.
  - cbn in H. injection H as <-. split; [intros [] | exact Hz].
  - assert (HS0 : S0 <> NULL) by (intros ->; apply Hnn; left; reflexivity).
    destruct (release_successors_turn_cases _ _ _ _ _ HS0 H) as (Hn & _ & Hrun).
    assert (Hne : S0 <> S).
    { intros ->. rewrite Hz in Hn. vm_compute in Hn. apply Hn. reflexivity. }
    destruct (after_turn_fields t S0 rest rt) as (_ & _ & _ & Ap).
    destruct (Ap S) as (_ & _ & Adp).
    destruct (IH (after_turn t S0 rest rt)) as (Hni & Hd).
    { intros Hin. apply Hnn. right. exact Hin. }
    { exact Hrun. }
    { rewrite Adp by congruence. exact Hz. }
    split; [|exact Hd]. intros [Heq|Hin]; [congruence | contradiction].
Qed.

(** X13. In every run of
    [dart_tasking_datadeps_release_local_task] that returns, each task is
    enqueued at most once, only successors of the finished task are
    enqueued, and a task that was enqueued has no unresolved local and
    no unresolved remote dependency when the call returns. *)
Theorem release_local_task_enqueues_ready t rt r :
  ~ In NULL (successor (heap rt t)) ->
  dart_tasking_datadeps_release_local_task t rt = Done r ->
  exists enqueued,
    runq (snd r) = runq rt ++ enqueued
    /\ NoDup enqueued
    /\ forall S, In S enqueued ->
                 In S (successor (heap rt t))
                 /\ unresolved_deps (heap (snd r) S) = 0
                 /\ unresolved_remote_deps (heap (snd r) S) = 0
                 /\ state (heap rt S) = DART_TASK_CREATED.
Proof.
  intros Hnn H.
  assert (Hgen : forall succs rt0 rt',
    ~ In NULL succs ->
    release_successors t succs rt0 = Done rt' ->
    exists enqueued,
      runq rt' = runq rt0 ++ enqueued
      /\ NoDup enqueued
      /\ forall S, In S enqueued ->
                   In S succs
                   /\ unresolved_deps (heap rt' S) = 0
                   /\ unresolved_remote_deps (heap rt' S) = 0
                   /\ state (heap rt0 S) = DART_TASK_CREATED).
  { induction succs as [|S0 rest IH]; intros rt0 rt' Hnn0 Hrun.
    - cbn in Hrun. injection Hrun as <-. exists [].
      rewrite app_nil_r. split; [reflexivity|].
      split; [constructor | intros S []].
    - assert (HS0 : S0 <> NULL) by (intros ->; apply Hnn0; left; reflexivity).
      assert (Hnn1 : ~ In NULL rest)
        by (intros Hin; apply Hnn0; right; exact Hin).
      destruct (release_successors_turn_cases _ _ _ _ _ HS0 Hrun)
        as (Hn & Hr & Hrun').
      destruct (after_turn_fields t S0 rest rt0) as (Aq & Ad & _ & Ap).
      destruct (IH _ _ Hnn1 Hrun') as (enq & Hq & Hnd & Hall).
      destruct (release_successors_frame _ _ _ _ Hrun') as (_ & _ & _ & _ & Hfr).
      assert (Hall' : forall S, In S enq ->
                 In S (S0 :: rest)
                 /\ unresolved_deps (heap rt' S) = 0
                 /\ unresolved_remote_deps (heap rt' S) = 0
                 /\ state (heap rt0 S) = DART_TASK_CREATED).
      { intros S HS. destruct (Hall S HS) as (A & B & C & D).
        destruct (Ap S) as (_ & Ast & _). rewrite Ast in D.
        split; [right; exact A|]. repeat split; assumption. }
      destruct (state_eqb (state (heap rt0 S0)) DART_TASK_CREATED
                && ((dec32 (unresolved_deps (heap rt0 S0)) =? 0)
                    && (unresolved_remote_deps (heap rt0 S0) =? 0)))
        eqn:Hcond.
      + apply andb_true_iff in Hcond as [Hst Hcond].
        apply andb_true_iff in Hcond as [Hz Hz'].
        apply state_eqb_eq in Hst. apply Z.eqb_eq in Hz, Hz'.
        destruct (release_successors_spares_ready t rest _ rt' S0 Hnn1 Hrun')
          as (Hni & Hd0); [rewrite Ad; exact Hz|].
        exists (S0 :: enq). rewrite Hq, Aq, <- app_assoc.
        split; [reflexivity|]. split.
        * constructor; [|exact Hnd]. intros Hin.
          destruct (Hall S0 Hin) as (A & _). contradiction.
        * intros S [<-|HS]; [|exact (Hall' S HS)].
          split; [left; reflexivity|]. split; [exact Hd0|].
          destruct (Hfr S0) as (Fr & _). destruct (Ap S0) as (Ar & _).
          split; [congruence | exact Hst].
      + exists enq. rewrite Hq, Aq, app_nil_r.
        split; [reflexivity|]. split; [exact Hnd | exact Hall']. }
  destruct (release_local_task_loop t rt) as (Hloop & Hsame).
  cbn zeta in Hloop, Hsame.
  set (rt1 := if negb (state_eqb (state (heap rt t)) DART_TASK_CANCELLED)
              then release_remote_dependencies t rt else rt) in *.
  assert (Hq1 : runq rt1 = runq rt).
  { unfold rt1. destruct (negb _); [|reflexivity].
    unfold release_remote_dependencies. cbn [runq modify_task set_heap].
    destruct (release_remote_dependencies_fold
                (remote_successor (heap rt t)) rt) as (_ & _ & _ & D & _).
    exact D. }
  rewrite Hloop in H.
  destruct (release_successors t (successor (heap rt t)) rt1) as [rt2|] eqn:Hrun;
    [|discriminate].
  cbn in H. injection H as <-. cbn [snd].
  destruct (Hgen _ _ _ Hnn Hrun) as (enq & Hq & Hnd & Hall).
  exists enq. rewrite Hq, Hq1. split; [reflexivity|]. split; [exact Hnd|].
  intros S HS. destruct (Hall S HS) as (A & B & C & D).
  destruct (Hsame S) as (_ & _ & Hst & _). rewrite Hst in D.
  repeat split; assumption.
Qed.

(** ** Cancellation *)

(** X14. [dart_tasking_datadeps_cancel_remote_deps] returns [DART_OK]
    and drains [remote_blocked_tasks]: every task of the list has its
    remote counter set to zero, and the tasks enqueued are, in list
    order, the tasks of the list without unresolved local dependency.
    No local counter, successor list or state changes, no other task is
    touched and nothing is sent. *)
Theorem cancel_remote_deps_drains rt :
  ~ In NULL (remote_blocked_tasks rt) ->
  let r := dart_tasking_datadeps_cancel_remote_deps rt in
  fst r = DART_OK
  /\ remote_blocked_tasks (snd r) = []
  /\ runq (snd r)
     = runq rt ++ filter (fun t => unresolved_deps (heap rt t) =? 0)
                         (remote_blocked_tasks rt)
  /\ sent (snd r) = sent rt
  /\ (forall t, In t (remote_blocked_tasks rt) ->
                unresolved_remote_deps (heap (snd r) t) = 0)
  /\ (forall p, ~ In p (remote_blocked_tasks rt) ->
                heap (snd r) p = heap rt p)
  /\ forall p,
      unresolved_deps (heap (snd r) p) = unresolved_deps (heap rt p)
      /\ successor (heap (snd r) p) = successor (heap rt p)
      /\ state (heap (snd r) p) = state (heap rt p).
Proof.
  intros Hnn. cbn zeta. unfold dart_tasking_datadeps_cancel_remote_deps.
  cbn [fst snd].
  assert (Hgen : forall l rt0,
    ~ In NULL l ->
    let rt' := cancel_blocked l rt0 in
    (l <> [] -> remote_blocked_tasks rt' = [])
    /\ (l = [] -> rt' = rt0)
    /\ runq rt'
       = runq rt0 ++ filter (fun t => unresolved_deps (heap rt0 t) =? 0) l
    /\ sent rt' = sent rt0
    /\ (forall t, In t l -> unresolved_remote_deps (heap rt' t) = 0)
    /\ (forall p, ~ In p l -> heap rt' p = heap rt0 p)
    /\ forall p,
        unresolved_deps (heap rt' p) = unresolved_deps (heap rt0 p)
        /\ successor (heap rt' p) = successor (heap rt0 p)
        /\ state (heap rt' p) = state (heap rt0 p)).
  { induction l as [|t l IH]; intros rt0 Hnn0; cbn zeta.
    - cbn [cancel_blocked filter]. rewrite app_nil_r.
      split; [intros H; contradiction|]. split; [reflexivity|].
      split; [reflexivity|]. split; [reflexivity|].
      split; [intros t []|]. split; [reflexivity|]. repeat split.
    - assert (Ht : t <> NULL) by (intros ->; apply Hnn0; left; reflexivity).
      assert (Hnn1 : ~ In NULL l) by (intros H; apply Hnn0; right; exact H).
      cbn [cancel_blocked].
      destruct (Z.eqb_spec t NULL) as [|_]; [contradiction|].
      set (rt1 := modify_task t (set_unresolved_remote_deps 0)
                              (set_remote_blocked_tasks l rt0)).
      set (rt2 := if unresolved_deps (heap rt1 t) =? 0
                  then dart__tasking__enqueue_runnable t rt1 else rt1).
      assert (Hd : forall p, unresolved_deps (heap rt2 p)
                             = unresolved_deps (heap rt0 p)
                             /\ successor (heap rt2 p) = successor (heap rt0 p)
                             /\ state (heap rt2 p) = state (heap rt0 p)).
      { intros p. unfold rt2, rt1.
        destruct (unresolved_deps _ =? 0); repeat split; cbn; heap_cases. }
      assert (Hh : forall p, p <> t -> heap rt2 p = heap rt0 p).
      { intros p Hp. unfold rt2, rt1.
        destruct (unresolved_deps _ =? 0); cbn; heap_cases. }
      assert (Hr : unresolved_remote_deps (heap rt2 t) = 0).
      { unfold rt2, rt1. destruct (unresolved_deps _ =? 0); cbn;
          rewrite Z.eqb_refl; reflexivity. }
      assert (Hq2 : runq rt2
                    = runq rt0
                      ++ (if unresolved_deps (heap rt0 t) =? 0
                          then [t] else [])).
      { unfold rt2. replace (unresolved_deps (heap rt1 t))
          with (unresolved_deps (heap rt0 t))
          by (unfold rt1; cbn; rewrite Z.eqb_refl; reflexivity).
        destruct (unresolved_deps (heap rt0 t) =? 0); cbn;
          rewrite ?app_nil_r; reflexivity. }
      assert (Hb2 : remote_blocked_tasks rt2 = l).
      { unfold rt2, rt1. destruct (unresolved_deps _ =? 0); reflexivity. }
      assert (Hs2 : sent rt2 = sent rt0).
      { unfold rt2, rt1. destruct (unresolved_deps _ =? 0); reflexivity. }
      destruct (IH rt2 Hnn1) as (A & B & C & D & E & F & G).
      split.
      { intros _. destruct l as [|t' l'].
        - rewrite (B eq_refl). exact Hb2.
        - apply A. discriminate. }
      split; [intros H; discriminate|].
      split.
      { rewrite C, Hq2, <- app_assoc. f_equal. cbn [filter].
        replace (filter (fun t0 => unresolved_deps (heap rt2 t0) =? 0) l)
          with (filter (fun t0 => unresolved_deps (heap rt0 t0) =? 0) l)
          by (apply filter_ext; intros p; destruct (Hd p) as (-> & _);
              reflexivity).
        destruct (unresolved_deps (heap rt0 t) =? 0); reflexivity. }
      split; [congruence|].
      split.
      { intros p [<-|Hp]; [|exact (E p Hp)].
        destruct (in_dec Z.eq_dec t l) as [Hin|Hin]; [exact (E t Hin)|].
        rewrite (F t Hin). exact Hr. }
      split.
      { intros p Hp. rewrite F by (intros H; apply Hp; right; exact H).
        apply Hh. intros ->. apply Hp. left. reflexivity. }
      intros p. destruct (G p) as (G1 & G2 & G3).
      destruct (Hd p) as (D1 & D2 & D3).
      repeat split; congruence. }
  destruct (Hgen (remote_blocked_tasks rt) rt Hnn) as (A & B & C & D & E & F & G).
  split; [reflexivity|]. split.
  { destruct (remote_blocked_tasks rt) as [|t l] eqn:Hl.
    - rewrite (B eq_refl). exact Hl.
    - apply A. discriminate. }
  repeat split; try assumption; apply G.
Qed.


(** ** Release of a remote predecessor *)

(** X15. [dart_tasking_datadeps_release_remote_dep] decrements the
    remote counter of the task and leaves its local counter alone.  It
    aborts when the decremented remote counter or the local counter is
    negative.  Otherwise it returns [DART_OK]; the task is enqueued
    exactly when both counters are then zero, and it is taken out of
    [remote_blocked_tasks] exactly when the remote counter has reached
    zero. *)
Theorem release_remote_dep_outcome
        (remove : list ptr -> ptr -> list ptr) t rt :
  let n := dec32 (unresolved_remote_deps (heap rt t)) in
  let l := unresolved_deps (heap rt t) in
  (n < 0 \/ l < 0 ->
   dart_tasking_datadeps_release_remote_dep remove t rt = Aborted)
  /\ (0 <= n -> 0 <= l ->
      exists rt',
        dart_tasking_datadeps_release_remote_dep remove t rt
        = Done (DART_OK, rt')
        /\ unresolved_remote_deps (heap rt' t) = n
        /\ unresolved_deps (heap rt' t) = l
        /\ (forall p, p <> t -> heap rt' p = heap rt p)
        /\ runq rt' = (if (l =? 0) && (n =? 0) then runq rt ++ [t]
                       else runq rt)
        /\ remote_blocked_tasks rt'
           = (if n =? 0 then remove (remote_blocked_tasks rt) t
              else remote_blocked_tasks rt)
        /\ sent rt' = sent rt).
Proof.
  cbn zeta.
  unfold dart_tasking_datadeps_release_remote_dep, release_remote_dep_counter.
  rewrite heap_modify_same. cbn [unresolved_deps set_unresolved_remote_deps].
  split.
  - intros H.
    replace ((0 <=? dec32 (unresolved_remote_deps (heap rt t)))
             && (0 <=? unresolved_deps (heap rt t))) with false;
      [reflexivity|].
    symmetry. apply andb_false_iff.
    destruct H as [H|H]; [left | right]; apply Z.leb_gt; exact H.
  - intros Hn Hl.
    replace (0 <=? dec32 (unresolved_remote_deps (heap rt t))) with true
      by (symmetry; apply Z.leb_le; exact Hn).
    replace (0 <=? unresolved_deps (heap rt t)) with true
      by (symmetry; apply Z.leb_le; exact Hl).
    cbn [andb DART_ASSERT bind].
    eexists. split; [reflexivity|].
    destruct (unresolved_deps (heap rt t) =? 0);
      destruct (dec32 (unresolved_remote_deps (heap rt t)) =? 0);
      cbn [andb]; repeat split; try intros p Hp; cbn; heap_cases.
Qed.

(** ** The local matcher as a whole *)







(** ** Registration in the hash table *)

Lemma dephash_add_local_spec dep t rt :
  t <> NULL ->
  pool_zeroed rt ->
  parent (heap rt t) <> NULL ->
  let par := parent (heap rt t) in
  exists rt',
    dephash_add_local dep t rt = Done (DART_OK, rt')
    /\ bucket_at (local_deps (heap rt' par)) (hash_gptr (gptr dep))
       = mk_elem dep t (myguid rt)
         :: bucket_at (local_deps (heap rt par)) (hash_gptr (gptr dep))
    /\ (forall s, s <> hash_gptr (gptr dep) ->
                  bucket_at (local_deps (heap rt' par)) s
                  = bucket_at (local_deps (heap rt par)) s)
    /\ local_deps (heap rt' par) <> None
    /\ (forall p, p <> par -> heap rt' p = heap rt p)
    /\ successor (heap rt' par) = successor (heap rt par)
    /\ unresolved_deps (heap rt' par) = unresolved_deps (heap rt par)
    /\ state (heap rt' par) = state (heap rt par)
    /\ freelist_head rt' = tl (freelist_head rt).
Proof.
  intros Ht Hpool Hpar par. unfold dephash_add_local.
  rewrite dephash_allocate_elem_ok by assumption. cbn [bind].
  cbn [heap set_freelist_head]. fold par.
  unfold dephash_require_alloc.
  destruct (Z.eqb_spec par NULL) as [|_]; [contradiction|]. cbn [negb].
  cbn [heap set_freelist_head].
  destruct (local_deps (heap rt par)) as [tbl|] eqn:Htbl.
  - cbn [heap set_freelist_head]. rewrite Htbl.
    eexists. split; [reflexivity|].
    rewrite heap_modify_same. cbn [local_deps set_local_deps bucket_at].
    unfold set_slot. rewrite Z.eqb_refl.
    split; [reflexivity|]. split.
    { intros s Hs. destruct (Z.eqb_spec s (hash_gptr (gptr dep)));
        [contradiction | reflexivity]. }
    split; [discriminate|]. split.
    { intros p Hp. rewrite heap_modify_other by exact Hp. reflexivity. }
    repeat split.
  - rewrite heap_modify_same. cbn [local_deps set_local_deps].
    eexists. split; [reflexivity|].
    rewrite heap_modify_same. cbn [local_deps set_local_deps bucket_at].
    unfold set_slot. rewrite Z.eqb_refl.
    split; [reflexivity|]. split.
    { intros s Hs. destruct (Z.eqb_spec s (hash_gptr (gptr dep)));
        [contradiction | reflexivity]. }
    split; [discriminate|]. split.
    { intros p Hp. rewrite !heap_modify_other by exact Hp. reflexivity. }
    rewrite heap_modify_same. repeat split.
Qed.

(** X17. [dephash_add_local] puts the record of the dependency, owned by
    the task and with this unit as origin, at the head of the bucket
    selected by [hash_gptr] in the table of the task's parent, which it
    allocates when the parent has none; the records already in that
    bucket follow in their order, every other bucket and every other
    task is unchanged.  It takes the record from the pool. *)
Theorem dephash_add_local_inserts dep t rt :
  t <> NULL ->
  pool_zeroed rt ->
  parent (heap rt t) <> NULL ->
  let par := parent (heap rt t) in
  exists rt',
    dephash_add_local dep t rt = Done (DART_OK, rt')
    /\ bucket_at (local_deps (heap rt' par)) (hash_gptr (gptr dep))
       = mk_elem dep t (myguid rt)
         :: bucket_at (local_deps (heap rt par)) (hash_gptr (gptr dep))
    /\ (forall s, s <> hash_gptr (gptr dep) ->
                  bucket_at (local_deps (heap rt' par)) s
                  = bucket_at (local_deps (heap rt par)) s)
    /\ local_deps (heap rt' par) <> None
    /\ (forall p, p <> par -> heap rt' p = heap rt p)
    /\ successor (heap rt' par) = successor (heap rt par)
    /\ unresolved_deps (heap rt' par) = unresolved_deps (heap rt par)
    /\ state (heap rt' par) = state (heap rt par)
    /\ freelist_head rt' = tl (freelist_head rt).
Proof. exact (dephash_add_local_spec dep t rt). Qed.

(** X18. Read after write on one unit: once a task has registered an
    output dependency on a location, the local match of a later input or
    output dependency of another task with the same parent on the same
    global pointer makes that task a successor of the writer and counts
    the writer in its [unresolved_deps], as long as the writer is
    active and the task is not yet among its successors. *)
Theorem registered_writer_is_matched d1 d2 t1 t2 rt :
  t1 <> NULL ->
  t1 <> t2 ->
  pool_zeroed rt ->
  parent (heap rt t1) <> NULL ->
  parent (heap rt t2) = parent (heap rt t1) ->
  IS_OUT_DEP d1 = true ->
  gptr d2 = gptr d1 ->
  IS_OUT_DEP d2 = true \/ dep_type d2 = DART_DEP_IN ->
  IS_ACTIVE_TASK rt t1 = true ->
  ~ In t2 (successor (heap rt t1)) ->
  exists rt1,
    dephash_add_local d1 t1 rt = Done (DART_OK, rt1)
    /\ let rt2 := snd (dart_tasking_datadeps_match_local_datadep d2 t2 rt1) in
       successor (heap rt2 t1) = t2 :: successor (heap rt t1)
       /\ unresolved_deps (heap rt2 t2) = inc32 (unresolved_deps (heap rt t2)).
Proof.
  intros Ht1 Hne Hpool Hpar Hsame Hout Hg Hty Hact Hnin.
  set (par := parent (heap rt t1)) in *.
  unfold dephash_add_local.
  rewrite dephash_allocate_elem_ok by assumption. cbn [bind].
  cbn [heap set_freelist_head]. fold par.
  set (rt0 := set_freelist_head (tl (freelist_head rt)) rt).
  set (E := mk_elem d1 t1 (myguid rt0)).
  assert (Hra : exists tbl,
             local_deps (heap (dephash_require_alloc par rt0) par) = Some tbl
             /\ forall p,
                 successor (heap (dephash_require_alloc par rt0) p)
                 = successor (heap rt p)
                 /\ unresolved_deps (heap (dephash_require_alloc par rt0) p)
                    = unresolved_deps (heap rt p)
                 /\ state (heap (dephash_require_alloc par rt0) p)
                    = state (heap rt p)
                 /\ parent (heap (dephash_require_alloc par rt0) p)
                    = parent (heap rt p)).
  { unfold dephash_require_alloc.
    destruct (Z.eqb_spec par NULL) as [|_]; [contradiction|]. cbn [negb].
    destruct (local_deps (heap rt0 par)) as [tbl|] eqn:Htbl.
    - exists tbl. split; [exact Htbl | intros p; repeat split].
    - eexists. split; [rewrite heap_modify_same; reflexivity|].
      intros p. rewrite heap_modify_task.
      destruct (Z.eqb_spec p par) as [->|]; repeat split. }
  destruct Hra as (tbl & Htbl & Hfr).
  rewrite Htbl. eexists. split; [reflexivity|].
  set (rt1 := modify_task par _ (dephash_require_alloc par rt0)).
  assert (Hfr1 : forall p,
             successor (heap rt1 p) = successor (heap rt p)
             /\ unresolved_deps (heap rt1 p) = unresolved_deps (heap rt p)
             /\ state (heap rt1 p) = state (heap rt p)
             /\ parent (heap rt1 p) = parent (heap rt p)).
  { intros p. destruct (Hfr p) as (A & B & C & D). unfold rt1.
    rewrite heap_modify_task.
    destruct (Z.eqb_spec p par) as [->|]; repeat split; assumption. }
  assert (Htbl1 : local_deps (heap rt1 par)
                  = Some (set_slot tbl (hash_gptr (gptr d1))
                            (E :: tbl (hash_gptr (gptr d1))))).
  { unfold rt1. rewrite heap_modify_same. reflexivity. }
  assert (Haddr : DEP_ADDR_EQ (taskdep E) d2 = true).
  { unfold DEP_ADDR_EQ, DEP_ADDR, E. cbn [taskdep]. rewrite Hg.
    apply Z.eqb_refl. }
  assert (HoutE : IS_OUT_DEP (taskdep E) = true) by exact Hout.
  assert (Hedge : local_edge rt1 d2 t2 E = true).
  { unfold local_edge. cbn [task E]. rewrite HoutE.
    replace (IS_OUT_DEP d2
             || deptype_eqb (dep_type d2) DART_DEP_IN && true) with true
      by (destruct Hty as [H|H]; rewrite H; [reflexivity|];
          destruct (IS_OUT_DEP d2); reflexivity).
    unfold IS_ACTIVE_TASK in *. destruct (Hfr1 t1) as (Hs & _ & Hst & _).
    rewrite Hst, Hact, Hs. cbn [andb].
    apply negb_true_iff. unfold dart_tasking_tasklist_contains.
    destruct (existsb (Z.eqb t2) (successor (heap rt t1))) eqn:Hex;
      [|reflexivity].
    apply existsb_exists in Hex as (x & Hin & Hx).
    apply Z.eqb_eq in Hx. subst x. contradiction. }
  assert (Hrt2 : exists f,
             snd (dart_tasking_datadeps_match_local_datadep d2 t2 rt1)
             = modify_task par f (local_link t1 t2 rt1)
             /\ forall x, successor (f x) = successor x
                          /\ unresolved_deps (f x) = unresolved_deps x).
  { unfold dart_tasking_datadeps_match_local_datadep.
    destruct (Hfr1 t2) as (_ & _ & _ & Hp2). rewrite Hp2, Hsame.
    fold par. rewrite Htbl1, Hg. unfold set_slot at 1. rewrite Z.eqb_refl.
    rewrite match_local_loop_other by (try exact Haddr; exact Hne).
    rewrite HoutE. cbn [snd]. unfold local_visit. rewrite Hedge.
    cbn [task E]. eexists. split; [reflexivity|].
    intros x. cbv beta. destruct (local_deps x); split; reflexivity. }
  destruct Hrt2 as (f & Hrt2 & Hf). cbn zeta. rewrite Hrt2.
  destruct (local_link_effect t1 t2 rt1 Hne) as (Hc & Hs).
  destruct (Hfr1 t1) as (Hs1 & _). destruct (Hfr1 t2) as (_ & Hd2 & _).
  split; rewrite heap_modify_task.
  - destruct (Z.eqb_spec t1 par) as [Heq|_].
    + rewrite <- Heq. destruct (Hf (heap (local_link t1 t2 rt1) t1)) as (-> & _).
      rewrite Hs, Hs1. reflexivity.
    + rewrite Hs, Hs1. reflexivity.
  - destruct (Z.eqb_spec t2 par) as [Heq|_].
    + rewrite <- Heq. destruct (Hf (heap (local_link t1 t2 rt1) t2)) as (_ & ->).
      rewrite Hc, Hd2. reflexivity.
    + rewrite Hc, Hd2. reflexivity.
Qed.


(** ** The delayed matcher without a next writer *)

Lemma delayed_link_frame owner t rt :
  freelist_head (delayed_link owner t rt) = freelist_head rt
  /\ myguid (delayed_link owner t rt) = myguid rt
  /\ sent (delayed_link owner t rt) = sent rt
  /\ runq (delayed_link owner t rt) = runq rt
  /\ forall p,
      local_deps (heap (delayed_link owner t rt) p) = local_deps (heap rt p)
      /\ parent (heap (delayed_link owner t rt) p) = parent (heap rt p)
      /\ state (heap (delayed_link owner t rt) p) = state (heap rt p).
Proof.
  unfold delayed_link.
  destruct (IS_ACTIVE_TASK rt owner); repeat split; heap_cases.
Qed.

(** X19. When [match_delayed_local_datadep] matches a delayed input
    dependency to a writer and has seen no later writer on the address,
    it returns [DART_OK] and inserts the record of the dependency
    immediately in front of the matched writer: the records before and
    behind keep their places, every other bucket is unchanged.  The new
    task becomes a successor of the writer's task, counted in its
    [unresolved_deps], exactly when that task is active. *)
Theorem delayed_match_inserts dep t rt tbl before E behind :
  local_deps (heap rt (parent (heap rt t))) = Some tbl ->
  tbl (hash_gptr (gptr dep)) = before ++ E :: behind ->
  (forall e, In e before -> delayed_hit dep e = false) ->
  (forall e, In e before ->
             dep_phase (taskdep e) <= dep_phase dep ->
             DEP_ADDR_EQ (taskdep e) dep = true -> task e <> t) ->
  delayed_hit dep E = true ->
  task E <> t ->
  next_writer dep before = NULL ->
  t <> NULL ->
  pool_zeroed rt ->
  let par := parent (heap rt t) in
  exists rt',
    dart_tasking_datadeps_match_delayed_local_datadep dep t rt
    = Done (DART_OK, rt')
    /\ bucket_at (local_deps (heap rt' par)) (hash_gptr (gptr dep))
       = before ++ mk_elem dep t (myguid rt) :: E :: behind
    /\ (forall s, s <> hash_gptr (gptr dep) ->
                  bucket_at (local_deps (heap rt' par)) s = tbl s)
    /\ (IS_ACTIVE_TASK rt (task E) = true ->
        successor (heap rt' (task E)) = t :: successor (heap rt (task E))
        /\ unresolved_deps (heap rt' t) = inc32 (unresolved_deps (heap rt t)))
    /\ (IS_ACTIVE_TASK rt (task E) = false ->
        forall p, successor (heap rt' p) = successor (heap rt p)
                  /\ unresolved_deps (heap rt' p) = unresolved_deps (heap rt p))
    /\ freelist_head rt' = tl (freelist_head rt).
Proof.
  intros Htbl Hslot Hhit Hself HE HEt HN Ht Hpool par.
  unfold dart_tasking_datadeps_match_delayed_local_datadep.
  rewrite Htbl, Hslot.
  rewrite (delayed_scan_prefix dep t [] before (E :: behind) NULL Hhit Hself).
  fold (next_writer dep before). rewrite HN.
  rewrite delayed_scan_hit by assumption. cbn [bind app].
  cbn [NULL Z.eqb negb].
  set (rt1 := delayed_link (task E) t rt).
  destruct (delayed_link_frame (task E) t rt) as (Hf & Hg & _ & _ & Hh).
  fold rt1 in Hf, Hg, Hh.
  assert (Hpool1 : pool_zeroed rt1) by (unfold pool_zeroed; rewrite Hf; exact Hpool).
  rewrite dephash_allocate_elem_ok by assumption. cbn [bind].
  cbn [heap set_freelist_head]. destruct (Hh t) as (_ & Hpt & _).
  rewrite Hpt. fold par.
  assert (Hra : dephash_require_alloc par
                  (set_freelist_head (tl (freelist_head rt1)) rt1)
                = set_freelist_head (tl (freelist_head rt1)) rt1).
  { unfold dephash_require_alloc. destruct (negb (par =? NULL)); [|reflexivity].
    cbn [heap set_freelist_head]. destruct (Hh par) as (Hl & _).
    rewrite Hl. unfold par. rewrite Htbl. reflexivity. }
  rewrite Hra. cbn [heap set_freelist_head].
  destruct (Hh par) as (Hl & _). rewrite Hl. unfold par at 1. rewrite Htbl.
  eexists. split; [reflexivity|].
  rewrite heap_modify_same. cbn [local_deps set_local_deps bucket_at].
  unfold set_slot. rewrite Z.eqb_refl, Hg.
  split; [reflexivity|]. split.
  { intros s Hs. destruct (Z.eqb_spec s (hash_gptr (gptr dep)));
      [contradiction | reflexivity]. }
  split.
  { intros Hact. unfold rt1, delayed_link. rewrite Hact.
    split; repeat (cbn [heap set_freelist_head]; heap_cases). }
  split.
  { intros Hact p. unfold rt1, delayed_link. rewrite Hact.
    split; repeat (cbn [heap set_freelist_head]; heap_cases). }
  cbn [freelist_head modify_task set_heap set_freelist_head].
  rewrite Hf. reflexivity.
Qed.

(** X20. A delayed input dependency without a writer to match leaves
    the runtime as it is: when the parent has no table, or the bucket
    holds no OUT or INOUT record on the address in a phase up to the
    one of the dependency, [match_delayed_local_datadep] returns
    [DART_OK], links nothing and does not register the dependency. *)
Theorem delayed_match_unsatisfied dep t rt :
  (forall e,
      In e (bucket_at (local_deps (heap rt (parent (heap rt t))))
                      (hash_gptr (gptr dep))) ->
      delayed_hit dep e = false
      /\ (dep_phase (taskdep e) <= dep_phase dep ->
          DEP_ADDR_EQ (taskdep e) dep = true -> task e <> t)) ->
  dart_tasking_datadeps_match_delayed_local_datadep dep t rt
  = Done (DART_OK, rt).
Proof.
  intros H. unfold dart_tasking_datadeps_match_delayed_local_datadep.
  destruct (local_deps (heap rt (parent (heap rt t)))) as [tbl|];
    [|reflexivity].
  cbn [bucket_at] in H.
  pose proof (delayed_scan_prefix dep t [] (tbl (hash_gptr (gptr dep))) []
                NULL) as Hscan.
  rewrite app_nil_r in Hscan. rewrite Hscan.
  - reflexivity.
  - intros e He. apply H. exact He.
  - intros e He. apply H. exact He.
Qed.

(** ** The copy-in planner with a prefetch record *)

Lemma copyin_scan_sound dep b owner :
  copyin_scan dep b = Some owner ->
  exists e,
    In e b /\ task e = owner
    /\ addr_or_offs (gptr (taskdep e)) = copyin_dest dep
    /\ IS_OUT_DEP (taskdep e) = true
    /\ dep_phase (taskdep e) = dep_phase dep.
Proof.
  induction b as [|e b IH]; intros H; [discriminate|].
  cbn [copyin_scan] in H.
  destruct (Z.eqb_spec (addr_or_offs (gptr (taskdep e))) (copyin_dest dep))
    as [Ha|Ha].
  - destruct (dep_phase (taskdep e) <? dep_phase dep); [discriminate|].
    destruct (IS_OUT_DEP (taskdep e)) eqn:Hout; cbn [andb] in H.
    + destruct (Z.eqb_spec (dep_phase dep) (dep_phase (taskdep e))) as [Hp|Hp].
      * injection H as <-. exists e.
        split; [left; reflexivity|]. repeat split; try assumption.
        symmetry. exact Hp.
      * destruct (IH H) as (e' & Hin & Hrest).
        exists e'. split; [right; exact Hin | exact Hrest].
    + destruct (IH H) as (e' & Hin & Hrest).
      exists e'. split; [right; exact Hin | exact Hrest].
  - destruct (IH H) as (e' & Hin & Hrest).
    exists e'. split; [right; exact Hin | exact Hrest].
Qed.

Lemma dephash_add_local_ok dep t rt r :
  dephash_add_local dep t rt = Done r -> fst r = DART_OK.
Proof.
  unfold dephash_add_local. intros H.
  destruct (dephash_allocate_elem dep t (myguid rt) rt) as [[elem rt1]|];
    [|discriminate].
  cbn [bind] in H.
  destruct (local_deps _); [|discriminate].
  injection H as <-. reflexivity.
Qed.

Lemma copyin_pass_found iter dep t rt tbl owner :
  local_deps (heap rt (parent (heap rt t))) = Some tbl ->
  copyin_scan dep (tbl (hash_gptr (copyin_dest_gptr dep rt))) = Some owner ->
  copyin_pass iter dep t rt
  = (r <- dephash_add_local (copyin_in_dep dep rt) t (local_link owner t rt) ;;
     Done (Return DART_OK (snd r))).
Proof.
  intros Htbl Hscan. unfold copyin_pass. rewrite Htbl, Hscan. reflexivity.
Qed.

(** The walk of [handle_copyin] ends at the first output record on the
    destination in the phase of the dependency when no record on the
    destination from an earlier phase lies in front of it. *)
Lemma copyin_scan_first dep before E behind :
  addr_or_offs (gptr (taskdep E)) = copyin_dest dep ->
  IS_OUT_DEP (taskdep E) = true ->
  dep_phase (taskdep E) = dep_phase dep ->
  (forall e, In e before ->
             addr_or_offs (gptr (taskdep e)) = copyin_dest dep ->
             dep_phase dep <= dep_phase (taskdep e)
             /\ (IS_OUT_DEP (taskdep e) = true ->
                 dep_phase (taskdep e) <> dep_phase dep)) ->
  copyin_scan dep (before ++ E :: behind) = Some (task E).
Proof.
  intros Ha Hout Hph Hfront.
  induction before as [|x l IH]; cbn [app copyin_scan].
  - rewrite Ha, Hout, Hph, !Z.eqb_refl, Z.ltb_irrefl. reflexivity.
  - assert (IHl : copyin_scan dep (l ++ E :: behind) = Some (task E)).
    { apply IH. intros e He. apply Hfront. right. exact He. }
    destruct (Z.eqb_spec (addr_or_offs (gptr (taskdep x))) (copyin_dest dep))
      as [Hx|Hx]; [|exact IHl].
    destruct (Hfront x (or_introl eq_refl) Hx) as [Hge Hne].
    replace (dep_phase (taskdep x) <? dep_phase dep) with false
      by (symmetry; apply Z.ltb_ge; exact Hge).
    destruct (IS_OUT_DEP (taskdep x)); cbn [andb]; [|exact IHl].
    destruct (Z.eqb_spec (dep_phase dep) (dep_phase (taskdep x))) as [He|_];
      [|exact IHl].
    exfalso. apply (Hne eq_refl). symmetry. exact He.
Qed.

(** The walk gives up at a record on the destination from an earlier
    phase, whatever lies behind it. *)
Lemma copyin_scan_gives_up dep before F behind :
  addr_or_offs (gptr (taskdep F)) = copyin_dest dep ->
  dep_phase (taskdep F) < dep_phase dep ->
  (forall e, In e before ->
             addr_or_offs (gptr (taskdep e)) = copyin_dest dep ->
             IS_OUT_DEP (taskdep e) = true ->
             dep_phase (taskdep e) <> dep_phase dep) ->
  copyin_scan dep (before ++ F :: behind) = None.
Proof.
  intros Ha Hlt Hfront.
  induction before as [|x l IH]; cbn [app copyin_scan].
  - rewrite Ha, Z.eqb_refl.
    replace (dep_phase (taskdep F) <? dep_phase dep) with true
      by (symmetry; apply Z.ltb_lt; exact Hlt).
    reflexivity.
  - assert (IHl : copyin_scan dep (l ++ F :: behind) = None).
    { apply IH. intros e He. apply Hfront. right. exact He. }
    destruct (Z.eqb_spec (addr_or_offs (gptr (taskdep x))) (copyin_dest dep))
      as [Hx|Hx]; [|exact IHl].
    destruct (dep_phase (taskdep x) <? dep_phase dep); [reflexivity|].
    destruct (IS_OUT_DEP (taskdep x)) eqn:Hout; cbn [andb]; [|exact IHl].
    destruct (Z.eqb_spec (dep_phase dep) (dep_phase (taskdep x))) as [He|_];
      [|exact IHl].
    exfalso. apply (Hfront x (or_introl eq_refl) Hx Hout). symmetry. exact He.
Qed.

(** X21. When the bucket of the destination buffer holds an OUT or INOUT
    record [E] on that buffer in the phase of the copy-in dependency,
    and every record on the buffer in front of [E] is from a phase that
    is not earlier and is not itself such an output record,
    [handle_copyin] asks for no prefetch task: the consumer's
    [unresolved_deps] is incremented, the consumer is prepended to the
    successors of the task of [E], and an [IN] record of the consumer on
    the destination buffer is registered in the table; the call returns
    what that registration returns. *)
Theorem handle_copyin_reuses_prefetch dep t rt tbl before E behind :
  local_deps (heap rt (parent (heap rt t))) = Some tbl ->
  tbl (hash_gptr (copyin_dest_gptr dep rt)) = before ++ E :: behind ->
  addr_or_offs (gptr (taskdep E)) = copyin_dest dep ->
  IS_OUT_DEP (taskdep E) = true ->
  dep_phase (taskdep E) = dep_phase dep ->
  (forall e, In e before ->
             addr_or_offs (gptr (taskdep e)) = copyin_dest dep ->
             dep_phase dep <= dep_phase (taskdep e)
             /\ (IS_OUT_DEP (taskdep e) = true ->
                 dep_phase (taskdep e) <> dep_phase dep)) ->
  dart_tasking_datadeps_handle_copyin dep t rt
  = dephash_add_local (copyin_in_dep dep rt) t (local_link (task E) t rt)
  /\ unresolved_deps (heap (local_link (task E) t rt) t)
     = inc32 (unresolved_deps (heap rt t))
  /\ successor (heap (local_link (task E) t rt) (task E))
     = t :: successor (heap rt (task E)).
Proof.
  intros Htbl Hb Ha Hout Hph Hfront.
  assert (Hscan : copyin_scan dep (tbl (hash_gptr (copyin_dest_gptr dep rt)))
                  = Some (task E)).
  { rewrite Hb. apply copyin_scan_first; assumption. }
  split.
  - unfold dart_tasking_datadeps_handle_copyin.
    rewrite (copyin_pass_found 0 dep t rt tbl (task E) Htbl Hscan).
    destruct (dephash_add_local (copyin_in_dep dep rt) t
                                (local_link (task E) t rt))
      as [[r rt']|] eqn:Hadd; [|reflexivity].
    apply dephash_add_local_ok in Hadd. cbn in Hadd. subst r. reflexivity.
  - unfold local_link, dart_tasking_tasklist_prepend. split; heap_cases.
Qed.

(** X26. The walk of [handle_copyin] gives up at the first record on the
    destination buffer from an earlier phase: when such a record lies
    in front of every output record on the buffer in the phase of the
    dependency, the first pass finds no prefetch record and asks the
    copy-in module for a prefetch task, whatever the bucket holds behind
    that record; the call goes on with the second pass on the runtime
    the module returns. *)
Theorem handle_copyin_gives_up_at_earlier_phase
        dep t rt tbl before F behind :
  local_deps (heap rt (parent (heap rt t))) = Some tbl ->
  tbl (hash_gptr (copyin_dest_gptr dep rt)) = before ++ F :: behind ->
  addr_or_offs (gptr (taskdep F)) = copyin_dest dep ->
  dep_phase (taskdep F) < dep_phase dep ->
  (forall e, In e before ->
             addr_or_offs (gptr (taskdep e)) = copyin_dest dep ->
             IS_OUT_DEP (taskdep e) = true ->
             dep_phase (taskdep e) <> dep_phase dep) ->
  let rt1 :=
    dart_tasking_copyin_create_task dep (copyin_dest_gptr dep rt) t rt in
  prefetch_absent dep t rt
  /\ dart_tasking_datadeps_handle_copyin dep t rt
     = (f1 <- copyin_pass 1 dep t rt1 ;;
        match f1 with
        | Return r rt' => Done (r, rt')
        | Continue rt2 => Done (DART_OK, rt2)
        end).
Proof.
  intros Htbl Hb Ha Hlt Hfront rt1.
  assert (Habs : prefetch_absent dep t rt).
  { unfold prefetch_absent. rewrite Htbl, Hb.
    apply copyin_scan_gives_up; assumption. }
  split; [exact Habs|].
  unfold dart_tasking_datadeps_handle_copyin.
  rewrite copyin_pass_absent by assumption. reflexivity.
Qed.

(** X22. One prefetch per destination and phase: when the first walk
    finds no prefetch record and the copy-in module then installs one,
    [handle_copyin] has asked for exactly one prefetch task and attaches
    the consumer to the task of the installed record in its second
    pass. *)
Theorem handle_copyin_one_prefetch dep t rt tbl owner :
  prefetch_absent dep t rt ->
  let rt1 :=
    dart_tasking_copyin_create_task dep (copyin_dest_gptr dep rt) t rt in
  local_deps (heap rt1 (parent (heap rt1 t))) = Some tbl ->
  copyin_scan dep (tbl (hash_gptr (copyin_dest_gptr dep rt1))) = Some owner ->
  dart_tasking_datadeps_handle_copyin dep t rt
  = dephash_add_local (copyin_in_dep dep rt1) t (local_link owner t rt1).
Proof.
  intros Habs rt1 Htbl Hscan.
  unfold dart_tasking_datadeps_handle_copyin.
  rewrite copyin_pass_absent by assumption. cbn [bind]. fold rt1.
  rewrite (copyin_pass_found 1 dep t rt1 tbl owner Htbl Hscan).
  destruct (dephash_add_local (copyin_in_dep dep rt1) t
                              (local_link owner t rt1)) as [[r rt']|] eqn:Hadd;
    [|reflexivity].
  apply dephash_add_local_ok in Hadd. cbn in Hadd. subst r. reflexivity.
Qed.


(** ** Submission of a task *)

Lemma deptype_eqb_eq a b : deptype_eqb a b = true <-> a = b.
Proof. destruct a, b; cbn; split; intros H; congruence. Qed.

Lemma deptype_eqb_neq a b : a <> b -> deptype_eqb a b = false.
Proof.
  intros H. destruct (deptype_eqb a b) eqn:E; [|reflexivity].
  apply deptype_eqb_eq in E. contradiction.
Qed.

(** X23. Dependencies that [handle_task] drops: a dependency of type
    [IGNORE], a direct dependency on [NULL] or on a task that is no
    longer active, and a dependency on a location of another unit when
    the parent of the task is not the root task.  The step for such a
    dependency returns and leaves the runtime as it is: nothing is
    registered, counted or sent. *)
Theorem handle_dep_drops phase_task team_all l2g localize t dep rt :
  (dep_type dep = DART_DEP_IGNORE ->
   handle_dep phase_task team_all l2g localize t dep rt = Done rt)
  /\ (dep_type dep = DART_DEP_DIRECT ->
      dep_task dep = NULL \/ IS_ACTIVE_TASK rt (dep_task dep) = false ->
      handle_dep phase_task team_all l2g localize t dep rt = Done rt)
  /\ (dep_type dep <> DART_DEP_IGNORE ->
      dep_type dep <> DART_DEP_DIRECT ->
      dep_type dep <> DART_DEP_COPYIN ->
      dep_unit team_all l2g dep <> myguid rt ->
      state (heap rt (parent (heap rt t))) <> DART_TASK_ROOT ->
      handle_dep phase_task team_all l2g localize t dep rt = Done rt).
Proof.
  unfold handle_dep. split; [|split].
  - intros H. rewrite H. reflexivity.
  - intros H Hd. rewrite H. cbn [deptype_eqb].
    assert (Hty : dep_type
                    (if dep_phase dep =? phase_task
                     then with_phase (phase (heap rt t)) dep else dep)
                  = DART_DEP_DIRECT)
      by (destruct (dep_phase dep =? phase_task); exact H).
    assert (Htk : dep_task
                    (if dep_phase dep =? phase_task
                     then with_phase (phase (heap rt t)) dep else dep)
                  = dep_task dep)
      by (destruct (dep_phase dep =? phase_task); reflexivity).
    rewrite Hty. cbn [deptype_eqb].
    unfold dart_tasking_datadeps_handle_local_direct. rewrite Htk.
    destruct Hd as [Hd|Hd]; rewrite Hd; [reflexivity|].
    destruct (negb (dep_task dep =? NULL)); reflexivity.
  - intros H1 H2 H3 Hu Hst.
    rewrite (deptype_eqb_neq _ _ H1).
    set (dep' := if dep_phase dep =? phase_task
                 then with_phase (phase (heap rt t)) dep else dep).
    assert (Hty : dep_type dep' = dep_type dep)
      by (unfold dep'; destruct (dep_phase dep =? phase_task); reflexivity).
    assert (Hg : gptr dep' = gptr dep)
      by (unfold dep'; destruct (dep_phase dep =? phase_task); reflexivity).
    rewrite Hty, Hg, (deptype_eqb_neq _ _ H2), (deptype_eqb_neq _ _ H3).
    unfold dep_unit in Hu.
    destruct (Z.eqb_spec
                (if negb (teamid (gptr dep) =? team_all)
                 then l2g (teamid (gptr dep)) (unitid (gptr dep))
                 else unitid (gptr dep)) (myguid rt)) as [|_];
      [contradiction|].
    cbn [negb].
    destruct (state_eqb (state (heap rt (parent (heap rt t)))) DART_TASK_ROOT)
      eqn:Hs; [|reflexivity].
    apply state_eqb_eq in Hs. contradiction.
Qed.

(** X24. A dependency on a location of another unit, of a task whose
    parent is the root task, is requested from that unit and never
    matched locally: the request carries the dependency in the phase of
    the task when the dependency says [DART_PHASE_TASK], the remote
    counter of the task is incremented, and the task is prepended to
    [remote_blocked_tasks] exactly when the counter has become one.  No
    hash table, local counter or successor list changes. *)
Theorem handle_dep_requests_remote phase_task team_all l2g localize t dep rt :
  dep_type dep <> DART_DEP_IGNORE ->
  dep_type dep <> DART_DEP_DIRECT ->
  dep_type dep <> DART_DEP_COPYIN ->
  dep_unit team_all l2g dep <> myguid rt ->
  state (heap rt (parent (heap rt t))) = DART_TASK_ROOT ->
  exists rt',
    handle_dep phase_task team_all l2g localize t dep rt = Done rt'
    /\ sent rt' = sent rt ++ [DepRequest (in_task_phase phase_task rt t dep) t]
    /\ unresolved_remote_deps (heap rt' t)
       = inc32 (unresolved_remote_deps (heap rt t))
    /\ remote_blocked_tasks rt'
       = (if inc32 (unresolved_remote_deps (heap rt t)) =? 1
          then t :: remote_blocked_tasks rt else remote_blocked_tasks rt)
    /\ (forall p, p <> t -> heap rt' p = heap rt p)
    /\ local_deps (heap rt' t) = local_deps (heap rt t)
    /\ unresolved_deps (heap rt' t) = unresolved_deps (heap rt t)
    /\ successor (heap rt' t) = successor (heap rt t).
Proof.
  intros H1 H2 H3 Hu Hst. unfold handle_dep.
  rewrite (deptype_eqb_neq _ _ H1).
  change (if dep_phase dep =? phase_task
          then with_phase (phase (heap rt t)) dep else dep)
    with (in_task_phase phase_task rt t dep).
  set (dep' := in_task_phase phase_task rt t dep).
  assert (Hty : dep_type dep' = dep_type dep)
    by (unfold dep', in_task_phase;
        destruct (dep_phase dep =? phase_task); reflexivity).
  assert (Hg : gptr dep' = gptr dep)
    by (unfold dep', in_task_phase;
        destruct (dep_phase dep =? phase_task); reflexivity).
  rewrite Hty, Hg, (deptype_eqb_neq _ _ H2), (deptype_eqb_neq _ _ H3).
  unfold dep_unit in Hu.
  destruct (Z.eqb_spec
              (if negb (teamid (gptr dep) =? team_all)
               then l2g (teamid (gptr dep)) (unitid (gptr dep))
               else unitid (gptr dep)) (myguid rt)) as [|_];
    [contradiction|].
  cbn [negb]. rewrite Hst. cbn [state_eqb].
  eexists. split; [reflexivity|].
  cbn [heap dart_tasking_remote_datadep set_sent].
  destruct (inc32 (unresolved_remote_deps (heap rt t)) =? 1);
    repeat split; try intros p Hp; cbn; heap_cases.
Qed.

(** ** From the request to the release *)

(** X25. A pending request that finds its satisfier is released by the
    satisfier's completion: after the turn of the deferred handling for
    the request, [dart_tasking_datadeps_release_local_task] on the
    satisfier, when it is not cancelled and the call returns, has sent
    the release for the request to its origin, ahead of the releases of
    the remote successors the satisfier already had. *)
Theorem satisfied_request_is_released table rdep rt e r :
  find (halts rt rdep) (remote_bucket table rdep) = Some e ->
  satisfies rt rdep e = true ->
  state (heap rt (task e)) <> DART_TASK_CANCELLED ->
  dart_tasking_datadeps_release_local_task
    (task e) (handle_remote_dep table rdep rt) = Done r ->
  exists directs,
    sent (snd r)
    = sent rt ++ directs
      ++ Release (origin rdep) (task rdep) (taskdep rdep)
         :: map (fun x => Release (origin x) (task x) (taskdep x))
                (remote_successor (heap rt (task e))).
Proof.
  intros Hfind Hsat Hst Hrel.
  pose proof (remote_scan_first_halt rt rdep (remote_bucket table rdep) NULL)
    as Hc.
  rewrite Hfind, Hsat in Hc.
  destruct (handle_remote_dep_answer table rdep rt) as [[Hn _]|[_ Ha]].
  { rewrite Hc in Hn. exfalso. exact (satisfies_task_not_null _ _ _ Hsat Hn). }
  rewrite Hc in Ha. destruct Ha as (Hrs & _ & Hs & _).
  set (rt1 := handle_remote_dep table rdep rt) in *.
  destruct (handle_remote_dep_frame table rdep rt) as (_ & _ & _ & _ & Hfr).
  fold rt1 in Hfr. destruct (Hfr (task e)) as (_ & _ & Hstate & _).
  unfold dart_tasking_datadeps_release_local_task in Hrel.
  destruct (release_successors (task e) _ _) as [rt2|] eqn:Hloop;
    [|discriminate].
  cbn in Hrel. injection Hrel as <-. cbn [snd].
  apply release_successors_frame in Hloop. destruct Hloop as (Hs2 & _).
  rewrite Hstate in Hs2.
  destruct (state_eqb (state (heap rt (task e))) DART_TASK_CANCELLED) eqn:Hcan.
  { apply state_eqb_eq in Hcan. contradiction. }
  cbn [negb] in Hs2.
  destruct (release_remote_dependencies_sends_aux (task e) rt1) as (A & _).
  rewrite Hs2, A, Hrs, Hs. cbn [map].
  eexists. rewrite <- app_assoc. reflexivity.
Qed.

End Datadeps.

(** * Concrete runs *)

(** C9, counterexample.  [dart_tasking_datadeps_reset] on a task
    without a hash table returns [DART_OK] and leaves the remote
    successor and both counters of the task in place. *)
Lemma reset_skips_task_without_table :
  let r := dart_tasking_datadeps_reset DART_DEP_IN 7 cancelled_leaf in
  fst r = DART_OK
  /\ local_deps (heap cancelled_leaf 7) = None
  /\ remote_successor (heap (snd r) 7) = [incoming 1]
  /\ unresolved_deps (heap (snd r) 7) = 1
  /\ unresolved_remote_deps (heap (snd r) 7) = 1.
Proof. repeat split. Qed.

(** C8, failing input.  When the copy-in module installs no OUT record,
    the second pass of [handle_copyin] does not abort: the call returns
    [DART_OK] after a second request for a prefetch task. *)
Lemma copyin_absence_is_not_fatal :
  prefetch_absent 0 copyin_dep 5 copyin_start
  /\ dart_tasking_datadeps_handle_copyin
       DART_DEP_IN 0 no_prefetch_task copyin_dep 5 copyin_start
     = Done (DART_OK, copyin_start).
Proof. split; [exact I | reflexivity]. Qed.

(** C1, counterexample.  For the one pending record of [war_reversed]
    both a direct-taskdep and a release are sent to its origin. *)
Lemma direct_taskdep_and_release_together :
  sent (snd (dart_tasking_datadeps_handle_defered_remote
               lifecycle_active DART_DEP_IN war_reversed))
  = [DirectTaskdep 1 2 77; Release 1 77 (gptr_dep DART_DEP_IN X 1)].
Proof. reflexivity. Qed.


(** C5, counterexample.  The local counter of the successor reaches
    zero; its remote counter is read and stays [1], it is not
    decremented to zero, and the successor is not enqueued. *)
Lemma remote_counter_is_not_decremented :
  exists rt',
    dart_tasking_datadeps_release_local_task DART_DEP_IN 2 one_local_one_remote
    = Done (DART_OK, rt')
    /\ unresolved_deps (heap rt' 3) = 0
    /\ unresolved_remote_deps (heap rt' 3) = 1
    /\ unresolved_remote_deps (heap rt' 3)
       <> dec32 (unresolved_remote_deps (heap one_local_one_remote 3))
    /\ runq rt' = [].
Proof.
  eexists. split; [reflexivity|]. repeat split. discriminate.
Qed.

(** C6, counterexample.  The bucket holds no OUT or INOUT record; both
    of its records are on the address of the new output dependency,
    their tasks are active and the new task is among the successors of
    neither.  The first record belongs to the new task itself: the walk
    ends there with the upgrade of the record, no counter is
    incremented and the new task becomes a successor neither of itself
    nor of the reader behind. *)
Lemma own_record_ends_walk :
  let dep := gptr_dep DART_DEP_OUT X 0 in
  let own := local_rec DART_DEP_IN X 0 5 in
  let reader := local_rec DART_DEP_IN X 0 4 in
  let rt := read_then_write in
  let rt' := snd (dart_tasking_datadeps_match_local_datadep
                    lifecycle_active dep 5 rt) in
  remote_bucket (local_deps (heap rt 1)) (incoming 0) = [own; reader]
  /\ local_edge lifecycle_active rt dep 5 own = true
  /\ local_edge lifecycle_active rt dep 5 reader = true
  /\ unresolved_deps (heap rt' 5) = unresolved_deps (heap rt 5)
  /\ successor (heap rt' 5) = []
  /\ successor (heap rt' 4) = []
  /\ remote_bucket (local_deps (heap rt' 1)) (incoming 0)
     = [local_rec DART_DEP_INOUT X 0 5; reader].
Proof. repeat split. Qed.

(** C5 on [one_local]: the successor is enqueued. *)
Lemma sole_predecessor_enqueues :
  3 <> NULL
  /\ 0 <= dec32 (unresolved_deps (heap one_local 3))
  /\ 0 <= unresolved_remote_deps (heap one_local 3)
  /\ exists rt2,
      release_successors 2 [3] one_local = release_successors 2 [] rt2
      /\ unresolved_deps (heap rt2 3) = 0
      /\ runq rt2 = [3].
Proof.
  assert (H1 : 3 <> NULL) by discriminate.
  assert (H2 : 0 <= dec32 (unresolved_deps (heap one_local 3)))
    by discriminate.
  assert (H3 : 0 <= unresolved_remote_deps (heap one_local 3))
    by discriminate.
  split; [exact H1|]. split; [exact H2|]. split; [exact H3|].
  destruct (release_successor_turn 2 3 [] one_local H1 H2 H3)
    as (rt2 & Heq & _ & Hd & _ & Hq & _).
  exists rt2. split; [exact Heq|]. split; [exact Hd|].
  apply Hq. repeat split.
Defined.

(** C6 on [raw_same_unit]: the reader becomes a successor of the
    writer. *)
Lemma reader_waits_for_writer :
  let dep := gptr_dep DART_DEP_IN X 0 in
  let E := local_rec DART_DEP_OUT X 0 2 in
  let rt := raw_same_unit in
  let past_E := snd (match_local_loop lifecycle_active dep 3 ([] ++ [E]) rt) in
  (forall e, In e [] -> local_stop dep 3 e = false)
  /\ DEP_ADDR_EQ (taskdep E) dep = true
  /\ task E <> 3
  /\ local_edge lifecycle_active rt dep 3 E = true
  /\ unresolved_deps (heap past_E 3) = inc32 (unresolved_deps (heap rt 3))
  /\ successor (heap past_E (task E)) = 3 :: successor (heap rt (task E)).
Proof.
  intros dep E rt past_E.
  assert (H0 : forall e, In e [] -> local_stop dep 3 e = false)
    by (intros e []).
  assert (Hne : task E <> 3) by discriminate.
  split; [exact H0|]. split; [reflexivity|]. split; [exact Hne|].
  split; [reflexivity|].
  destruct (match_local_walk lifecycle_active dep 3 [] E [] rt H0 eq_refl)
    as (_ & Hother).
  destruct (Hother Hne) as (Hedge & _).
  exact (Hedge eq_refl).
Defined.

(** C7 on [delayed_in]: [R] precedes [W2] and waits for [W1]; the table
    keeps its two records. *)
Lemma delayed_reader_between_writers :
  let dep := gptr_dep DART_DEP_DELAYED_IN X 4 in
  let W2 := local_rec DART_DEP_OUT X 5 3 in
  let W1 := local_rec DART_DEP_OUT X 3 2 in
  let rt := delayed_in in
  next_writer dep [W2] = 3
  /\ delayed_hit dep W1 = true
  /\ IS_ACTIVE_TASK lifecycle_active rt 3 = true
  /\ exists rt',
      dart_tasking_datadeps_match_delayed_local_datadep
        lifecycle_active DART_DEP_IN dep 4 rt = Done (DART_OK, rt')
      /\ successor (heap rt' 4) = [3]
      /\ unresolved_deps (heap rt' 3) = 1
      /\ unresolved_deps (heap rt' 4) = 1
      /\ successor (heap rt' 2) = [4]
      /\ remote_bucket (local_deps (heap rt' 1)) (incoming 0) = [W2; W1].
Proof.
  intros dep W2 W1 rt.
  split; [reflexivity|]. split; [reflexivity|]. split; [reflexivity|].
  assert (Hhit : forall e, In e [W2] -> delayed_hit dep e = false).
  { intros e [<-|[]]. reflexivity. }
  assert (Hself : forall e, In e [W2] ->
                            dep_phase (taskdep e) <= dep_phase dep ->
                            DEP_ADDR_EQ (taskdep e) dep = true -> task e <> 4).
  { intros e [<-|[]] _ _. discriminate. }
  assert (HE : task W1 <> 4) by discriminate.
  assert (HN : 3 <> NULL) by discriminate.
  destruct (delayed_match_next_writer lifecycle_active DART_DEP_IN dep 4 rt
              (buckets_of 16 [W2; W1]) [W2] W1 [] 3
              eq_refl eq_refl Hhit Hself eq_refl HE eq_refl HN eq_refl)
    as (rt' & Hcall & _ & HcN & Hsucc & Hfirst & Htbl & _).
  assert (H34 : 3 <> 4) by discriminate.
  destruct (Hfirst eq_refl) as (Hs2 & Hc4).
  exists rt'. split; [exact Hcall|].
  split; [exact Hsucc|].
  split; [exact (HcN H34)|].
  split; [exact (Hc4 H34)|].
  split; [exact Hs2|].
  rewrite (Htbl 1). reflexivity.
Defined.

(** C10 on [raw_same_unit]: a direct dependency of the remote task [77]
    on the active task [2]. *)
Lemma remote_direct_on_active_task :
  let uninit := gptr_dep DART_DEP_IN DART_GPTR_NULL 0 in
  77 <> NULL
  /\ pool_zeroed raw_same_unit
  /\ exists rt',
      dart_tasking_datadeps_handle_remote_direct
        lifecycle_active DART_DEP_IN 2 77 1 uninit raw_same_unit
      = Done (DART_OK, rt').
Proof.
  intros uninit.
  assert (H1 : 77 <> NULL) by discriminate.
  assert (H2 : pool_zeroed raw_same_unit) by constructor.
  split; [exact H1|]. split; [exact H2|].
  destruct (handle_remote_direct_outcome lifecycle_active DART_DEP_IN
              2 77 1 uninit raw_same_unit H1 H2) as (rt' & Hcall & _).
  exists rt'. exact Hcall.
Defined.

(** C9 on [raw_same_unit]: the reset of the root task drops its table. *)
Lemma root_reset_drops_table :
  let rt := raw_same_unit in
  let rt' := snd (dart_tasking_datadeps_reset DART_DEP_IN 1 rt) in
  1 <> NULL
  /\ local_deps (heap rt 1)
     = Some (buckets_of 16 [local_rec DART_DEP_OUT X 0 2])
  /\ local_deps (heap rt' 1) = None
  /\ remote_successor (heap rt' 1) = []
  /\ unresolved_deps (heap rt' 1) = 0
  /\ unresolved_remote_deps (heap rt' 1) = 0.
Proof.
  intros rt rt'.
  assert (H1 : 1 <> NULL) by discriminate.
  split; [exact H1|]. split; [reflexivity|].
  destruct (reset_drops_records_of_table_owner DART_DEP_IN 1 rt)
    as (_ & Hown & _).
  destruct (Hown _ H1 eq_refl) as (Ha & Hb & Hc & Hd & _).
  split; [exact Ha|]. split; [exact Hb|]. split; [exact Hc | exact Hd].
Defined.

(** The run of C6 through the submission of a task: task [5] is
    submitted with an input and an output dependency on [X] while the
    reader [4] of [X] is active.  Both dependencies are handled, task
    [5] has no unresolved dependency and the reader has no successor.
    The interface is instantiated with addresses that are already
    local, global unit ids, and [-1] for [DART_PHASE_TASK]. *)
Lemma read_then_write_by_submission :
  exists rt',
    dart_tasking_datadeps_handle_task
      lifecycle_active DART_DEP_IN 0 no_prefetch_task
      (-1) 0 (fun _ u => u) (fun g => g)
      5 [gptr_dep DART_DEP_IN X 0; gptr_dep DART_DEP_OUT X 0]
      reader_registered
    = Done (DART_OK, rt')
    /\ unresolved_deps (heap rt' 5) = 0
    /\ successor (heap rt' 4) = []
    /\ remote_bucket (local_deps (heap rt' 1)) (incoming 0)
       = [local_rec DART_DEP_OUT X 0 5; local_rec DART_DEP_INOUT X 0 5;
          local_rec DART_DEP_IN X 0 4].
Proof. eexists. split; [reflexivity|]. repeat split. Qed.

(** The run of C1 through the interface: unit [0] submits the task [2]
    with an output dependency on [X] in phase [2], the read request of
    phase [1] of the task [77] of unit [1] comes in, and the deferred
    handling answers it with a direct-taskdep and a release. *)
Lemma war_reversed_by_submission :
  let start :=
    runtime_of (heap_of [(1, root_task None);
                         (2, blank_task 1 2 DART_TASK_CREATED)]) [] in
  exists rt1 rt2,
    dart_tasking_datadeps_handle_task
      lifecycle_active DART_DEP_IN 0 no_prefetch_task
      (-1) 0 (fun _ u => u) (fun g => g)
      2 [gptr_dep DART_DEP_OUT X 2] start
    = Done (DART_OK, rt1)
    /\ dart_tasking_datadeps_handle_remote_task
         DART_DEP_IN (gptr_dep DART_DEP_IN X 1) 77 1 rt1
       = Done (DART_OK, rt2)
    /\ unhandled_remote_deps rt2 = [incoming 1]
    /\ sent (snd (dart_tasking_datadeps_handle_defered_remote
                    lifecycle_active DART_DEP_IN rt2))
       = [DirectTaskdep 1 2 77; Release 1 77 (gptr_dep DART_DEP_IN X 1)].
Proof.
  eexists. eexists. split; [reflexivity|]. split; [reflexivity|].
  split; reflexivity.
Qed.

(** ** Runs of the further properties *)

(** X2 on [X]: the address [67] lies in the word of [64]. *)
Lemma hash_gptr_word_at_X :
  addr_or_offs X mod 4 = 0
  /\ 0 <= 3 < 4
  /\ hash_gptr (with_addr (addr_or_offs X + 3) X) = hash_gptr X.
Proof.
  assert (H1 : addr_or_offs X mod 4 = 0) by reflexivity.
  assert (H2 : 0 <= 3 < 4) by lia.
  split; [exact H1|]. split; [exact H2|].
  exact (hash_gptr_word X 3 H1 H2).
Defined.

(** X3 on [raw_same_unit]: the record of the request is recycled and
    handed out again for another request. *)
Lemma recycle_then_allocate_request :
  78 <> NULL
  /\ dephash_allocate_elem DART_DEP_IN (gptr_dep DART_DEP_IN X 2) 78 1
       (dephash_recycle_elem DART_DEP_IN (incoming 1) raw_same_unit)
     = Done (mk_elem (gptr_dep DART_DEP_IN X 2) 78 1, raw_same_unit).
Proof.
  assert (H : 78 <> NULL) by discriminate.
  split; [exact H|].
  exact (recycle_then_allocate DART_DEP_IN (incoming 1)
           (gptr_dep DART_DEP_IN X 2) 78 1 raw_same_unit H).
Defined.

(** X4 on [raw_same_unit]: with an empty pool the allocation returns. *)
Lemma dephash_allocate_elem_from_empty_pool :
  exists r,
    dephash_allocate_elem DART_DEP_IN (gptr_dep DART_DEP_IN X 2) 78 1
                          raw_same_unit = Done r.
Proof.
  destruct (dephash_allocate_elem_returns DART_DEP_IN
              (gptr_dep DART_DEP_IN X 2) 78 1 raw_same_unit) as [[_ H] _].
  apply H. split; [discriminate|]. intros e l Hf. discriminate Hf.
Defined.

(** X5 on [war_reversed]: the record recycled by the deferred handling
    is zeroed. *)
Lemma pool_stays_zeroed_after_release :
  pool_zeroed war_reversed
  /\ freelist_head (snd (dart_tasking_datadeps_handle_defered_remote
                           lifecycle_active DART_DEP_IN war_reversed))
     = [zero_elem DART_DEP_IN]
  /\ pool_zeroed (snd (dart_tasking_datadeps_handle_defered_remote
                         lifecycle_active DART_DEP_IN war_reversed)).
Proof.
  assert (H : pool_zeroed war_reversed) by constructor.
  split; [exact H|]. split; [reflexivity|].
  destruct (pool_stays_zeroed lifecycle_active DART_DEP_IN war_reversed H)
    as (_ & _ & _ & Hd & _).
  exact Hd.
Defined.

(** X6 on [raw_same_unit]: the read request of unit [1] is queued. *)
Lemma handle_remote_task_queues_request :
  exists rt',
    dart_tasking_datadeps_handle_remote_task
      DART_DEP_IN (gptr_dep DART_DEP_IN X 1) 77 1 raw_same_unit
    = Done (DART_OK, rt')
    /\ unhandled_remote_deps rt' = [incoming 1].
Proof.
  destruct (handle_remote_task_queues DART_DEP_IN (gptr_dep DART_DEP_IN X 1)
              77 1 raw_same_unit) as (_ & Hin).
  destruct Hin as (rt' & Hcall & Hq & _);
    [reflexivity | discriminate | constructor |].
  exists rt'. split; [exact Hcall | exact Hq].
Defined.

(** X10 on [request_before_table]: the request is released at once. *)
Lemma request_before_table_is_released :
  let rt := request_before_table in
  let rt' := snd (dart_tasking_datadeps_handle_defered_remote
                    lifecycle_active DART_DEP_IN rt) in
  local_deps (heap rt (current_task rt)) = None
  /\ sent rt' = [Release 1 77 (gptr_dep DART_DEP_IN X 1)]
  /\ heap rt' = heap rt.
Proof.
  intros rt rt'.
  assert (H : local_deps (heap rt (current_task rt)) = None) by reflexivity.
  split; [exact H|].
  destruct (handle_defered_remote_without_table lifecycle_active DART_DEP_IN
              rt H) as (Hs & _ & Hh & _).
  split; [exact Hs | exact Hh].
Defined.

(** X11 on [cancelled_leaf]: the cancelled task keeps its remote
    successor and nothing is sent. *)
Lemma cancelled_task_releases_nothing :
  exists r,
    dart_tasking_datadeps_release_local_task DART_DEP_IN 7 cancelled_leaf
    = Done r
    /\ sent (snd r) = sent cancelled_leaf
    /\ remote_successor (heap (snd r) 7) = [incoming 1].
Proof.
  eexists. split; [reflexivity|].
  destruct (release_local_task_remote_part DART_DEP_IN 7 cancelled_leaf _
              eq_refl) as (_ & _ & Hc).
  destruct (Hc eq_refl) as (Hs & Hr & _).
  split; [exact Hs | exact Hr].
Defined.

(** X12 on [one_local]: the one successor is enqueued. *)
Lemma release_local_task_on_one_local :
  NoDup (successor (heap one_local 2))
  /\ ~ In NULL (successor (heap one_local 2))
  /\ exists rt',
      dart_tasking_datadeps_release_local_task DART_DEP_IN 2 one_local
      = Done (DART_OK, rt')
      /\ runq rt' = [3]
      /\ successor (heap rt' 2) = [].
Proof.
  assert (H1 : NoDup (successor (heap one_local 2))).
  { constructor; [intros [] | constructor]. }
  assert (H2 : ~ In NULL (successor (heap one_local 2))).
  { intros [H|[]]. discriminate H. }
  assert (H3 : forall S, In S (successor (heap one_local 2)) ->
                         0 < unresolved_deps (heap one_local S) < 2 ^ 31
                         /\ 0 <= unresolved_remote_deps (heap one_local S)).
  { intros S [<-|[]]. cbn. lia. }
  split; [exact H1|]. split; [exact H2|].
  destruct (release_local_task_distinct DART_DEP_IN 2 one_local H1 H2 H3)
    as (rt' & Hcall & Hq & _ & Hs).
  exists rt'. split; [exact Hcall|]. split; [exact Hq | exact Hs].
Defined.

(** X13 on [one_local_one_remote]: the successor that still waits for a
    remote release is not among the enqueued tasks. *)
Lemma release_local_task_spares_remote_waiter :
  ~ In NULL (successor (heap one_local_one_remote 2))
  /\ exists r,
      dart_tasking_datadeps_release_local_task
        DART_DEP_IN 2 one_local_one_remote = Done r
      /\ exists enqueued,
          runq (snd r) = runq one_local_one_remote ++ enqueued
          /\ forall S, In S enqueued ->
                       unresolved_remote_deps (heap (snd r) S) = 0.
Proof.
  assert (H : ~ In NULL (successor (heap one_local_one_remote 2))).
  { intros [H|[]]. discriminate H. }
  split; [exact H|].
  eexists. split; [reflexivity|].
  destruct (release_local_task_enqueues_ready DART_DEP_IN 2
              one_local_one_remote _ H eq_refl) as (enq & Hq & _ & Hall).
  exists enq. split; [exact Hq|].
  intros S HS. destruct (Hall S HS) as (_ & _ & Hr & _). exact Hr.
Defined.

(** X14 on [waiting_for_remote]: the blocked task is enqueued without a
    release from the remote unit. *)
Lemma cancel_remote_deps_on_waiting_task :
  let r := dart_tasking_datadeps_cancel_remote_deps waiting_for_remote in
  ~ In NULL (remote_blocked_tasks waiting_for_remote)
  /\ remote_blocked_tasks (snd r) = []
  /\ runq (snd r) = [3]
  /\ unresolved_remote_deps (heap (snd r) 3) = 0.
Proof.
  intros r.
  assert (H : ~ In NULL (remote_blocked_tasks waiting_for_remote)).
  { intros [H|[]]. discriminate H. }
  split; [exact H|].
  destruct (cancel_remote_deps_drains waiting_for_remote H)
    as (_ & Hb & Hq & _ & Hc & _).
  split; [exact Hb|]. split; [exact Hq|].
  apply Hc. left. reflexivity.
Defined.

(** X15 on [waiting_for_remote]: the release of the remote unit makes the
    task runnable and takes it from the blocked tasks. *)
Lemma release_remote_dep_on_waiting_task :
  exists rt',
    dart_tasking_datadeps_release_remote_dep tasklist_without 3
                                             waiting_for_remote
    = Done (DART_OK, rt')
    /\ unresolved_remote_deps (heap rt' 3) = 0
    /\ runq rt' = [3]
    /\ remote_blocked_tasks rt' = [].
Proof.
  destruct (release_remote_dep_outcome tasklist_without 3 waiting_for_remote)
    as (_ & Hok).
  destruct Hok as (rt' & Hcall & Hn & _ & _ & Hq & Hb & _);
    [discriminate | discriminate |].
  exists rt'. split; [exact Hcall|]. split; [exact Hn|].
  split; [exact Hq | exact Hb].
Defined.

(** X17 on [raw_same_unit]: the read of task [3] is put in front of the
    write of task [2]. *)
Lemma dephash_add_local_in_front :
  let dep := gptr_dep DART_DEP_IN X 0 in
  3 <> NULL
  /\ pool_zeroed raw_same_unit
  /\ parent (heap raw_same_unit 3) <> NULL
  /\ exists rt',
      dephash_add_local DART_DEP_IN dep 3 raw_same_unit = Done (DART_OK, rt')
      /\ bucket_at (local_deps (heap rt' 1)) 16
         = [local_rec DART_DEP_IN X 0 3; local_rec DART_DEP_OUT X 0 2].
Proof.
  intros dep.
  assert (H1 : 3 <> NULL) by discriminate.
  assert (H2 : pool_zeroed raw_same_unit) by constructor.
  assert (H3 : parent (heap raw_same_unit 3) <> NULL) by discriminate.
  split; [exact H1|]. split; [exact H2|]. split; [exact H3|].
  destruct (dephash_add_local_inserts DART_DEP_IN dep 3 raw_same_unit
              H1 H2 H3) as (rt' & Hcall & Hb & _).
  exists rt'. split; [exact Hcall | exact Hb].
Defined.

(** X18 on [two_fresh_tasks]: task [2] registers its write of [X], the
    read of task [3] is matched to it. *)
Lemma fresh_reader_waits_for_fresh_writer :
  let d1 := gptr_dep DART_DEP_OUT X 0 in
  let d2 := gptr_dep DART_DEP_IN X 0 in
  let rt := two_fresh_tasks in
  pool_zeroed rt
  /\ IS_ACTIVE_TASK lifecycle_active rt 2 = true
  /\ ~ In 3 (successor (heap rt 2))
  /\ exists rt1,
      dephash_add_local DART_DEP_IN d1 2 rt = Done (DART_OK, rt1)
      /\ successor
           (heap (snd (dart_tasking_datadeps_match_local_datadep
                         lifecycle_active d2 3 rt1)) 2) = [3]
      /\ unresolved_deps
           (heap (snd (dart_tasking_datadeps_match_local_datadep
                         lifecycle_active d2 3 rt1)) 3) = 1.
Proof.
  intros d1 d2 rt.
  assert (H1 : 2 <> NULL) by discriminate.
  assert (H2 : 2 <> 3) by discriminate.
  assert (H3 : pool_zeroed rt) by constructor.
  assert (H4 : parent (heap rt 2) <> NULL) by discriminate.
  assert (H5 : ~ In 3 (successor (heap rt 2))) by (intros []).
  split; [exact H3|]. split; [reflexivity|]. split; [exact H5|].
  destruct (registered_writer_is_matched lifecycle_active DART_DEP_IN
              d1 d2 2 3 rt H1 H2 H3 H4 eq_refl eq_refl eq_refl
              (or_intror eq_refl) eq_refl H5) as (rt1 & Hcall & Hs & Hc).
  exists rt1. split; [exact Hcall|]. split; [exact Hs | exact Hc].
Defined.

(** X19 on [raw_same_unit]: the delayed read of task [3] in phase [1] is
    put in front of the write of phase [0] and waits for its task. *)
Lemma delayed_reader_behind_last_writer :
  let dep := gptr_dep DART_DEP_DELAYED_IN X 1 in
  let W := local_rec DART_DEP_OUT X 0 2 in
  let rt := raw_same_unit in
  delayed_hit dep W = true
  /\ next_writer dep [] = NULL
  /\ pool_zeroed rt
  /\ exists rt',
      dart_tasking_datadeps_match_delayed_local_datadep
        lifecycle_active DART_DEP_IN dep 3 rt = Done (DART_OK, rt')
      /\ bucket_at (local_deps (heap rt' 1)) 16 = [mk_elem dep 3 0; W]
      /\ successor (heap rt' 2) = [3]
      /\ unresolved_deps (heap rt' 3) = 1.
Proof.
  intros dep W rt.
  assert (Hhit : forall e, In e [] -> delayed_hit dep e = false)
    by (intros e []).
  assert (Hself : forall e, In e [] ->
                            dep_phase (taskdep e) <= dep_phase dep ->
                            DEP_ADDR_EQ (taskdep e) dep = true -> task e <> 3)
    by (intros e []).
  assert (HE : task W <> 3) by discriminate.
  assert (HN : 3 <> NULL) by discriminate.
  assert (HP : pool_zeroed rt) by constructor.
  split; [reflexivity|]. split; [reflexivity|]. split; [exact HP|].
  destruct (delayed_match_inserts lifecycle_active DART_DEP_IN dep 3 rt
              (buckets_of 16 [W]) [] W []
              eq_refl eq_refl Hhit Hself eq_refl HE eq_refl HN HP)
    as (rt' & Hcall & Hb & _ & Hact & _).
  destruct (Hact eq_refl) as (Hs & Hc).
  exists rt'. split; [exact Hcall|]. split; [exact Hb|].
  split; [exact Hs | exact Hc].
Defined.

(** X20 on [reader_registered]: the bucket of [X] holds a read only, the
    delayed read of task [5] is dropped. *)
Lemma delayed_reader_without_writer :
  let dep := gptr_dep DART_DEP_DELAYED_IN X 0 in
  bucket_at (local_deps (heap reader_registered 1)) 16
  = [local_rec DART_DEP_IN X 0 4]
  /\ dart_tasking_datadeps_match_delayed_local_datadep
       lifecycle_active DART_DEP_IN dep 5 reader_registered
     = Done (DART_OK, reader_registered).
Proof.
  intros dep. split; [reflexivity|].
  apply (delayed_match_unsatisfied lifecycle_active DART_DEP_IN dep 5
           reader_registered).
  intros e [<-|[]]. split; [reflexivity|]. intros _ _. discriminate.
Defined.

(** X22 on [copyin_start]: the first pass requests the prefetch task
    [9], the second pass finds its record. *)
Lemma copyin_creates_one_prefetch :
  let rt1 :=
    prefetch_task_9 copyin_dep (copyin_dest_gptr 0 copyin_dep copyin_start)
                    5 copyin_start in
  prefetch_absent 0 copyin_dep 5 copyin_start
  /\ dart_tasking_datadeps_handle_copyin
       DART_DEP_IN 0 prefetch_task_9 copyin_dep 5 copyin_start
     = dephash_add_local DART_DEP_IN (copyin_in_dep 0 copyin_dep rt1) 5
                         (local_link 9 5 rt1).
Proof.
  intros rt1.
  assert (H : prefetch_absent 0 copyin_dep 5 copyin_start) by exact I.
  split; [exact H|].
  exact (handle_copyin_one_prefetch DART_DEP_IN 0 prefetch_task_9
           copyin_dep 5 copyin_start
           (buckets_of 1 [local_rec DART_DEP_OUT (local_gptr 0 4096) 3 9])
           9 H eq_refl eq_refl).
Defined.

(** X23 on [nested_task]: the dependency of the nested task [6] on [X]
    of unit [1] is dropped. *)
Lemma nested_task_drops_remote_dep :
  let dep := gptr_dep DART_DEP_IN remote_X 0 in
  dep_unit 0 (fun _ u => u) dep <> myguid nested_task
  /\ state (heap nested_task (parent (heap nested_task 6))) <> DART_TASK_ROOT
  /\ handle_dep lifecycle_active DART_DEP_IN 0 no_prefetch_task
                (-1) 0 (fun _ u => u) (fun g => g) 6 dep nested_task
     = Done nested_task.
Proof.
  intros dep.
  assert (H1 : dep_unit 0 (fun _ u => u) dep <> myguid nested_task)
    by discriminate.
  assert (H2 : state (heap nested_task (parent (heap nested_task 6)))
               <> DART_TASK_ROOT) by discriminate.
  split; [exact H1|]. split; [exact H2|].
  destruct (handle_dep_drops lifecycle_active DART_DEP_IN 0 no_prefetch_task
              (-1) 0 (fun _ u => u) (fun g => g) 6 dep nested_task)
    as (_ & _ & Hremote).
  apply Hremote; [discriminate | discriminate | discriminate | exact H1
                  | exact H2].
Defined.

(** X24 on [copyin_start]: task [5] of phase [3] writes [X] of unit [1]
    in the phase of the task; the request carries phase [3] and the task
    is blocked. *)
Lemma remote_write_is_requested :
  let dep := gptr_dep DART_DEP_OUT remote_X (-1) in
  let rt := copyin_start in
  dep_unit 0 (fun _ u => u) dep <> myguid rt
  /\ state (heap rt (parent (heap rt 5))) = DART_TASK_ROOT
  /\ exists rt',
      handle_dep lifecycle_active DART_DEP_IN 0 no_prefetch_task
                 (-1) 0 (fun _ u => u) (fun g => g) 5 dep rt = Done rt'
      /\ sent rt' = [DepRequest (gptr_dep DART_DEP_OUT remote_X 3) 5]
      /\ unresolved_remote_deps (heap rt' 5) = 1
      /\ remote_blocked_tasks rt' = [5].
Proof.
  intros dep rt.
  assert (H1 : dep_type dep <> DART_DEP_IGNORE) by discriminate.
  assert (H2 : dep_type dep <> DART_DEP_DIRECT) by discriminate.
  assert (H3 : dep_type dep <> DART_DEP_COPYIN) by discriminate.
  assert (H4 : dep_unit 0 (fun _ u => u) dep <> myguid rt) by discriminate.
  assert (H5 : state (heap rt (parent (heap rt 5))) = DART_TASK_ROOT)
    by reflexivity.
  split; [exact H4|]. split; [exact H5|].
  destruct (handle_dep_requests_remote lifecycle_active DART_DEP_IN 0
              no_prefetch_task (-1) 0 (fun _ u => u) (fun g => g) 5 dep rt
              H1 H2 H3 H4 H5) as (rt' & Hcall & Hs & Hc & Hb & _).
  exists rt'. split; [exact Hcall|]. split; [exact Hs|].
  split; [exact Hc | exact Hb].
Defined.

(** X25 on [raw_same_unit]: the read request of phase [1] is attached to
    the writer [2] of phase [0] and released when the writer completes. *)
Lemma attached_request_is_released :
  let rt := raw_same_unit in
  let table := local_deps (heap rt 1) in
  let W := local_rec DART_DEP_OUT X 0 2 in
  find (halts lifecycle_active rt (incoming 1))
       (remote_bucket table (incoming 1)) = Some W
  /\ satisfies lifecycle_active rt (incoming 1) W = true
  /\ state (heap rt (task W)) <> DART_TASK_CANCELLED
  /\ exists r,
      dart_tasking_datadeps_release_local_task DART_DEP_IN (task W)
        (handle_remote_dep lifecycle_active DART_DEP_IN table (incoming 1) rt)
      = Done r
      /\ exists directs,
          sent (snd r)
          = sent rt ++ directs
            ++ Release 1 77 (gptr_dep DART_DEP_IN X 1)
               :: map (fun x => Release (origin x) (task x) (taskdep x))
                      (remote_successor (heap rt (task W))).
Proof.
  intros rt table W.
  assert (H : state (heap rt (task W)) <> DART_TASK_CANCELLED)
    by discriminate.
  split; [reflexivity|]. split; [reflexivity|]. split; [exact H|].
  eexists. split; [reflexivity|].
  exact (satisfied_request_is_released lifecycle_active DART_DEP_IN table
           (incoming 1) rt W _ eq_refl eq_refl H eq_refl).
Defined.

(** ** Runs for the revised statements *)

(** C1 on [war_reversed]: the scan remembers the writer [2] and names no
    satisfier; the direct-taskdep for [2] and the release are sent. *)
Lemma war_reversed_is_answered :
  let table := local_deps (heap war_reversed (current_task war_reversed)) in
  let rt' :=
    handle_remote_dep lifecycle_active DART_DEP_IN table (incoming 1)
                      war_reversed in
  unhandled_remote_deps war_reversed = [] ++ incoming 1 :: []
  /\ released DART_DEP_IN war_reversed rt' (incoming 1)
              [DirectTaskdep 1 2 77].
Proof.
  intros table rt'. split; [reflexivity|].
  destruct (deferred_remote_answers_each lifecycle_active DART_DEP_IN
              war_reversed [] (incoming 1) [] eq_refl)
    as (_ & _ & _ & Hrel & _).
  exact (Hrel eq_refl).
Defined.



(** C3, second run, by submission.  Unit [0] submits the task [2] of
    phase [5] and then the task [3] of phase [1], each with an output
    dependency on [X] in its phase; the read request of phase [3] comes
    in.  Task [2] is an active writer of [X] in a phase after the
    request, but its record lies behind the record of the satisfier
    [3], where the scan ends: no direct-taskdep is sent, the counter of
    task [2] stays [0] and no task is blocked. *)
Lemma late_submission_hides_later_writer :
  let handle := dart_tasking_datadeps_handle_task
                  lifecycle_active DART_DEP_IN 0 no_prefetch_task
                  (-1) 0 (fun _ u => u) (fun g => g) in
  let submit := fun t deps rt => snd (result (DART_OK, rt) (handle t deps rt)) in
  let start :=
    runtime_of (heap_of [(1, root_task None);
                         (2, blank_task 1 5 DART_TASK_CREATED);
                         (3, blank_task 1 1 DART_TASK_CREATED)]) [] in
  let rt1 := submit 2 [gptr_dep DART_DEP_OUT X (-1)] start in
  let rt2 := submit 3 [gptr_dep DART_DEP_OUT X (-1)] rt1 in
  let rt3 :=
    snd (result (DART_OK, rt2)
           (dart_tasking_datadeps_handle_remote_task
              DART_DEP_IN (gptr_dep DART_DEP_IN X 3) 77 1 rt2)) in
  let rt' := snd (dart_tasking_datadeps_handle_defered_remote
                    lifecycle_active DART_DEP_IN rt3) in
  let b := remote_bucket (local_deps (heap rt3 1)) (incoming 3) in
  handle 2 [gptr_dep DART_DEP_OUT X (-1)] start = Done (DART_OK, rt1)
  /\ handle 3 [gptr_dep DART_DEP_OUT X (-1)] rt1 = Done (DART_OK, rt2)
  /\ dart_tasking_datadeps_handle_remote_task
       DART_DEP_IN (gptr_dep DART_DEP_IN X 3) 77 1 rt2 = Done (DART_OK, rt3)
  /\ b = [local_rec DART_DEP_OUT X 1 3; local_rec DART_DEP_OUT X 5 2]
  /\ finished_behind lifecycle_active rt3 (incoming 3) b = true
  /\ filter (later_active_writer lifecycle_active rt3 (incoming 3)) b
     = [local_rec DART_DEP_OUT X 5 2]
  /\ filter (later_active_writer lifecycle_active rt3 (incoming 3))
            (in_front_of_satisfier lifecycle_active rt3 (incoming 3) b) = []
  /\ remote_successor (heap rt' 3) = [incoming 3]
  /\ sent rt' = []
  /\ unresolved_remote_deps (heap rt' 2) = 0
  /\ remote_blocked_tasks rt' = [].
Proof. repeat (split; [vm_compute; reflexivity|]). vm_compute. reflexivity. Qed.



(** X21 on [prefetch_registered]: the consumer [5] waits for the prefetch
    task [9] and no second prefetch task is requested. *)
Lemma copyin_waits_for_registered_prefetch :
  let rt := prefetch_registered in
  let E := local_rec DART_DEP_OUT (local_gptr 0 4096) 3 9 in
  bucket_at (local_deps (heap rt 1))
            (hash_gptr (copyin_dest_gptr 0 copyin_dep rt)) = [] ++ E :: []
  /\ dart_tasking_datadeps_handle_copyin
       DART_DEP_IN 0 no_prefetch_task copyin_dep 5 rt
     = dephash_add_local DART_DEP_IN (copyin_in_dep 0 copyin_dep rt) 5
                         (local_link 9 5 rt)
  /\ successor (heap (local_link 9 5 rt) 9) = [5].
Proof.
  intros rt E. split; [reflexivity|].
  assert (Hfront : forall e, In e [] ->
             addr_or_offs (gptr (taskdep e)) = copyin_dest copyin_dep ->
             dep_phase copyin_dep <= dep_phase (taskdep e)
             /\ (IS_OUT_DEP (taskdep e) = true ->
                 dep_phase (taskdep e) <> dep_phase copyin_dep))
    by (intros e []).
  destruct (handle_copyin_reuses_prefetch DART_DEP_IN 0 no_prefetch_task
              copyin_dep 5 rt (buckets_of 1 [E]) [] E []
              eq_refl eq_refl eq_refl eq_refl eq_refl Hfront)
    as (Hcall & _ & Hs).
  split; [exact Hcall | exact Hs].
Defined.

(** X26 on [prefetch_behind_earlier_phase]: the walk for the copy-in of
    phase [3] gives up at the record of phase [2]; the prefetch task [9]
    of phase [3] behind it is not found, the copy-in module is asked
    in both passes and the consumer [5] is attached to no task. *)
Lemma copyin_gives_up_in_front_of_prefetch :
  let rt := prefetch_behind_earlier_phase in
  let F := local_rec DART_DEP_OUT (local_gptr 0 4096) 2 8 in
  let E := local_rec DART_DEP_OUT (local_gptr 0 4096) 3 9 in
  bucket_at (local_deps (heap rt 1))
            (hash_gptr (copyin_dest_gptr 0 copyin_dep rt)) = [] ++ F :: [E]
  /\ prefetch_absent 0 copyin_dep 5 rt
  /\ dart_tasking_datadeps_handle_copyin
       DART_DEP_IN 0 no_prefetch_task copyin_dep 5 rt
     = Done (DART_OK, rt).
Proof.
  intros rt F E. split; [reflexivity|].
  assert (Hlt : dep_phase (taskdep F) < dep_phase copyin_dep)
    by (cbn; lia).
  assert (Hfront : forall e, In e [] ->
             addr_or_offs (gptr (taskdep e)) = copyin_dest copyin_dep ->
             IS_OUT_DEP (taskdep e) = true ->
             dep_phase (taskdep e) <> dep_phase copyin_dep)
    by (intros e []).
  destruct (handle_copyin_gives_up_at_earlier_phase
              DART_DEP_IN 0 no_prefetch_task copyin_dep 5 rt
              (buckets_of 1 [F; E]) [] F [E]
              eq_refl eq_refl eq_refl Hlt Hfront) as (Habs & Hcall).
  split; [exact Habs|]. rewrite Hcall. reflexivity.
Defined.
